(** * EchoLearn: the voice pipeline, embedded and checked against its specification

    Sources embedded here:
    - [assistant/gemma_optimized.py]  (GemmaClient: prompt, retries, sentence streaming)
    - [assistant/gemma.py]            (legacy [ask_gemma])
    - [assistant/audio_optimized.py]  (AudioProcessor: record, transcribe, cleanup)
    - [assistant/speak_optimized.py]  (SpeechSynthesizer: speak, streaming narration)
    - [main_optimized.py]             (EchoLearnAssistant.process_question_async)
    - [assistant/pdf_optimized.py], [assistant/pdf.py]  (text extraction and its cache)
    - [extract_from_pdf.py]           (the single-file assistant's [ask_gemma])

    Python [str] values are lists of Unicode code points; coroutines are
    functions in a state-and-exception monad whose state carries the file
    system, the synthesizer's temp-file list, the tasks handed to the event
    loop and the trace of calls made to external collaborators. *)

From Stdlib Require Import String Ascii.
From Stdlib Require Import List NArith ZArith QArith Bool Lia Arith.
Import ListNotations.
Close Scope Q_scope.

Set Implicit Arguments.

(** ** Python strings *)

Module PyStr.

Definition str := list N.

(** An ASCII literal of the source as a list of code points. *)
Definition lit (s : string) : str :=
  map N_of_ascii (list_ascii_of_string s).

Definition NL : str := [10%N].

(** [bool(s)] for a string. *)
Definition truthy (s : str) : bool :=
  match s with [] => false | _ :: _ => true end.

Definition str_eqb (a b : str) : bool :=
  if list_eq_dec N.eq_dec a b then true else false.

(** [str.isspace] on one code point (CPython's [_PyUnicode_IsWhitespace]). *)
Definition isspace (c : N) : bool :=
  ((9 <=? c) && (c <=? 13) || (28 <=? c) && (c <=? 32)
   || (c =? 133) || (c =? 160) || (c =? 5760)
   || (8192 <=? c) && (c <=? 8202)
   || (c =? 8232) || (c =? 8233) || (c =? 8239) || (c =? 8287)
   || (c =? 12288))%N.

Fixpoint lstrip (s : str) : str :=
  match s with
  | [] => []
  | c :: r => if isspace c then lstrip r else s
  end.

Definition rstrip (s : str) : str := rev (lstrip (rev s)).

(** [s.strip()] *)
Definition strip (s : str) : str := rstrip (lstrip s).

(** [s.startswith(prefix)] *)
Fixpoint startswith (s prefix : str) : bool :=
  match prefix, s with
  | [], _ => true
  | _ :: _, [] => false
  | p :: ps, c :: cs => N.eqb p c && startswith cs ps
  end.

(** [sub in s]: [sub] occurs in [s] as a substring. *)
Fixpoint str_in (sub s : str) : bool :=
  startswith s sub || match s with [] => false | _ :: r => str_in sub r end.

(** [s.replace(old, new)] for a non-empty [old]: leftmost, non-overlapping
    occurrences; [skip] counts the characters of a match still to drop. *)
Fixpoint replace_from (old new s : str) (skip : nat) : str :=
  match s with
  | [] => []
  | c :: r =>
      match skip with
      | S k => replace_from old new r k
      | O => if startswith s old
             then new ++ replace_from old new r (length old - 1)
             else c :: replace_from old new r 0
      end
  end.

(** [s.replace(old, new)]; an empty [old] matches before every character
    and at the end. *)
Definition replace (s old new : str) : str :=
  match old with
  | [] => flat_map (fun c => new ++ [c]) s ++ new
  | _ :: _ => replace_from old new s 0
  end.

(** The string with every whitespace character deleted. *)
Definition squeeze (s : str) : str := filter (fun c => negb (isspace c)) s.

End PyStr.
Import PyStr.

(** ** Exceptions, state and the coroutine monad *)

(** The two handler classes the source distinguishes: [asyncio.TimeoutError]
    and any other [Exception], of which only [str(e)] is used. *)
Inductive exn : Type :=
| TimeoutError
| Exception (msg : str).

Inductive outcome (A : Type) : Type :=
| Ret (a : A)
| Raise (e : exn).
Arguments Ret {A} a.
Arguments Raise {A} e.

(** Calls that leave the program, in the order they are made. *)
Inductive event : Type :=
| EvTempFile (path : str)            (* tempfile.NamedTemporaryFile(delete=False) *)
| EvRecord (duration : Z)            (* sd.rec ... sd.wait *)
| EvWriteWav (path : str)            (* scipy.io.wavfile.write *)
| EvTranscribe (path : str)          (* whisper model.transcribe *)
| EvRemove (path : str)              (* os.remove *)
| EvGenerate (prompt : str)          (* ollama AsyncClient.generate(stream=True) *)
| EvSleep (seconds : Q)              (* asyncio.sleep *)
| EvCallback (sentence : str)        (* stream_callback(sentence) *)
| EvSynth (text : str) (path : str)  (* edge_tts.Communicate(text).stream() into path *)
| EvPlay (path : str)                (* os.system afplay *)
| EvPoll (seconds : Q)               (* asyncio.wait_for(queue.get(), timeout) *)
| EvSpeakThread (text : str).        (* legacy speak_streamed_text: a daemon thread *)

(** A coroutine handed to [asyncio.create_task]: it runs later, on its own. *)
Inductive task : Type :=
| CleanupTask (path : str) (delay : Q).

Record state : Type := mkState {
  fs : list str;           (* paths that exist *)
  temp_files : list str;   (* SpeechSynthesizer._temp_files *)
  tasks : list task;       (* created, not awaited *)
  trace : list event
}.

Definition M (A : Type) : Type := state -> outcome A * state.

Definition ret {A} (a : A) : M A := fun s => (Ret a, s).
Definition raise {A} (e : exn) : M A := fun s => (Raise e, s).
Definition bind {A B} (m : M A) (k : A -> M B) : M B :=
  fun s => match m s with
           | (Ret a, s') => k a s'
           | (Raise e, s') => (Raise e, s')
           end.

(** [try: m  except <both classes> as e: h e] *)
Definition try_except {A} (m : M A) (h : exn -> M A) : M A :=
  fun s => match m s with
           | (Ret a, s') => (Ret a, s')
           | (Raise e, s') => h e s'
           end.

(** [try: m  finally: f]: [f] runs on both exits; if [f] itself raises, that
    exception replaces the pending result. *)
Definition try_finally {A} (m : M A) (f : M unit) : M A :=
  fun s => match m s with
           | (r, s') => match f s' with
                        | (Ret _, s'') => (r, s'')
                        | (Raise e, s'') => (Raise e, s'')
                        end
           end.

Notation "x <- m ;; k" := (bind m (fun x => k))
  (at level 61, m at next level, right associativity).
Notation "m ;;; k" := (bind m (fun _ => k))
  (at level 61, right associativity).

Definition emit (e : event) : M unit :=
  fun s => (Ret tt, mkState (fs s) (temp_files s) (tasks s) (trace s ++ [e])).

Definition path_exists (p : str) : M bool :=
  fun s => (Ret (existsb (str_eqb p) (fs s)), s).

Definition fs_add (p : str) : M unit :=
  fun s => (Ret tt, mkState (p :: fs s) (temp_files s) (tasks s) (trace s)).

Definition fs_del (p : str) : M unit :=
  fun s => (Ret tt, mkState (filter (fun q => negb (str_eqb p q)) (fs s))
                            (temp_files s) (tasks s) (trace s)).

Definition create_task (t : task) : M unit :=
  fun s => (Ret tt, mkState (fs s) (temp_files s) (tasks s ++ [t]) (trace s)).

Definition init_state (files : list str) : state := mkState files [] [] [].

(** ** assistant/gemma_optimized.py *)

(** One item of the token stream: the chunk dict, reduced to its
    ["response"] entry when it has one. *)
Definition chunk := option str.

(** [chunk.get("response", "")] *)
Definition chunk_get_response (c : chunk) : str :=
  match c with Some t => t | None => [] end.

(** What the language-model service does on one call: the chunks it delivers
    and how the iteration ends.  [Some TimeoutError] is the deadline of
    [asyncio.wait_for] cutting the coroutine after those chunks. *)
Record service_reply : Type := mkReply {
  delivered : list chunk;
  ending : option exn
}.

(** [any(p in buffer for p in [".", "!", "?"])] *)
Definition has_terminator (buffer : str) : bool :=
  existsb (fun p => str_in p buffer) [lit "."; lit "!"; lit "?"].

Module GemmaClient.

Definition max_retries : nat := 3.
Definition retry_delay : Q := 1.
Definition max_context_length : nat := 4000.

Definition prompt_head : str :=
  lit "You are a helpful study assistant. Use the following textbook context to answer the question concisely and accurately."
  ++ NL ++ NL ++ lit "Context:" ++ NL.
Definition prompt_mid : str := NL ++ NL ++ lit "Question:" ++ NL.
Definition prompt_tail : str := NL ++ NL ++ lit "Answer (be concise and direct):".

Definition _build_prompt (question context : str) : str :=
  let context :=
    if max_context_length <? length context
    then firstn max_context_length context ++ lit "..."
    else context in
  prompt_head ++ context ++ prompt_mid ++ question ++ prompt_tail.

Definition timeout_message : str :=
  lit "I'm sorry, the request timed out. Please try again.".
Definition error_message (e : str) : str :=
  lit "I'm sorry, I encountered an error: " ++ e.

(** The body of [async for chunk in response_stream].  [cb] tells whether a
    [stream_callback] was passed; its calls are recorded as [EvCallback]. *)
Fixpoint consume (cb : bool) (cs : list chunk) (full_response buffer : str)
  : M (str * str) :=
  match cs with
  | [] => ret (full_response, buffer)
  | c :: rest =>
      let token := chunk_get_response c in
      if negb (truthy token) then consume cb rest full_response buffer
      else
        let full_response := full_response ++ token in
        let buffer := buffer ++ token in
        if cb && has_terminator buffer then
          let sentence := strip buffer in
          (if truthy sentence then emit (EvCallback sentence) else ret tt) ;;;
          consume cb rest full_response []
        else consume cb rest full_response buffer
  end.

(** [asyncio.wait_for(coro, timeout)].  With a timeout of 0 or less the
    coroutine is cancelled before its first step, so nothing of it runs, and
    [TimeoutError] is raised; under a positive timeout the coroutine runs, and
    where the deadline cuts it is part of what the service replies. *)
Definition wait_for {A} (coro : M A) (timeout : Z) : M A :=
  if (timeout <=? 0)%Z then raise TimeoutError else coro.

Section Service.

(** The service, by attempt number, prompt and timeout in seconds. *)
Variable service : nat -> str -> Z -> service_reply.

(** The coroutine [self._generate_response(prompt, cb)], once it runs.  The
    deadline it runs under reaches it through the service's reply, which says
    where a positive [timeout] cut the stream, if it did. *)
Definition _generate_response (attempt : nat) (prompt : str) (timeout : Z)
    (cb : bool) : M str :=
  emit (EvGenerate prompt) ;;;
  let reply := service attempt prompt timeout in
  p <- consume cb (delivered reply) [] [] ;;
  match ending reply with
  | Some e => raise e
  | None =>
      let buffer := snd p in
      (if cb && truthy (strip buffer)
       then emit (EvCallback (strip buffer)) else ret tt) ;;;
      ret (strip (fst p))
  end.

(** One pass of the retry loop: [Some r] is [return r], [None] falls
    through to the next iteration. *)
Definition attempt_once (attempt : nat) (prompt : str) (timeout : Z)
    (cb : bool) : M (option str) :=
  try_except
    (response <- wait_for (_generate_response attempt prompt timeout cb)
                          timeout ;;
     if truthy response then ret (Some response) else ret None)
    (fun e =>
       match e with
       | TimeoutError =>
           if attempt <? max_retries - 1
           then emit (EvSleep retry_delay) ;;; ret None
           else ret (Some timeout_message)
       | Exception msg =>
           if attempt <? max_retries - 1
           then emit (EvSleep retry_delay) ;;; ret None
           else ret (Some (error_message msg))
       end).

(** [for attempt in range(self.max_retries)], [remaining] passes left. *)
Fixpoint retry_loop (remaining attempt : nat) (prompt : str) (timeout : Z)
    (cb : bool) : M str :=
  match remaining with
  | O => ret []
  | S remaining' =>
      r <- attempt_once attempt prompt timeout cb ;;
      match r with
      | Some answer => ret answer
      | None => retry_loop remaining' (S attempt) prompt timeout cb
      end
  end.

Definition ask_question_async (question context : str) (timeout : Z)
    (cb : bool) : M str :=
  let prompt := _build_prompt question context in
  retry_loop max_retries 0 prompt timeout cb.

End Service.

End GemmaClient.

(** ** assistant/gemma.py (the legacy variant) *)

Module Legacy.

Definition prompt_head : str :=
  lit "You are a helpful study assistant. Use the following textbook context to answer the question concisely."
  ++ NL ++ NL ++ lit "Context:" ++ NL.
Definition prompt_mid : str := NL ++ NL ++ lit "Question:" ++ NL.
Definition prompt_tail : str := NL ++ NL ++ lit "Answer:".

Fixpoint consume (cs : list chunk) (buffer spoken : str) : M str :=
  match cs with
  | [] => ret spoken
  | c :: rest =>
      let token := chunk_get_response c in
      let buffer := buffer ++ token in
      if has_terminator buffer then
        let new_chunk := replace (strip buffer) spoken [] in
        let spoken := spoken ++ new_chunk in
        emit (EvSpeakThread new_chunk) ;;;
        consume rest [] spoken
      else consume rest buffer spoken
  end.

Definition ask_gemma (service : str -> service_reply) (question context : str)
  : M str :=
  let prompt := prompt_head ++ context ++ prompt_mid ++ question ++ prompt_tail in
  try_except
    (emit (EvGenerate prompt) ;;;
     let reply := service prompt in
     spoken <- consume (delivered reply) [] [] ;;
     match ending reply with
     | Some e => raise e
     | None => ret spoken
     end)
    (fun _ => ret []).

End Legacy.

(** ** The external collaborators *)

(** What [model.transcribe] hands back: a falsy value ([None], an empty
    dict), or a non-empty dict with its ["text"] entry when it has one. *)
Inductive transcript : Type :=
| NoResult
| Result (text : option str).

Record World : Type := mkWorld {
  gettempdir : str;                          (* tempfile.gettempdir() *)
  wav_tempfile : outcome str;                (* NamedTemporaryFile(suffix=".wav").name *)
  mp3_tempfile : str -> outcome str;         (* NamedTemporaryFile(suffix=".mp3").name, by text *)
  executor_fault : option exn;               (* loop.run_in_executor refusing the job *)
  sd_rec : Z -> outcome (list Z);            (* sounddevice: the samples, or a device error *)
  wav_write_fault : str -> option exn;       (* scipy.io.wavfile.write *)
  whisper : str -> outcome transcript;       (* model load and model.transcribe *)
  os_remove_fault : str -> option exn;       (* os.remove *)
  synth_fault : str -> option exn;           (* edge_tts stream, open(path, "wb") *)
  afplay : str -> Z;                         (* exit status of os.system *)
  service : nat -> str -> Z -> service_reply (* ollama generate(stream=True) *)
}.

Section Externals.

Variable w : World.

Definition lift_fault (f : option exn) : M unit :=
  match f with Some e => raise e | None => ret tt end.

Definition run_in_executor {A} (job : M A) : M A :=
  lift_fault (executor_fault w) ;;; job.

Definition os_remove (path : str) : M unit :=
  emit (EvRemove path) ;;;
  lift_fault (os_remove_fault w path) ;;;
  fs_del path.

Definition named_temporary_file (name : outcome str) : M str :=
  match name with
  | Raise e => raise e
  | Ret path => emit (EvTempFile path) ;;; fs_add path ;;; ret path
  end.

End Externals.

(** ** assistant/audio_optimized.py *)

Module AudioProcessor.

Section Audio.

Variable w : World.

Definition _record_audio_sync (duration : Z) : M (option (list Z)) :=
  try_except
    (emit (EvRecord duration) ;;;
     match sd_rec w duration with
     | Ret audio => ret (Some audio)
     | Raise e => raise e
     end)
    (fun _ => ret None).

Definition record_audio_async (duration : Z) (filename : option str)
  : M (option str) :=
  filename <- match filename with
              | None => named_temporary_file (wav_tempfile w)
              | Some f => ret f
              end ;;
  try_except
    (audio_data <- run_in_executor w (_record_audio_sync duration) ;;
     match audio_data with
     | None => ret None
     | Some _ =>
         emit (EvWriteWav filename) ;;;
         lift_fault (wav_write_fault w filename) ;;;
         fs_add filename ;;;
         ret (Some filename)
     end)
    (fun _ =>
       ex <- path_exists filename ;;
       (if ex then os_remove w filename else ret tt) ;;;
       ret None).

Definition _transcribe_sync (audio_file : str) : M transcript :=
  try_except
    (emit (EvTranscribe audio_file) ;;;
     match whisper w audio_file with
     | Ret r => ret r
     | Raise e => raise e
     end)
    (fun _ => ret NoResult).

(** The [finally] block of [transcribe_audio_async]. *)
Definition cleanup_audio_file (audio_file : str) : M unit :=
  try_except
    (ex <- path_exists audio_file ;;
     if ex && startswith audio_file (gettempdir w)
     then os_remove w audio_file
     else ret tt)
    (fun _ => ret tt).

Definition transcribe_audio_async (audio_file : str) : M str :=
  try_finally
    (try_except
       (ex <- path_exists audio_file ;;
        if negb ex then ret []
        else
          result <- run_in_executor w (_transcribe_sync audio_file) ;;
          match result with
          | Result text =>
              ret (strip (match text with Some t => t | None => [] end))
          | NoResult => ret []
          end)
       (fun _ => ret []))
    (cleanup_audio_file audio_file).

End Audio.

End AudioProcessor.

(** ** assistant/speak_optimized.py *)

Module SpeechSynthesizer.

Definition temp_files_append (path : str) : M unit :=
  fun s => (Ret tt, mkState (fs s) (temp_files s ++ [path]) (tasks s) (trace s)).

(** [list.remove]: the first occurrence. *)
Fixpoint list_remove_first (path : str) (l : list str) : list str :=
  match l with
  | [] => []
  | q :: r => if str_eqb path q then r else q :: list_remove_first path r
  end.

Definition temp_files_discard (path : str) : M unit :=
  fun s => (Ret tt,
            if existsb (str_eqb path) (temp_files s)
            then mkState (fs s) (list_remove_first path (temp_files s))
                         (tasks s) (trace s)
            else s).

(** [delay > 0] *)
Definition positive (delay : Q) : bool := negb (Qle_bool delay 0).

Section Speech.

Variable w : World.

Definition _generate_audio_async (text : str) : M (option str) :=
  try_except
    (temp_audio_path <- named_temporary_file (mp3_tempfile w text) ;;
     temp_files_append temp_audio_path ;;;
     emit (EvSynth text temp_audio_path) ;;;
     lift_fault (synth_fault w text) ;;;
     ret (Some temp_audio_path))
    (fun _ => ret None).

Definition _play_audio_sync (audio_path : str) : M bool :=
  try_except
    (emit (EvPlay audio_path) ;;;
     ret (Z.eqb (afplay w audio_path) 0))
    (fun _ => ret false).

Definition _play_audio_async (audio_path : str) : M bool :=
  try_except
    (ex <- path_exists audio_path ;;
     if negb ex then ret false
     else run_in_executor w (_play_audio_sync audio_path))
    (fun _ => ret false).

Definition _cleanup_temp_file (file_path : str) (delay : Q) : M unit :=
  try_except
    ((if positive delay then emit (EvSleep delay) else ret tt) ;;;
     ex <- path_exists file_path ;;
     (if ex then os_remove w file_path else ret tt) ;;;
     temp_files_discard file_path)
    (fun _ => ret tt).

Definition speak_async (text : str) (cleanup_delay : Q) : M bool :=
  if negb (truthy text) || negb (truthy (strip text)) then ret false
  else
    try_except
      (temp_audio_path <- _generate_audio_async text ;;
       match temp_audio_path with
       | None => ret false
       | Some path =>
           if negb (truthy path) then ret false
           else
             success <- _play_audio_async path ;;
             (if positive cleanup_delay
              then create_task (CleanupTask path cleanup_delay)
              else _cleanup_temp_file path 0) ;;;
             ret success
       end)
      (fun _ => ret false).

End Speech.

End SpeechSynthesizer.

(** *** speak_streaming_async *)

(** What one [asyncio.wait_for(text_stream.get(), timeout=1.0)] yields: the
    deadline, or an item of the queue ([None] is the end signal). *)
Inductive poll : Type :=
| PollTimeout
| PollItem (item : option str).

Inductive loop_ctl : Type := Continue | Break.

(** How a run over a finite script of polls stands at its end: out of the
    loop through [break], out through the outer [except], or still polling. *)
Inductive stream_exit : Type := Stopped | Failed | Waiting.

(** [try: m  except asyncio.TimeoutError: h] *)
Definition try_except_timeout {A} (m : M A) (h : M A) : M A :=
  fun s => match m s with
           | (Raise TimeoutError, s') => h s'
           | r => r
           end.

Module Streaming.

Definition poll_timeout : Q := 1.
Definition chunk_cleanup_delay : Q := 1.

Section Stream.

Variable w : World.

(** The body of [while True]. *)
Definition poll_once (p : poll) : M loop_ctl :=
  try_except_timeout
    (emit (EvPoll poll_timeout) ;;;
     match p with
     | PollTimeout => raise TimeoutError
     | PollItem None => ret Break
     | PollItem (Some text_chunk) =>
         (if truthy (strip text_chunk)
          then SpeechSynthesizer.speak_async w text_chunk chunk_cleanup_delay
               ;;; ret tt
          else ret tt) ;;;
         ret Continue
     end)
    (ret Continue).

Fixpoint stream_loop (polls : list poll) : M stream_exit :=
  match polls with
  | [] => ret Waiting
  | p :: rest =>
      c <- poll_once p ;;
      match c with
      | Break => ret Stopped
      | Continue => stream_loop rest
      end
  end.

Definition speak_streaming_async (polls : list poll) : M stream_exit :=
  try_except (stream_loop polls) (fun _ => ret Failed).

End Stream.

End Streaming.

(** ** main_optimized.py *)

Module EchoLearnAssistant.

(** The result dict; [timing] keeps the keys set, in order (the values are
    wall-clock differences). *)
Record result : Type := mkResult {
  success : bool;
  question : str;
  answer : str;
  timing : list string;
  errors : list str
}.

Definition fresh_result : result := mkResult false [] [] [] [].

Definition add_timing (k : string) (r : result) : result :=
  mkResult (success r) (question r) (answer r) (timing r ++ [k]) (errors r).
Definition add_error (e : str) (r : result) : result :=
  mkResult (success r) (question r) (answer r) (timing r) (errors r ++ [e]).
Definition set_question (q : str) (r : result) : result :=
  mkResult (success r) q (answer r) (timing r) (errors r).
Definition set_answer (a : str) (r : result) : result :=
  mkResult (success r) (question r) a (timing r) (errors r).
Definition set_success (r : result) : result :=
  mkResult true (question r) (answer r) (timing r) (errors r).

(** The two [except] clauses that close [process_question_async]. *)
Definition on_exception (e : exn) (r : result) : result :=
  match e with
  | TimeoutError => add_error (lit "Request timed out") r
  | Exception msg => add_error (lit "Unexpected error: " ++ msg) r
  end.

Definition no_len_message : str :=
  lit "object of type 'NoneType' has no len()".

Section Pipeline.

Variable w : World.
(** [self.context]: [None] when neither a context nor a PDF was given. *)
Variable context : option str.

(** [self.gemma_client.ask_question_async(question, self.context, 30)];
    with no context, [len(context)] in [_build_prompt] raises before the
    retry loop is entered. *)
Definition ask (question : str) : M str :=
  match context with
  | Some c => GemmaClient.ask_question_async (service w) question c 30 false
  | None => raise (Exception no_len_message)
  end.

Definition process_question_async (audio_duration : Z)
  : state -> result * state :=
  fun s0 =>
  let r := fresh_result in
  match AudioProcessor.record_audio_async w audio_duration None s0 with
  | (Raise e, s1) => (on_exception e r, s1)
  | (Ret audio_file, s1) =>
    let r := add_timing "recording" r in
    match audio_file with
    | None | Some [] => (add_error (lit "Failed to record audio") r, s1)
    | Some file =>
      match AudioProcessor.transcribe_audio_async w file s1 with
      | (Raise e, s2) => (on_exception e r, s2)
      | (Ret q, s2) =>
        let r := set_question q (add_timing "transcription" r) in
        if negb (truthy q) || (length (strip q) <? 3)
        then (add_error (lit "No valid question transcribed") r, s2)
        else
          match ask q s2 with
          | (Raise e, s3) => (on_exception e r, s3)
          | (Ret a, s3) =>
            let r := set_answer a (add_timing "gemma" r) in
            if negb (truthy a)
            then (add_error (lit "No answer received from Gemma") r, s3)
            else
              match SpeechSynthesizer.speak_async w a 2 s3 with
              | (Raise e, s4) => (on_exception e r, s4)
              | (Ret _, s4) =>
                (add_timing "total" (set_success (add_timing "speech" r)), s4)
              end
          end
      end
    end
  end.

End Pipeline.

End EchoLearnAssistant.

(** * Observations on traces, closed forms and concrete worlds *)

Definition add_events (evs : list event) (s : state) : state :=
  mkState (fs s) (temp_files s) (tasks s) (trace s ++ evs).

(** The sentences handed to the stream callback, in order. *)
Fixpoint callbacks (t : list event) : list str :=
  match t with
  | [] => []
  | EvCallback c :: r => c :: callbacks r
  | _ :: r => callbacks r
  end.

(** The full model output of one stream. *)
Definition tokens_of (cs : list chunk) : str :=
  concat (map chunk_get_response cs).

(** A stream of two sentences, the second token opening with a space. *)
Definition two_sentences : nat -> str -> Z -> service_reply :=
  fun _ _ _ => mkReply [Some (lit "Hi."); Some (lit " Bye.")] None.

Definition long_context : str := repeat 97%N 4001.

Definition failure_message (e : exn) : str :=
  match e with
  | TimeoutError => GemmaClient.timeout_message
  | Exception msg => GemmaClient.error_message msg
  end.

(** The verdict of one pass: the value returned, if any, and the delay slept. *)
Definition pass_verdict (attempt : nat) (reply : service_reply)
  : option str * list event :=
  match ending reply with
  | None =>
      let a := strip (tokens_of (delivered reply)) in
      (if truthy a then Some a else None, [])
  | Some e =>
      if attempt <? GemmaClient.max_retries - 1
      then (None, [EvSleep GemmaClient.retry_delay])
      else (Some (failure_message e), [])
  end.

Definition wav_path : str := lit "/tmp/q.wav".
Definition mp3_path : str := lit "/tmp/a.mp3".

(** Everything but the language-model service works: the microphone records,
    the recognizer hears [heard], synthesis and playback succeed. *)
Definition studio (heard : str) (svc : nat -> str -> Z -> service_reply) : World :=
  mkWorld (lit "/tmp") (Ret wav_path) (fun _ => Ret mp3_path) None
          (fun _ => Ret [0%Z]) (fun _ => None)
          (fun _ => Ret (Result (Some heard))) (fun _ => None) (fun _ => None)
          (fun _ => 0%Z) svc.

Definition always_timeout : nat -> str -> Z -> service_reply :=
  fun _ _ _ => mkReply [] (Some TimeoutError).

Definition always_blank : nat -> str -> Z -> service_reply :=
  fun _ _ _ => mkReply [Some (lit " "); None] None.

Definition a_question : str := lit " What is light? ".
Definition a_context : str := lit "Light is a wave.".
Definition a_prompt : str :=
  GemmaClient._build_prompt (lit "What is light?") a_context.

Definition heard_result (q : str) : EchoLearnAssistant.result :=
  EchoLearnAssistant.set_question q
    (EchoLearnAssistant.add_timing "transcription"
       (EchoLearnAssistant.add_timing "recording" EchoLearnAssistant.fresh_result)).

Definition three_attempts_two_sleeps (prompt : str) : list event :=
  [EvGenerate prompt; EvSleep GemmaClient.retry_delay;
   EvGenerate prompt; EvSleep GemmaClient.retry_delay;
   EvGenerate prompt].

(** The states the concrete world reaches after recording and after
    transcription. *)
Definition recorded (w : World) : state :=
  snd (AudioProcessor.record_audio_async w 5 None (init_state [])).
Definition transcribed (w : World) : state :=
  snd (AudioProcessor.transcribe_audio_async w wav_path (recorded w)).

(** What the recognizer contributes to the returned text. *)
Definition heard_text (w : World) (audio_file : str) (present : bool) : str :=
  if present
  then match executor_fault w with
       | Some _ => []
       | None => match whisper w audio_file with
                 | Ret (Result (Some t)) => strip t
                 | _ => []
                 end
       end
  else [].

Definition remove_guard (w : World) (audio_file : str) (s : state) : bool :=
  existsb (str_eqb audio_file) (fs s) && startswith audio_file (gettempdir w).

Definition remove_succeeds (w : World) (audio_file : str) : bool :=
  match os_remove_fault w audio_file with None => true | Some _ => false end.

Fixpoint generate_calls (t : list event) : list str :=
  match t with
  | [] => []
  | EvGenerate p :: r => p :: generate_calls r
  | _ :: r => generate_calls r
  end.

(** The value of [speak_async], read off the world. *)
Definition speak_ok (w : World) (text : str) : bool :=
  truthy text && truthy (strip text)
  && match mp3_tempfile w text with
     | Raise _ => false
     | Ret path =>
         match synth_fault w text, executor_fault w with
         | None, None => truthy path && Z.eqb (afplay w path) 0
         | _, _ => false
         end
     end.

(** A world where the recognizer, the synthesis and the service all fail. *)
Definition refused : exn := Exception (lit "connection refused").

Definition broken : World :=
  mkWorld (lit "/tmp") (Ret wav_path) (fun _ => Ret mp3_path) None
          (fun _ => Ret [0%Z]) (fun _ => None)
          (fun _ => Raise refused) (fun _ => None) (fun _ => Some refused)
          (fun _ => 0%Z) (fun _ _ _ => mkReply [] (Some refused)).

(** The texts handed to the legacy speech threads, in order. *)
Fixpoint spoken_texts (t : list event) : list str :=
  match t with
  | [] => []
  | EvSpeakThread c :: r => c :: spoken_texts r
  | _ :: r => spoken_texts r
  end.

Definition yes_yes : list chunk := [Some (lit "Yes."); Some (lit " Yes.")].

(** One turn of the narration loop as a state change: dequeue with the 1.0s
    poll and, if the item is a non-blank chunk, speak it to completion before
    anything else happens. *)
Definition narrate_one (w : World) (s : state) (p : poll) : state :=
  let s1 := add_events [EvPoll 1] s in
  match p with
  | PollItem (Some text_chunk) =>
      if truthy (strip text_chunk)
      then snd (SpeechSynthesizer.speak_async w text_chunk 1 s1)
      else s1
  | _ => s1
  end.

(** The turns of a sequence of polls, one after the other. *)
Definition narrate_in_order (w : World) (polls : list poll) (s : state) : state :=
  fold_left (narrate_one w) polls s.

(** The chunks a sequence of polls delivers, in queue order. *)
Fixpoint queued_chunks (polls : list poll) : list str :=
  match polls with
  | [] => []
  | PollItem (Some c) :: r => c :: queued_chunks r
  | _ :: r => queued_chunks r
  end.

(** The texts sent to synthesis, in trace order. *)
Fixpoint synth_texts (t : list event) : list str :=
  match t with
  | [] => []
  | EvSynth text _ :: r => text :: synth_texts r
  | _ :: r => synth_texts r
  end.

Definition tempfile_ok (w : World) (text : str) : bool :=
  match mp3_tempfile w text with Ret _ => true | Raise _ => false end.

(** The events of one [speak_async], read off the world: the temp file and
    the synthesis, then the playback if synthesis and executor allow it, then
    the removal when no delay was asked for. *)
Definition speak_events (w : World) (text : str) (delay : Q) : list event :=
  if truthy text && truthy (strip text)
  then match mp3_tempfile w text with
       | Raise _ => []
       | Ret path =>
           [EvTempFile path; EvSynth text path]
           ++ match synth_fault w text with
              | Some _ => []
              | None =>
                  if truthy path
                  then match executor_fault w with
                       | None => [EvPlay path]
                       | Some _ => []
                       end
                       ++ (if SpeechSynthesizer.positive delay then []
                           else [EvRemove path])
                  else []
              end
       end
  else [].

(** The events of one turn of the loop. *)
Definition turn_events (w : World) (p : poll) : list event :=
  EvPoll 1
  :: match p with
     | PollItem (Some text_chunk) =>
         if truthy (strip text_chunk) then speak_events w text_chunk 1 else []
     | _ => []
     end.

Definition three_polls : list poll :=
  [PollItem (Some (lit "Hi.")); PollTimeout; PollItem (Some (lit "Bye."))].

(** A world whose microphone fails, and one where writing the recording
    fails. *)
Definition no_microphone : World :=
  mkWorld (lit "/tmp") (Ret wav_path) (fun _ => Ret mp3_path) None
          (fun _ => Raise refused) (fun _ => None)
          (fun _ => Ret NoResult) (fun _ => None) (fun _ => None)
          (fun _ => 0%Z) always_timeout.

Definition disk_full : World :=
  mkWorld (lit "/tmp") (Ret wav_path) (fun _ => Ret mp3_path) None
          (fun _ => Ret [0%Z]) (fun _ => Some refused)
          (fun _ => Ret NoResult) (fun _ => None) (fun _ => None)
          (fun _ => 0%Z) always_timeout.

(** ** Further observations on strings and traces *)

(** One of the three characters that end a sentence. *)
Definition is_terminator (c : N) : bool :=
  (c =? 46)%N || (c =? 33)%N || (c =? 63)%N.

(** The delays slept, in trace order. *)
Fixpoint sleeps (t : list event) : list Q :=
  match t with
  | [] => []
  | EvSleep d :: r => d :: sleeps r
  | _ :: r => sleeps r
  end.

(** The stream with the chunks that carry no text taken out. *)
Definition without_empty_chunks (cs : list chunk) : list chunk :=
  filter (fun c => truthy (chunk_get_response c)) cs.

(** A service that times out, then answers blank, then answers "Light.". *)
Definition third_time_lucky : nat -> str -> Z -> service_reply :=
  fun attempt _ _ =>
    match attempt with
    | 0 => mkReply [Some (lit "Li")] (Some TimeoutError)
    | 1 => mkReply [Some (lit "  ")] None
    | _ => mkReply [Some (lit "Light.")] None
    end.

(** A service cut after "Waves." on the first attempt, complete on the second. *)
Definition cut_then_complete : nat -> str -> Z -> service_reply :=
  fun attempt _ _ =>
    match attempt with
    | 0 => mkReply [Some (lit "Waves."); Some (lit " And")] (Some TimeoutError)
    | _ => mkReply [Some (lit "Waves."); Some (lit " And light.")] None
    end.

(** Two contexts over the budget that differ only behind it. *)
Definition long_context_a : str := repeat 97%N 4000 ++ lit "tail one".
Definition long_context_b : str := repeat 97%N 4000 ++ lit "another tail".

(** ** assistant/audio_optimized.py, the combined operation *)

Module AudioWrappers.

Section Wrappers.

Variable w : World.

Definition _record_and_transcribe_async (duration : Z) : M str :=
  audio_file <- AudioProcessor.record_audio_async w duration None ;;
  match audio_file with
  | None | Some [] => ret []
  | Some file => AudioProcessor.transcribe_audio_async w file
  end.

End Wrappers.

End AudioWrappers.

(** A world whose recognizer hears a padded sentence. *)
Definition padded_world : World :=
  studio (lit "   Is light a wave?  ") always_timeout.

(** ** assistant/speak_optimized.py, cleanup *)

Module SpeechCleanup.

(** [self._temp_files.copy()] *)
Definition temp_files_copy : M (list str) := fun s => (Ret (temp_files s), s).

Section Cleanup.

Variable w : World.

(** What the event loop does when it runs a task created by [speak_async]. *)
Definition run_task (t : task) : M unit :=
  match t with
  | CleanupTask path delay => SpeechSynthesizer._cleanup_temp_file w path delay
  end.

(** [asyncio.gather] over the cleanup coroutines, [return_exceptions=True]: with a delay of
    0 no cleanup coroutine suspends, so they run one after the other in list
    order. *)
Fixpoint gather_cleanup (paths : list str) : M unit :=
  match paths with
  | [] => ret tt
  | file_path :: rest =>
      try_except (SpeechSynthesizer._cleanup_temp_file w file_path 0)
                 (fun _ => ret tt) ;;;
      gather_cleanup rest
  end.

(** [SpeechSynthesizer.cleanup]; shutting the executor down has no effect on
    the state modelled. *)
Definition cleanup : M unit :=
  try_except
    (paths <- temp_files_copy ;;
     gather_cleanup paths)
    (fun _ => ret tt).

End Cleanup.

End SpeechCleanup.

(** A path that is none of the tracked ones. *)
Definition untracked (tracked : list str) (q : str) : bool :=
  negb (existsb (fun p => str_eqb p q) tracked).

(** A world where synthesis fails and everything else works. *)
Definition mute : World :=
  mkWorld (lit "/tmp") (Ret wav_path) (fun _ => Ret mp3_path) None
          (fun _ => Ret [0%Z]) (fun _ => None)
          (fun _ => Ret (Result (Some a_question))) (fun _ => None)
          (fun _ => Some refused)
          (fun _ => 0%Z) (fun _ _ _ => mkReply [Some (lit "Light is a wave.")] None).

(** The timing keys a failed interaction can carry. *)
Definition stage_keys : list string :=
  ["recording"; "transcription"; "gemma"]%string.

(** A world where the recognizer hears two letters. *)
Definition terse_world : World := studio (lit " No ") always_timeout.

(** ** assistant/pdf_optimized.py and assistant/pdf.py *)

(** [sep.join(parts)] *)
Fixpoint join (sep : str) (parts : list str) : str :=
  match parts with
  | [] => []
  | [x] => x
  | x :: rest => x ++ sep ++ join sep rest
  end.

(** A dict with string keys, in insertion order. *)
Definition dict := list (str * str).

(** [d.get(k)], [None] when the key is missing. *)
Fixpoint dict_get (d : dict) (k : str) : option str :=
  match d with
  | [] => None
  | (k', v) :: r => if str_eqb k k' then Some v else dict_get r k
  end.

(** [d[k] = v] *)
Fixpoint dict_set (d : dict) (k v : str) : dict :=
  match d with
  | [] => [(k, v)]
  | (k', v') :: r =>
      if str_eqb k k' then (k, v) :: r else (k', v') :: dict_set r k v
  end.

(** The file system and PyMuPDF as the PDF code sees them.  A document is the
    list of its pages, each giving its text or failing in [get_text]. *)
Record PdfWorld : Type := mkPdfWorld {
  resolve : str -> outcome str;               (* str(Path(p).resolve()) *)
  pdf_exists : str -> bool;                   (* Path(p).exists() *)
  pdf_executor_fault : option exn;            (* loop.run_in_executor refusing the job *)
  fitz_open : str -> outcome (list (outcome str));
  doc_close_fault : str -> option exn         (* doc.close() *)
}.

(** The processor: its cache, and the paths it has opened, in order. *)
Record pdf_state : Type := mkPdf {
  cache : dict;
  opened : list str
}.

Module PDFProcessor.

(** The message of the [RuntimeError] with which [asyncio.run] refuses to
    start inside a running event loop. *)
Definition running_loop_message : str :=
  lit "asyncio.run() cannot be called from a running event loop".

(** The body of the page loop: the texts of the pages that could be read and
    are not blank. *)
Fixpoint text_parts (pages : list (outcome str)) : list str :=
  match pages with
  | [] => []
  | Ret page_text :: rest =>
      if truthy (strip page_text) then page_text :: text_parts rest
      else text_parts rest
  | Raise _ :: rest => text_parts rest
  end.

Section Pdf.

Variable w : PdfWorld.

Definition _extract_text_sync (pdf_path : str) (st : pdf_state)
  : str * pdf_state :=
  let st := mkPdf (cache st) (opened st ++ [pdf_path]) in
  match fitz_open w pdf_path with
  | Raise _ => ([], st)
  | Ret doc =>
      match doc_close_fault w pdf_path with
      | Some _ => ([], st)
      | None => (join NL (text_parts doc), st)
      end
  end.

Definition extract_text_async (pdf_path : str) (st : pdf_state)
  : outcome str * pdf_state :=
  match resolve w pdf_path with
  | Raise e => (Raise e, st)
  | Ret pdf_path =>
      match dict_get (cache st) pdf_path with
      | Some text => (Ret text, st)
      | None =>
          if negb (pdf_exists w pdf_path) then (Ret [], st)
          else
            match pdf_executor_fault w with
            | Some _ => (Ret [], st)
            | None =>
                let (text, st) := _extract_text_sync pdf_path st in
                if truthy text
                then (Ret text,
                      mkPdf (dict_set (cache st) pdf_path text) (opened st))
                else (Ret [], st)
            end
      end
  end.

(** [extract_text]: [asyncio.run] of the coroutine.  Called where an event
    loop is already running, [asyncio.run] raises [RuntimeError] and the
    coroutine never starts; otherwise it runs the coroutine to its end. *)
Definition extract_text (loop_running : bool) (pdf_path : str) (st : pdf_state)
  : outcome str * pdf_state :=
  if loop_running then (Raise (Exception running_loop_message), st)
  else extract_text_async pdf_path st.

Definition clear_cache (st : pdf_state) : pdf_state := mkPdf [] (opened st).

End Pdf.

(** [extract_text_from_pdf] of pdf_optimized.py: a new processor per call. *)
Definition extract_text_from_pdf (w : PdfWorld) (loop_running : bool)
  (pdf_path : str) : outcome str * pdf_state :=
  extract_text w loop_running pdf_path (mkPdf [] []).

End PDFProcessor.

Module LegacyPdf.

(** The generator inside [join]: every page in order, the first failing
    [get_text] ending the iteration with its exception. *)
Fixpoint page_texts (pages : list (outcome str)) : outcome (list str) :=
  match pages with
  | [] => Ret []
  | Raise e :: _ => Raise e
  | Ret t :: rest =>
      match page_texts rest with
      | Ret ts => Ret (t :: ts)
      | Raise e => Raise e
      end
  end.

(** [extract_text_from_pdf] of pdf.py, on what [fitz.open] gives. *)
Definition extract_text_from_pdf (doc : outcome (list (outcome str))) : str :=
  match doc with
  | Raise _ => []
  | Ret pages =>
      match page_texts pages with
      | Ret ts => join NL ts
      | Raise _ => []
      end
  end.

End LegacyPdf.

(** ** main_optimized.py, the context of the assistant *)

Module Startup.

Definition pdf_file : str := lit "CMSC320_ Notes.pdf".

Section Start.

Variable w : PdfWorld.

(** [EchoLearnAssistant.__init__], as far as [self.context] goes.
    [loop_running] says whether the constructor is called where an event loop
    is running, as it is from a coroutine. *)
Definition init_context (loop_running : bool) (pdf_path context : option str)
  (st : pdf_state) : outcome (option str) * pdf_state :=
  let context_is_falsy :=
    match context with None => true | Some c => negb (truthy c) end in
  let pdf_path_is_truthy :=
    match pdf_path with None => false | Some p => truthy p end in
  if context_is_falsy && pdf_path_is_truthy
  then match pdf_path with
       | Some p =>
           match PDFProcessor.extract_text w loop_running p st with
           | (Ret text, st') => (Ret (Some text), st')
           | (Raise e, st') => (Raise e, st')
           end
       | None => (Ret context, st)
       end
  else (Ret context, st).

(** The assistant [main] builds: [EchoLearnAssistant()] when the PDF is
    missing, [EchoLearnAssistant(pdf_path=pdf_file)] otherwise.  [main] is a
    coroutine, started by [asyncio.run(main())]: its event loop is running
    when the constructor is called. *)
Definition main_context (st : pdf_state) : outcome (option str) * pdf_state :=
  if negb (pdf_exists w pdf_file)
  then init_context true None None st
  else init_context true (Some pdf_file) None st.

(** How the [try] block of [main] ends: the interactive session is entered
    with the assistant's context, or the constructor raised, the [except]
    branch logs "Failed to start assistant" and no session takes place. *)
Inductive started : Type :=
  | Session (context : option str)
  | FailedToStart (e : exn).

Definition main (st : pdf_state) : started * pdf_state :=
  match main_context st with
  | (Ret context, st') => (Session context, st')
  | (Raise e, st') => (FailedToStart e, st')
  end.

End Start.

End Startup.

(** A two-page document between a blank page and a page that cannot be read. *)
Definition sample_doc : list (outcome str) :=
  [Ret (lit "Light is a wave."); Ret (lit "  "); Raise refused;
   Ret (lit "It is also a particle.")].

Definition notes_path : str := lit "/home/me/notes.pdf".

Definition library : PdfWorld :=
  mkPdfWorld (fun _ => Ret notes_path) (fun _ => true) None
             (fun _ => Ret sample_doc) (fun _ => None).

(** The same place after the file was deleted. *)
Definition library_emptied : PdfWorld :=
  mkPdfWorld (fun _ => Ret notes_path) (fun _ => false) None
             (fun _ => Raise refused) (fun _ => None).

(** What the playback of a file reports and records: nothing is played when
    the executor refuses the job. *)
Definition played (w : World) (path : str) : bool * list event :=
  match executor_fault w with
  | None => (Z.eqb (afplay w path) 0, [EvPlay path])
  | Some _ => (false, [])
  end.

(** A cache none of whose texts is empty. *)
Definition values_nonempty (d : dict) : Prop :=
  Forall (fun kv => snd kv <> []) d.

(** ** extract_from_pdf.py, [EchoLearnAssistant.ask_gemma] *)

Module Monolith.

Definition prompt_head : str := Legacy.prompt_head.
Definition prompt_mid : str := Legacy.prompt_mid.
Definition prompt_tail : str := Legacy.prompt_tail.

(** [len(buffer) > 30 or any(p in buffer for p in [".", "!", "?"])] *)
Definition ready_to_speak (buffer : str) : bool :=
  (30 <? length buffer) || has_terminator buffer.

Fixpoint consume (cs : list chunk) (buffer spoken : str) : M str :=
  match cs with
  | [] => ret spoken
  | c :: rest =>
      let token := chunk_get_response c in
      let buffer := buffer ++ token in
      if ready_to_speak buffer then
        let new_chunk := replace (strip buffer) spoken [] in
        let spoken := spoken ++ new_chunk in
        emit (EvSpeakThread new_chunk) ;;;
        consume rest [] spoken
      else consume rest buffer spoken
  end.

Definition ask_gemma (service : str -> service_reply) (context question : str)
  : M str :=
  let prompt := prompt_head ++ context ++ prompt_mid ++ question ++ prompt_tail in
  try_except
    (emit (EvGenerate prompt) ;;;
     let reply := service prompt in
     spoken <- consume (delivered reply) [] [] ;;
     match ending reply with
     | Some e => raise e
     | None => ret spoken
     end)
    (fun _ => ret []).

End Monolith.

(** ** assistant/gemma_optimized.py, the compatibility function *)

Module GemmaCompat.

(** [ask_gemma] of gemma_optimized.py: one [ask_question_async] with the
    default timeout and no callback, run to completion on a new loop. *)
Definition ask_gemma (service : nat -> str -> Z -> service_reply)
    (question context : str) : M str :=
  GemmaClient.ask_question_async service question context 30 false.

End GemmaCompat.

(** A stream of six short tokens without any terminator. *)
Definition rambling : list chunk :=
  [Some (lit "Light travels"); Some (lit " in straight lines"); Some (lit " and");
   Some (lit " bends"); Some (lit " in"); Some (lit " water")].

(** What the string-replace tracking makes of a sequence of flushed buffers:
    the texts handed to the speech threads and the final [spoken]. *)
Fixpoint speak_segments (segs : list str) (spoken : str) : list str * str :=
  match segs with
  | [] => ([], spoken)
  | g :: r =>
      let new_chunk := replace (strip g) spoken [] in
      let (texts, final) := speak_segments r (spoken ++ new_chunk) in
      (new_chunk :: texts, final)
  end.

(** A call to the service or a sleep between two of them. *)
Definition service_event (e : event) : bool :=
  match e with
  | EvGenerate _ | EvSleep _ => true
  | _ => false
  end.

(** * Properties *)

(** ** Reading traces and states *)

Lemma add_events_nil : forall s, add_events [] s = s.
Proof.
  intros [f t k tr]. unfold add_events. simpl. now rewrite app_nil_r.
Qed.

Lemma add_events_app : forall a b s,
  add_events b (add_events a s) = add_events (a ++ b) s.
Proof.
  intros a b s. unfold add_events. simpl. now rewrite app_assoc.
Qed.

Lemma emit_run : forall e s, emit e s = (Ret tt, add_events [e] s).
Proof. reflexivity. Qed.

Lemma bind_run : forall A B (m : M A) (k : A -> M B) s a s',
  m s = (Ret a, s') -> bind m k s = k a s'.
Proof. intros A B m k s a s' H. unfold bind. now rewrite H. Qed.

Lemma bind_raise : forall A B (m : M A) (k : A -> M B) s e s',
  m s = (Raise e, s') -> bind m k s = (Raise e, s').
Proof. intros A B m k s e s' H. unfold bind. now rewrite H. Qed.

Lemma wait_for_positive : forall A (coro : M A) timeout,
  (0 < timeout)%Z -> GemmaClient.wait_for coro timeout = coro.
Proof.
  intros A coro timeout H. unfold GemmaClient.wait_for.
  destruct (Z.leb_spec timeout 0); [lia | reflexivity].
Qed.

Lemma wait_for_expired : forall A (coro : M A) timeout,
  (timeout <= 0)%Z -> GemmaClient.wait_for coro timeout = raise TimeoutError.
Proof.
  intros A coro timeout H. unfold GemmaClient.wait_for.
  destruct (Z.leb_spec timeout 0); [reflexivity | lia].
Qed.

(** ** Whitespace *)

Lemma squeeze_app : forall a b, squeeze (a ++ b) = squeeze a ++ squeeze b.
Proof. intros a b. unfold squeeze. apply filter_app. Qed.

Lemma squeeze_lstrip : forall s, squeeze (lstrip s) = squeeze s.
Proof.
  induction s as [|c r IH]; simpl; [reflexivity|].
  destruct (isspace c) eqn:E; simpl; rewrite ?E; simpl; [exact IH | reflexivity].
Qed.

Lemma squeeze_rstrip : forall s, squeeze (rstrip s) = squeeze s.
Proof.
  intros s. unfold rstrip.
  assert (R : forall l, squeeze (rev l) = rev (squeeze l))
    by (intros l; unfold squeeze; apply filter_rev).
  now rewrite R, squeeze_lstrip, R, rev_involutive.
Qed.

Lemma squeeze_strip : forall s, squeeze (strip s) = squeeze s.
Proof. intros s. unfold strip. now rewrite squeeze_rstrip, squeeze_lstrip. Qed.

Lemma squeeze_chunks : forall segs,
  squeeze (concat (filter truthy (map strip segs))) = squeeze (concat segs).
Proof.
  induction segs as [|g segs IH]; [reflexivity|].
  cbn [map filter concat]. rewrite squeeze_app, <- IH, <- (squeeze_strip g).
  destruct (strip g) as [|c r] eqn:E; cbn [truthy concat]; [reflexivity|].
  apply squeeze_app.
Qed.

(** ** The sentence stream of [_generate_response] *)

Lemma flush_events : forall (sentence : str) s,
  (if truthy sentence then emit (EvCallback sentence) else ret tt) s
  = (Ret tt, add_events (map EvCallback (filter truthy [sentence])) s).
Proof.
  intros sentence s. simpl. destruct (truthy sentence); simpl.
  - apply emit_run.
  - now rewrite add_events_nil.
Qed.

(** With a callback, the loop cuts what it reads into contiguous segments and
    hands over each segment stripped, blank ones left out; what is left in the
    buffer is the unflushed suffix. *)
Lemma consume_segments : forall cs full buffer s,
  exists segs rest,
    GemmaClient.consume true cs full buffer s
    = (Ret (full ++ tokens_of cs, rest),
       add_events (map EvCallback (filter truthy (map strip segs))) s)
    /\ buffer ++ tokens_of cs = concat segs ++ rest.
Proof.
  induction cs as [|c cs IH]; intros full buffer s.
  - exists [], buffer. simpl. unfold tokens_of, ret. simpl.
    now rewrite !app_nil_r, add_events_nil.
  - simpl. unfold tokens_of. simpl. fold (tokens_of cs).
    destruct (chunk_get_response c) as [|t0 tk] eqn:T; simpl.
    + apply IH.
    + destruct (has_terminator (buffer ++ t0 :: tk)) eqn:H.
      * destruct (IH ((full ++ t0 :: tk)) [] (add_events
          (map EvCallback (filter truthy [strip (buffer ++ t0 :: tk)])) s))
          as (segs & rest & E & P).
        exists ((buffer ++ t0 :: tk) :: segs), rest. split.
        -- erewrite bind_run by apply flush_events.
           rewrite E, add_events_app, <- app_assoc. simpl.
           repeat f_equal.
           destruct (truthy (strip (buffer ++ t0 :: tk))); reflexivity.
        -- simpl in P. simpl. rewrite <- !app_assoc. simpl. now rewrite P.
      * destruct (IH (full ++ t0 :: tk) (buffer ++ t0 :: tk) s)
          as (segs & rest & E & P).
        exists segs, rest. split.
        -- rewrite E, <- app_assoc. reflexivity.
        -- rewrite <- P, <- app_assoc. reflexivity.
Qed.

(** ** C1: the chunks of one stream against the answer *)

(** C1, as stated, fails: on the tokens ["Hi."], [" Bye."] the callback
    receives "Hi." and "Bye.", whose concatenation "Hi.Bye." is not the
    generated answer "Hi. Bye." (each chunk is stripped before it is handed
    over, so the space between the sentences is missing). *)
Lemma C1_counterexample :
  let run := GemmaClient._generate_response two_sentences 0 [] 30 true
               (init_state []) in
  fst run = Ret (lit "Hi. Bye.")
  /\ callbacks (trace (snd run)) = [lit "Hi."; lit "Bye."]
  /\ concat (callbacks (trace (snd run))) <> lit "Hi. Bye.".
Proof.
  vm_compute. repeat split; discriminate.
Qed.

(** A stream consumed to its end, with a callback. *)
Lemma generate_complete :
  forall (service : nat -> str -> Z -> service_reply) attempt prompt timeout s,
    ending (service attempt prompt timeout) = None ->
    exists segs,
      let full := tokens_of (delivered (service attempt prompt timeout)) in
      let chunks := filter truthy (map strip segs) in
      concat segs = full
      /\ GemmaClient._generate_response service attempt prompt timeout true s
         = (Ret (strip full),
            add_events (EvGenerate prompt :: map EvCallback chunks) s)
      /\ squeeze (concat chunks) = squeeze (strip full).
Proof.
  intros service attempt prompt timeout s End.
  destruct (consume_segments (delivered (service attempt prompt timeout))
              [] [] (add_events [EvGenerate prompt] s))
    as (segs & rest & E & P).
  exists (segs ++ [rest]). cbv zeta. simpl in P. split; [|split].
  - rewrite concat_app. simpl. now rewrite app_nil_r.
  - unfold GemmaClient._generate_response.
    erewrite bind_run by apply emit_run.
    erewrite bind_run by exact E.
    rewrite End. cbn [fst snd andb].
    erewrite bind_run by apply flush_events.
    unfold ret. rewrite !add_events_app.
    rewrite map_app, filter_app, map_app. reflexivity.
  - rewrite squeeze_chunks, squeeze_strip, concat_app. simpl.
    now rewrite app_nil_r, P.
Qed.

(** C1, amended: when a stream is consumed to its end with a callback, the
    run cuts the full model output into contiguous segments (their
    concatenation is the output, so no character is read twice or skipped and
    a flushed segment never comes back), the callback receives exactly the
    non-blank segments, each stripped, in order, and the run returns the
    stripped output; hence the chunks concatenated and the answer agree once
    whitespace is deleted.  An [ask_question_async] with a positive timeout
    whose first attempt completes with a non-blank answer is exactly that one
    run. *)
Theorem C1_chunks_partition_output :
  forall (service : nat -> str -> Z -> service_reply),
    (forall attempt prompt timeout s,
       ending (service attempt prompt timeout) = None ->
       exists segs,
         let full := tokens_of (delivered (service attempt prompt timeout)) in
         let chunks := filter truthy (map strip segs) in
         concat segs = full
         /\ GemmaClient._generate_response service attempt prompt timeout true s
            = (Ret (strip full),
               add_events (EvGenerate prompt :: map EvCallback chunks) s)
         /\ squeeze (concat chunks) = squeeze (strip full))
    /\
    (forall question context timeout s,
       let prompt := GemmaClient._build_prompt question context in
       let full := tokens_of (delivered (service 0 prompt timeout)) in
       (0 < timeout)%Z ->
       ending (service 0 prompt timeout) = None ->
       strip full <> [] ->
       exists segs,
         let chunks := filter truthy (map strip segs) in
         concat segs = full
         /\ GemmaClient.ask_question_async service question context timeout true s
            = (Ret (strip full),
               add_events (EvGenerate prompt :: map EvCallback chunks) s)
         /\ squeeze (concat chunks) = squeeze (strip full)).
Proof.
  intros service. split.
  - intros attempt prompt timeout s End.
    exact (generate_complete service attempt prompt timeout s End).
  - intros question context timeout s prompt full Pos End NonBlank.
    destruct (generate_complete service 0 prompt timeout s End)
      as (segs & Cut & Run & Sq).
    cbv zeta in Cut, Run, Sq. fold full in Cut, Run, Sq.
    exists segs. cbv zeta. split; [exact Cut | split; [|exact Sq]].
    unfold GemmaClient.ask_question_async. fold prompt.
    cbn [GemmaClient.retry_loop GemmaClient.max_retries].
    assert (Once : GemmaClient.attempt_once service 0 prompt timeout true s
                   = (Ret (Some (strip full)),
                      add_events (EvGenerate prompt
                                  :: map EvCallback (filter truthy (map strip segs)))
                        s)).
    { unfold GemmaClient.attempt_once, try_except.
      rewrite (wait_for_positive _ Pos).
      erewrite bind_run by exact Run.
      destruct (strip full); [contradiction | reflexivity]. }
    erewrite bind_run by exact Once. reflexivity.
Qed.

Lemma C1_chunks_partition_output_witness :
  (exists segs,
     concat segs = lit "Hi. Bye."
     /\ GemmaClient._generate_response two_sentences 0 [] 30 true (init_state [])
        = (Ret (strip (lit "Hi. Bye.")),
           add_events
             (EvGenerate [] :: map EvCallback (filter truthy (map strip segs)))
             (init_state []))
     /\ squeeze (concat (filter truthy (map strip segs)))
        = squeeze (strip (lit "Hi. Bye.")))
  /\
  (exists segs,
     concat segs = lit "Hi. Bye."
     /\ GemmaClient.ask_question_async two_sentences (lit "What is light?")
          a_context 30 true (init_state [])
        = (Ret (strip (lit "Hi. Bye.")),
           add_events
             (EvGenerate a_prompt
              :: map EvCallback (filter truthy (map strip segs)))
             (init_state []))
     /\ squeeze (concat (filter truthy (map strip segs)))
        = squeeze (strip (lit "Hi. Bye."))).
Proof.
  split.
  - exact (proj1 (C1_chunks_partition_output two_sentences)
             0 [] 30%Z (init_state []) eq_refl).
  - apply (proj2 (C1_chunks_partition_output two_sentences)
             (lit "What is light?") a_context 30%Z (init_state [])).
    + lia.
    + reflexivity.
    + vm_compute. discriminate.
Defined.

(** ** C3: the context budget of the prompt *)

(** C3: a context of more than 4000 characters enters the prompt as its
    first 4000 characters followed by the marker "..."; a context of at most
    4000 characters enters unchanged. *)
Theorem C3_build_prompt_context_budget : forall question context,
  (4000 < length context ->
     GemmaClient._build_prompt question context
     = GemmaClient.prompt_head ++ (firstn 4000 context ++ lit "...")
       ++ GemmaClient.prompt_mid ++ question ++ GemmaClient.prompt_tail
     /\ length (firstn 4000 context) = 4000)
  /\ (length context <= 4000 ->
     GemmaClient._build_prompt question context
     = GemmaClient.prompt_head ++ context
       ++ GemmaClient.prompt_mid ++ question ++ GemmaClient.prompt_tail).
Proof.
  intros question context. unfold GemmaClient._build_prompt.
  unfold GemmaClient.max_context_length.
  destruct (Nat.ltb_spec 4000 (length context)) as [Long|Short]; split; intros H.
  - split; [reflexivity|]. apply firstn_length_le. lia.
  - lia.
  - lia.
  - reflexivity.
Qed.

Lemma C3_build_prompt_context_budget_witness :
  (GemmaClient._build_prompt (lit "Why?") long_context
   = GemmaClient.prompt_head ++ (firstn 4000 long_context ++ lit "...")
     ++ GemmaClient.prompt_mid ++ lit "Why?" ++ GemmaClient.prompt_tail
   /\ length (firstn 4000 long_context) = 4000)
  /\ GemmaClient._build_prompt (lit "Why?") (lit "Light.")
     = GemmaClient.prompt_head ++ lit "Light."
       ++ GemmaClient.prompt_mid ++ lit "Why?" ++ GemmaClient.prompt_tail.
Proof.
  split.
  - apply (proj1 (C3_build_prompt_context_budget (lit "Why?") long_context)).
    unfold long_context. rewrite repeat_length. lia.
  - apply (proj2 (C3_build_prompt_context_budget (lit "Why?") (lit "Light."))).
    simpl. lia.
Defined.

(** ** One attempt of the retry loop *)

Lemma squeeze_nil_lstrip : forall s, squeeze s = [] -> lstrip s = [].
Proof.
  induction s as [|c r IH]; simpl; [reflexivity|].
  destruct (isspace c); simpl; [exact IH | discriminate].
Qed.

Lemma squeeze_nil_strip : forall s, squeeze s = [] -> strip s = [].
Proof.
  intros s H. unfold strip. now rewrite (squeeze_nil_lstrip s H).
Qed.

(** Chunks that squeeze to nothing: there are none. *)
Lemma blank_output_no_chunks : forall segs,
  squeeze (concat segs) = [] -> filter truthy (map strip segs) = [].
Proof.
  induction segs as [|g segs IH]; intros H; [reflexivity|].
  simpl in H. rewrite squeeze_app in H. apply app_eq_nil in H as [Hg Hs].
  cbn [map filter]. rewrite (squeeze_nil_strip g Hg). cbn [truthy]. now apply IH.
Qed.

Lemma consume_no_callback : forall cs full buffer s,
  GemmaClient.consume false cs full buffer s
  = (Ret (full ++ tokens_of cs, buffer ++ tokens_of cs), s).
Proof.
  induction cs as [|c cs IH]; intros full buffer s.
  - unfold tokens_of. simpl. now rewrite !app_nil_r.
  - simpl. unfold tokens_of. simpl. fold (tokens_of cs).
    destruct (chunk_get_response c) as [|t0 tk]; simpl.
    + apply IH.
    + rewrite IH, <- !app_assoc. reflexivity.
Qed.

(** What one call of [_generate_response] returns and records, for any
    service: the stream's own ending decides the result; the only events are
    the call itself and the callbacks. *)
Lemma generate_run :
  forall (service : nat -> str -> Z -> service_reply) attempt prompt timeout cb s,
    let reply := service attempt prompt timeout in
    exists chunks,
      GemmaClient._generate_response service attempt prompt timeout cb s
      = (match ending reply with
         | Some e => Raise e
         | None => Ret (strip (tokens_of (delivered reply)))
         end,
         add_events (EvGenerate prompt :: map EvCallback chunks) s)
      /\ (cb = false -> chunks = [])
      /\ (ending reply = None ->
          strip (tokens_of (delivered reply)) = [] -> chunks = []).
Proof.
  intros service attempt prompt timeout cb s reply.
  unfold GemmaClient._generate_response. fold reply.
  erewrite bind_run by apply emit_run.
  destruct cb.
  - destruct (consume_segments (delivered reply) [] []
                (add_events [EvGenerate prompt] s)) as (segs & rest & E & P).
    simpl in P.
    destruct (ending reply) as [e|] eqn:End.
    + exists (filter truthy (map strip segs)). split; [|split]; try discriminate.
      erewrite bind_run by exact E. unfold raise. now rewrite add_events_app.
    + exists (filter truthy (map strip (segs ++ [rest]))). split; [|split];
        try discriminate.
      * erewrite bind_run by exact E. cbn [fst snd andb].
        erewrite bind_run by apply flush_events.
        unfold ret. rewrite !add_events_app.
        rewrite map_app, filter_app, map_app. reflexivity.
      * intros _ Blank. apply blank_output_no_chunks.
        rewrite concat_app. simpl. rewrite app_nil_r, <- P.
        rewrite <- squeeze_strip, Blank. reflexivity.
  - exists []. split; [|split]; try reflexivity.
    erewrite bind_run by apply consume_no_callback.
    destruct (ending reply); cbn [fst snd andb]; unfold raise.
    + reflexivity.
    + erewrite bind_run by reflexivity. reflexivity.
Qed.

Lemma attempt_once_run :
  forall (service : nat -> str -> Z -> service_reply) attempt prompt timeout cb s,
    (0 < timeout)%Z ->
    let reply := service attempt prompt timeout in
    exists chunks,
      GemmaClient.attempt_once service attempt prompt timeout cb s
      = (Ret (fst (pass_verdict attempt reply)),
         add_events (EvGenerate prompt :: map EvCallback chunks
                     ++ snd (pass_verdict attempt reply)) s)
      /\ (cb = false -> chunks = [])
      /\ (ending reply = None ->
          strip (tokens_of (delivered reply)) = [] -> chunks = []).
Proof.
  intros service attempt prompt timeout cb s Pos reply.
  destruct (generate_run service attempt prompt timeout cb s)
    as (chunks & E & Hcb & Hblank).
  fold reply in E, Hblank. exists chunks. split; [|split]; trivial.
  unfold GemmaClient.attempt_once, try_except, pass_verdict.
  rewrite (wait_for_positive _ Pos).
  destruct (ending reply) as [e|].
  - erewrite bind_raise by exact E.
    destruct e; destruct (attempt <? GemmaClient.max_retries - 1); simpl;
      unfold bind, emit, ret, add_events; simpl;
      rewrite <- ?app_assoc, ?app_nil_r; reflexivity.
  - erewrite bind_run by exact E. cbn [fst snd]. rewrite app_nil_r.
    destruct (truthy (strip (tokens_of (delivered reply)))); reflexivity.
Qed.

(** A pass whose timeout is 0 or less: the service is not called; the pass
    sleeps and goes on, or, if it is the last, returns the apology. *)
Lemma attempt_once_expired :
  forall (service : nat -> str -> Z -> service_reply) attempt prompt timeout cb s,
    (timeout <= 0)%Z ->
    GemmaClient.attempt_once service attempt prompt timeout cb s
    = (Ret (if attempt <? GemmaClient.max_retries - 1
            then None else Some GemmaClient.timeout_message),
       add_events (if attempt <? GemmaClient.max_retries - 1
                   then [EvSleep GemmaClient.retry_delay] else []) s).
Proof.
  intros service attempt prompt timeout cb s Exp.
  unfold GemmaClient.attempt_once, try_except.
  rewrite (wait_for_expired _ Exp). unfold bind, raise.
  destruct (attempt <? GemmaClient.max_retries - 1).
  - reflexivity.
  - unfold ret. now rewrite add_events_nil.
Qed.

(** ** The retry loop as a whole *)

Lemma retry_loop_returns :
  forall (service : nat -> str -> Z -> service_reply) remaining attempt prompt
         timeout cb s,
    exists a s',
      GemmaClient.retry_loop service remaining attempt prompt timeout cb s
      = (Ret a, s').
Proof.
  intros service. induction remaining as [|n IH]; intros attempt prompt timeout cb s.
  - now exists [], s.
  - destruct (Z.leb_spec timeout 0) as [Exp|Pos].
    + simpl. erewrite bind_run by (apply attempt_once_expired; exact Exp).
      destruct (attempt <? GemmaClient.max_retries - 1).
      * apply IH.
      * eexists _, _. reflexivity.
    + destruct (attempt_once_run service attempt prompt cb s Pos)
        as (chunks & E & _).
      simpl. erewrite bind_run by exact E.
      destruct (fst (pass_verdict attempt (service attempt prompt timeout))).
      * eexists _, _. reflexivity.
      * apply IH.
Qed.

(** With a timeout of 0 or less [ask_question_async] never calls the service:
    it sleeps after the first and the second pass and returns the apology. *)
Lemma ask_expired :
  forall (service : nat -> str -> Z -> service_reply) question context timeout cb s,
    (timeout <= 0)%Z ->
    GemmaClient.ask_question_async service question context timeout cb s
    = (Ret GemmaClient.timeout_message,
       add_events [EvSleep GemmaClient.retry_delay;
                   EvSleep GemmaClient.retry_delay] s).
Proof.
  intros service question context timeout cb s Exp.
  unfold GemmaClient.ask_question_async.
  cbn [GemmaClient.retry_loop GemmaClient.max_retries].
  do 3 (erewrite bind_run by (apply attempt_once_expired; exact Exp);
        cbn [Nat.ltb Nat.leb Nat.sub GemmaClient.max_retries]; cbv beta iota).
  unfold ret. rewrite !add_events_app. reflexivity.
Qed.

(** Every attempt fails: three calls, a sleep of [retry_delay] after the
    first and after the second, then the message of the last failure as a
    value. *)
Lemma ask_all_failures :
  forall (service : nat -> str -> Z -> service_reply) question context timeout cb s
         (err : nat -> exn),
    let prompt := GemmaClient._build_prompt question context in
    (0 < timeout)%Z ->
    (forall a, a < GemmaClient.max_retries ->
       ending (service a prompt timeout) = Some (err a)) ->
    exists c0 c1 c2,
      GemmaClient.ask_question_async service question context timeout cb s
      = (Ret (failure_message (err 2)),
         add_events
           (EvGenerate prompt :: map EvCallback c0
            ++ EvSleep GemmaClient.retry_delay
            :: EvGenerate prompt :: map EvCallback c1
            ++ EvSleep GemmaClient.retry_delay
            :: EvGenerate prompt :: map EvCallback c2) s)
      /\ (cb = false -> c0 = [] /\ c1 = [] /\ c2 = []).
Proof.
  intros service question context timeout cb s err prompt Pos H.
  unfold GemmaClient.ask_question_async. fold prompt.
  assert (Step : forall a st, a < GemmaClient.max_retries -> exists c,
            GemmaClient.attempt_once service a prompt timeout cb st
            = (Ret (if a <? 2 then None else Some (failure_message (err a))),
               add_events (EvGenerate prompt :: map EvCallback c
                           ++ if a <? 2 then [EvSleep GemmaClient.retry_delay]
                              else []) st)
            /\ (cb = false -> c = [])).
  { intros a st La.
    destruct (attempt_once_run service a prompt cb st Pos) as (c & E & N & _).
    exists c. split; [|exact N]. rewrite E. unfold pass_verdict.
    rewrite (H a La). change (GemmaClient.max_retries - 1) with 2.
    destruct (a <? 2); reflexivity. }
  destruct (Step 0 s) as (c0 & E0 & N0); [unfold GemmaClient.max_retries; lia|].
  destruct (Step 1 (add_events (EvGenerate prompt :: map EvCallback c0
                       ++ [EvSleep GemmaClient.retry_delay]) s))
    as (c1 & E1 & N1); [unfold GemmaClient.max_retries; lia|].
  destruct (Step 2 (add_events (EvGenerate prompt :: map EvCallback c1
                       ++ [EvSleep GemmaClient.retry_delay])
                     (add_events (EvGenerate prompt :: map EvCallback c0
                       ++ [EvSleep GemmaClient.retry_delay]) s)))
    as (c2 & E2 & N2); [unfold GemmaClient.max_retries; lia|].
  cbn [Nat.ltb Nat.leb] in E0, E1, E2.
  exists c0, c1, c2. split.
  - cbn [GemmaClient.retry_loop GemmaClient.max_retries].
    erewrite bind_run by exact E0. cbv beta iota.
    erewrite bind_run by exact E1. cbv beta iota.
    erewrite bind_run by exact E2. cbv beta iota.
    unfold ret. rewrite !add_events_app, app_nil_r.
    repeat (rewrite <- ?app_assoc; cbn [app]). reflexivity.
  - intros C. repeat split; auto.
Qed.

(** Every attempt hits the deadline. *)
Lemma ask_all_timeouts :
  forall (service : nat -> str -> Z -> service_reply) question context timeout cb s,
    let prompt := GemmaClient._build_prompt question context in
    (0 < timeout)%Z ->
    (forall a, a < GemmaClient.max_retries ->
       ending (service a prompt timeout) = Some TimeoutError) ->
    exists c0 c1 c2,
      GemmaClient.ask_question_async service question context timeout cb s
      = (Ret GemmaClient.timeout_message,
         add_events
           (EvGenerate prompt :: map EvCallback c0
            ++ EvSleep GemmaClient.retry_delay
            :: EvGenerate prompt :: map EvCallback c1
            ++ EvSleep GemmaClient.retry_delay
            :: EvGenerate prompt :: map EvCallback c2) s)
      /\ (cb = false -> c0 = [] /\ c1 = [] /\ c2 = []).
Proof.
  intros service question context timeout cb s prompt Pos H.
  exact (ask_all_failures service question context cb s
           (fun _ => TimeoutError) Pos H).
Qed.

(** Every attempt completes with a blank response: three calls back to back,
    no sleep, no callback, and the empty string. *)
Lemma ask_all_blank :
  forall (service : nat -> str -> Z -> service_reply) question context timeout cb s,
    let prompt := GemmaClient._build_prompt question context in
    (0 < timeout)%Z ->
    (forall a, a < GemmaClient.max_retries ->
       ending (service a prompt timeout) = None
       /\ strip (tokens_of (delivered (service a prompt timeout))) = []) ->
    GemmaClient.ask_question_async service question context timeout cb s
    = (Ret [], add_events [EvGenerate prompt; EvGenerate prompt; EvGenerate prompt] s).
Proof.
  intros service question context timeout cb s prompt Pos H.
  unfold GemmaClient.ask_question_async. fold prompt.
  assert (Step : forall a st, a < GemmaClient.max_retries ->
            GemmaClient.attempt_once service a prompt timeout cb st
            = (Ret None, add_events [EvGenerate prompt] st)).
  { intros a st La. destruct (H a La) as [End Blank].
    destruct (attempt_once_run service a prompt cb st Pos) as (c & E & _ & B).
    rewrite (B End Blank) in E. unfold pass_verdict in E.
    rewrite End, Blank in E. exact E. }
  cbn [GemmaClient.retry_loop GemmaClient.max_retries].
  do 3 (erewrite bind_run by (apply Step; unfold GemmaClient.max_retries; lia);
        cbv beta iota).
  unfold ret. now rewrite !add_events_app.
Qed.

(** ** Total operations *)

Lemma try_except_returns : forall A (m : M A) (d : A) s,
  exists a s', try_except m (fun _ => ret d) s = (Ret a, s').
Proof.
  intros A m d s. unfold try_except.
  destruct (m s) as [[a|e] s']; eexists _, _; reflexivity.
Qed.

Lemma speak_async_returns : forall w text delay s,
  exists ok s', SpeechSynthesizer.speak_async w text delay s = (Ret ok, s').
Proof.
  intros w text delay s. unfold SpeechSynthesizer.speak_async.
  destruct (negb (truthy text) || negb (truthy (strip text))).
  - now exists false, s.
  - apply try_except_returns.
Qed.

Lemma transcribe_audio_async_returns : forall w audio_file s,
  exists text s',
    AudioProcessor.transcribe_audio_async w audio_file s = (Ret text, s').
Proof.
  intros w audio_file s. unfold AudioProcessor.transcribe_audio_async, try_finally.
  match goal with |- context [try_except ?m ?h s] =>
    destruct (try_except_returns m [] s) as (text & s1 & E) end.
  rewrite E.
  unfold AudioProcessor.cleanup_audio_file.
  match goal with |- context [try_except ?m ?h s1] =>
    destruct (try_except_returns m tt s1) as (u & s2 & E2) end.
  rewrite E2. now exists text, s2.
Qed.

(** ** C2: the service times out on every attempt *)

(** C2: the code at the failing input, a service that times out on each
    attempt (under the pipeline's timeout of 30s) in a world where recording,
    transcription and speech work.  The three attempts, the two sleeps of 1.0s
    and the apology are as the claim has them.  Then the code departs from the
    claim: the pipeline takes the apology for the answer, hands it to
    [speak_async] (a synthesis and a playback follow the third attempt) and
    reports success with no error.  On the sibling failure path, a blank
    response on every attempt, the same pipeline reports failure and
    synthesizes nothing. *)
Theorem C2_timeout_apology_is_narrated :
  let run := EchoLearnAssistant.process_question_async
               (studio a_question always_timeout) (Some a_context) 5
               (init_state []) in
  let blank := EchoLearnAssistant.process_question_async
                 (studio a_question always_blank) (Some a_context) 5
                 (init_state []) in
  fst run
  = EchoLearnAssistant.mkResult true (lit "What is light?")
      (lit "I'm sorry, the request timed out. Please try again.")
      ["recording"; "transcription"; "gemma"; "speech"; "total"]%string []
  /\ trace (snd run)
     = [EvTempFile wav_path; EvRecord 5; EvWriteWav wav_path;
        EvTranscribe wav_path; EvRemove wav_path;
        EvGenerate a_prompt; EvSleep 1; EvGenerate a_prompt; EvSleep 1;
        EvGenerate a_prompt;
        EvTempFile mp3_path;
        EvSynth (lit "I'm sorry, the request timed out. Please try again.") mp3_path;
        EvPlay mp3_path]
  /\ EchoLearnAssistant.success (fst blank) = false
  /\ EchoLearnAssistant.errors (fst blank) = [lit "No answer received from Gemma"]
  /\ synth_texts (trace (snd blank)) = [].
Proof.
  vm_compute. repeat split; reflexivity.
Qed.

(** ** The pipeline past its first two stages *)

Lemma pipeline_after_transcription : forall w context d s0 file s1 q s2,
  AudioProcessor.record_audio_async w d None s0 = (Ret (Some file), s1) ->
  file <> [] ->
  AudioProcessor.transcribe_audio_async w file s1 = (Ret q, s2) ->
  EchoLearnAssistant.process_question_async w context d s0
  = if negb (truthy q) || (length (strip q) <? 3)
    then (EchoLearnAssistant.add_error (lit "No valid question transcribed")
            (heard_result q), s2)
    else
      match EchoLearnAssistant.ask w context q s2 with
      | (Raise e, s3) => (EchoLearnAssistant.on_exception e (heard_result q), s3)
      | (Ret a, s3) =>
          let r := EchoLearnAssistant.set_answer a
                     (EchoLearnAssistant.add_timing "gemma" (heard_result q)) in
          if negb (truthy a)
          then (EchoLearnAssistant.add_error (lit "No answer received from Gemma") r,
                s3)
          else
            match SpeechSynthesizer.speak_async w a 2 s3 with
            | (Raise e, s4) => (EchoLearnAssistant.on_exception e r, s4)
            | (Ret _, s4) =>
                (EchoLearnAssistant.add_timing "total"
                   (EchoLearnAssistant.set_success
                      (EchoLearnAssistant.add_timing "speech" r)), s4)
            end
      end.
Proof.
  intros w context d s0 file s1 q s2 Rec NE Tr.
  unfold EchoLearnAssistant.process_question_async.
  rewrite Rec. destruct file as [|c0 file]; [contradiction|].
  rewrite Tr. reflexivity.
Qed.

Lemma valid_question_passes : forall q,
  3 <= length (strip q) -> negb (truthy q) || (length (strip q) <? 3) = false.
Proof.
  intros q H. destruct q as [|c q]; [vm_compute in H; lia|].
  simpl. apply Nat.ltb_ge. exact H.
Qed.

(** X30: when the service times out on every attempt under a positive timeout,
    [ask_question_async] calls it exactly three times, sleeps 1.0s after the
    first and after the second attempt, and returns the apology as an ordinary
    value (callbacks of the cut streams apart, these are its only events).
    The pipeline, as it is written, records that value as the answer and
    passes it on to [speak_async]; it records no error. *)
Theorem X30_timeouts_three_attempts_then_apology : forall w,
  (forall question context timeout cb s,
     (0 < timeout)%Z ->
     (forall a, a < 3 ->
        ending (service w a (GemmaClient._build_prompt question context) timeout)
        = Some TimeoutError) ->
     exists c0 c1 c2,
       GemmaClient.ask_question_async (service w) question context timeout cb s
       = (Ret (lit "I'm sorry, the request timed out. Please try again."),
          add_events
            (EvGenerate (GemmaClient._build_prompt question context)
             :: map EvCallback c0
             ++ EvSleep 1
             :: EvGenerate (GemmaClient._build_prompt question context)
             :: map EvCallback c1
             ++ EvSleep 1
             :: EvGenerate (GemmaClient._build_prompt question context)
             :: map EvCallback c2) s)
       /\ (cb = false -> c0 = [] /\ c1 = [] /\ c2 = []))
  /\
  (forall context d s0 file s1 q s2,
     (forall a, a < 3 ->
        ending (service w a (GemmaClient._build_prompt q context) 30)
        = Some TimeoutError) ->
     AudioProcessor.record_audio_async w d None s0 = (Ret (Some file), s1) ->
     file <> [] ->
     AudioProcessor.transcribe_audio_async w file s1 = (Ret q, s2) ->
     3 <= length (strip q) ->
     exists ok s4,
       SpeechSynthesizer.speak_async w GemmaClient.timeout_message 2
         (add_events
            (three_attempts_two_sleeps (GemmaClient._build_prompt q context)) s2)
       = (Ret ok, s4)
       /\ EchoLearnAssistant.process_question_async w (Some context) d s0
          = (EchoLearnAssistant.mkResult true q GemmaClient.timeout_message
               ["recording"; "transcription"; "gemma"; "speech"; "total"]%string [],
             s4)).
Proof.
  intros w. split.
  - intros question context timeout cb s Pos H.
    exact (ask_all_timeouts (service w) question context cb s Pos H).
  - intros context d s0 file s1 q s2 H Rec NE Tr Valid.
    destruct (@ask_all_timeouts (service w) q context 30%Z false s2 eq_refl H)
      as (c0 & c1 & c2 & E & N).
    destruct (N eq_refl) as (-> & -> & ->). cbn [map app] in E.
    fold (three_attempts_two_sleeps (GemmaClient._build_prompt q context)) in E.
    destruct (speak_async_returns w GemmaClient.timeout_message 2
                (add_events
                   (three_attempts_two_sleeps (GemmaClient._build_prompt q context))
                   s2)) as (ok & s4 & Sp).
    exists ok, s4. split; [exact Sp|].
    rewrite (pipeline_after_transcription w (Some context) d s0 Rec NE Tr).
    rewrite (valid_question_passes q Valid).
    unfold EchoLearnAssistant.ask. rewrite E. cbv zeta.
    change (negb (truthy GemmaClient.timeout_message)) with false. cbv iota.
    rewrite Sp. reflexivity.
Qed.

Lemma X30_timeouts_three_attempts_then_apology_witness :
  (exists c0 c1 c2,
     GemmaClient.ask_question_async always_timeout (lit "What is light?")
       a_context 30 true (init_state [])
     = (Ret (lit "I'm sorry, the request timed out. Please try again."),
        add_events
          (EvGenerate a_prompt :: map EvCallback c0
           ++ EvSleep 1 :: EvGenerate a_prompt :: map EvCallback c1
           ++ EvSleep 1 :: EvGenerate a_prompt :: map EvCallback c2)
          (init_state []))
     /\ (true = false -> c0 = [] /\ c1 = [] /\ c2 = []))
  /\
  (exists ok s4,
     SpeechSynthesizer.speak_async (studio a_question always_timeout)
       GemmaClient.timeout_message 2
       (add_events (three_attempts_two_sleeps a_prompt)
          (transcribed (studio a_question always_timeout)))
     = (Ret ok, s4)
     /\ EchoLearnAssistant.process_question_async
          (studio a_question always_timeout) (Some a_context) 5 (init_state [])
        = (EchoLearnAssistant.mkResult true (lit "What is light?")
             GemmaClient.timeout_message
             ["recording"; "transcription"; "gemma"; "speech"; "total"]%string [],
           s4)).
Proof.
  split.
  - apply (proj1 (X30_timeouts_three_attempts_then_apology
                    (studio a_question always_timeout))).
    + lia.
    + intros a La. reflexivity.
  - apply (proj2 (X30_timeouts_three_attempts_then_apology
                    (studio a_question always_timeout))
             a_context 5%Z (init_state []) wav_path
             (recorded (studio a_question always_timeout))
             (lit "What is light?")
             (transcribed (studio a_question always_timeout))).
    + intros a La. reflexivity.
    + vm_compute. reflexivity.
    + discriminate.
    + vm_compute. reflexivity.
    + vm_compute. lia.
Defined.

(** ** C10: every attempt completes with a blank response *)

(** C10: when each of the three attempts, run under a positive timeout,
    completes without exception or timeout and its response is blank, [ask_question_async] makes the three
    calls with no sleep between them and returns the empty string; the
    pipeline then records "No answer received from Gemma", reports failure and
    ends in the state [ask_question_async] left, without narration. *)
Theorem C10_blank_responses_exhaust_retries : forall w,
  (forall question context timeout cb s,
     (0 < timeout)%Z ->
     (forall a, a < 3 ->
        ending (service w a (GemmaClient._build_prompt question context) timeout)
        = None
        /\ strip (tokens_of (delivered
             (service w a (GemmaClient._build_prompt question context) timeout)))
           = []) ->
     GemmaClient.ask_question_async (service w) question context timeout cb s
     = (Ret [],
        add_events
          [EvGenerate (GemmaClient._build_prompt question context);
           EvGenerate (GemmaClient._build_prompt question context);
           EvGenerate (GemmaClient._build_prompt question context)] s))
  /\
  (forall context d s0 file s1 q s2,
     (forall a, a < 3 ->
        ending (service w a (GemmaClient._build_prompt q context) 30) = None
        /\ strip (tokens_of (delivered
             (service w a (GemmaClient._build_prompt q context) 30))) = []) ->
     AudioProcessor.record_audio_async w d None s0 = (Ret (Some file), s1) ->
     file <> [] ->
     AudioProcessor.transcribe_audio_async w file s1 = (Ret q, s2) ->
     3 <= length (strip q) ->
     EchoLearnAssistant.process_question_async w (Some context) d s0
     = (EchoLearnAssistant.mkResult false q []
          ["recording"; "transcription"; "gemma"]%string
          [lit "No answer received from Gemma"],
        add_events
          [EvGenerate (GemmaClient._build_prompt q context);
           EvGenerate (GemmaClient._build_prompt q context);
           EvGenerate (GemmaClient._build_prompt q context)] s2)).
Proof.
  intros w. split.
  - intros question context timeout cb s Pos H.
    exact (ask_all_blank (service w) question context cb s Pos H).
  - intros context d s0 file s1 q s2 H Rec NE Tr Valid.
    rewrite (pipeline_after_transcription w (Some context) d s0 Rec NE Tr).
    rewrite (valid_question_passes q Valid).
    unfold EchoLearnAssistant.ask.
    rewrite (@ask_all_blank (service w) q context 30%Z false s2 eq_refl H).
    reflexivity.
Qed.

Lemma C10_blank_responses_exhaust_retries_witness :
  GemmaClient.ask_question_async always_blank (lit "What is light?")
    a_context 30 true (init_state [])
  = (Ret [],
     add_events [EvGenerate a_prompt; EvGenerate a_prompt; EvGenerate a_prompt]
       (init_state []))
  /\
  EchoLearnAssistant.process_question_async
    (studio a_question always_blank) (Some a_context) 5 (init_state [])
  = (EchoLearnAssistant.mkResult false (lit "What is light?") []
       ["recording"; "transcription"; "gemma"]%string
       [lit "No answer received from Gemma"],
     add_events [EvGenerate a_prompt; EvGenerate a_prompt; EvGenerate a_prompt]
       (transcribed (studio a_question always_blank))).
Proof.
  split.
  - apply (proj1 (C10_blank_responses_exhaust_retries
                    (studio a_question always_blank))).
    + lia.
    + intros a La. split; reflexivity.
  - apply (proj2 (C10_blank_responses_exhaust_retries
                    (studio a_question always_blank))
             a_context 5%Z (init_state []) wav_path
             (recorded (studio a_question always_blank))
             (lit "What is light?")
             (transcribed (studio a_question always_blank))).
    + intros a La. split; reflexivity.
    + vm_compute. reflexivity.
    + discriminate.
    + vm_compute. reflexivity.
    + vm_compute. lia.
Defined.

(** ** C4: cleanup of the input file by [transcribe_audio_async] *)

(** C4, as stated, fails: for the existing file "input.wav", which is not
    under the temp directory "/tmp", transcription succeeds, no [os.remove]
    is attempted and the file is still there on return. *)
Lemma C4_counterexample :
  let run := AudioProcessor.transcribe_audio_async
               (studio a_question always_timeout) (lit "input.wav")
               (init_state [lit "input.wav"]) in
  fst run = Ret (lit "What is light?")
  /\ trace (snd run) = [EvTranscribe (lit "input.wav")]
  /\ fs (snd run) = [lit "input.wav"].
Proof.
  vm_compute. repeat split.
Qed.

Lemma transcribe_audio_async_run : forall w audio_file s,
  exists evs,
    AudioProcessor.transcribe_audio_async w audio_file s
    = (Ret (heard_text w audio_file (existsb (str_eqb audio_file) (fs s))),
       mkState (if remove_guard w audio_file s && remove_succeeds w audio_file
                then filter (fun q => negb (str_eqb audio_file q)) (fs s)
                else fs s)
               (temp_files s) (tasks s)
               (trace s ++ evs
                ++ if remove_guard w audio_file s then [EvRemove audio_file] else []))
    /\ (evs = [] \/ evs = [EvTranscribe audio_file]).
Proof.
  intros w audio_file [files tf tk tr].
  unfold AudioProcessor.transcribe_audio_async, AudioProcessor.cleanup_audio_file,
    AudioProcessor._transcribe_sync, run_in_executor, os_remove, lift_fault,
    try_finally, try_except, bind, path_exists, emit, fs_del, ret, raise,
    heard_text, remove_guard, remove_succeeds.
  cbn [fs temp_files tasks trace].
  destruct (existsb (str_eqb audio_file) files) eqn:Present; cbn [negb andb].
  - destruct (executor_fault w) as [e|].
    + cbn [fs temp_files tasks trace]. rewrite Present. cbn [andb].
      exists [].
      destruct (startswith audio_file (gettempdir w));
        try destruct (os_remove_fault w audio_file);
        cbn [fs temp_files tasks trace app andb];
        rewrite ?app_nil_r; (split; [reflexivity | auto]).
    + destruct (whisper w audio_file) as [[|[text|]]|e];
        cbn [fs temp_files tasks trace]; rewrite Present; cbn [andb];
        destruct (startswith audio_file (gettempdir w));
        try destruct (os_remove_fault w audio_file);
        exists [EvTranscribe audio_file];
        cbn [fs temp_files tasks trace app andb];
        rewrite <- ?app_assoc, ?app_nil_r; cbn [app];
        (split; [reflexivity | auto]).
  - cbn [fs]. rewrite Present. cbn [andb].
    exists []. split; [|auto]. now rewrite !app_nil_r.
Qed.

(** C4, amended: [transcribe_audio_async] always returns a value, and on every
    outcome of transcription its last act is one [os.remove] of the input file
    exactly when that file exists and its path starts with the temp directory
    (the file is gone afterwards unless [os.remove] itself fails); for a path
    that does not exist or lies elsewhere no deletion is attempted and the
    file system is left as it was. *)
Theorem C4_transcribe_removes_temp_input : forall w audio_file s,
  let guard := existsb (str_eqb audio_file) (fs s)
               && startswith audio_file (gettempdir w) in
  let removed := guard && match os_remove_fault w audio_file with
                          | None => true
                          | Some _ => false
                          end in
  exists text evs,
    AudioProcessor.transcribe_audio_async w audio_file s
    = (Ret text,
       mkState (if removed
                then filter (fun q => negb (str_eqb audio_file q)) (fs s)
                else fs s)
               (temp_files s) (tasks s)
               (trace s ++ evs ++ if guard then [EvRemove audio_file] else []))
    /\ (evs = [] \/ evs = [EvTranscribe audio_file]).
Proof.
  intros w audio_file s guard removed.
  destruct (transcribe_audio_async_run w audio_file s) as (evs & E & Shape).
  eexists _, evs. split; [exact E | exact Shape].
Qed.

(** ** Calls to the language-model service in a trace *)

Lemma generate_calls_app : forall a b,
  generate_calls (a ++ b) = generate_calls a ++ generate_calls b.
Proof.
  induction a as [|e a IH]; intros b; [reflexivity|].
  destruct e; simpl; rewrite ?IH; reflexivity.
Qed.

Lemma record_audio_async_no_generate : forall w d filename s,
  generate_calls (trace (snd (AudioProcessor.record_audio_async w d filename s)))
  = generate_calls (trace s).
Proof.
  intros w d filename [files tf tk tr].
  unfold AudioProcessor.record_audio_async, AudioProcessor._record_audio_sync,
    named_temporary_file, run_in_executor, os_remove, lift_fault,
    try_except, bind, path_exists, emit, fs_add, fs_del, ret, raise.
  destruct filename as [f|]; [|destruct (wav_tempfile w) as [f|e]];
    cbn [fs temp_files tasks trace snd]; try reflexivity;
    destruct (executor_fault w);
    try destruct (sd_rec w d);
    cbn [fs temp_files tasks trace snd];
    try destruct (wav_write_fault w f);
    cbn [fs temp_files tasks trace snd];
    repeat match goal with
      | |- context [if ?b then _ else _] => destruct b
      | |- context [match os_remove_fault ?w ?f with _ => _ end] =>
          destruct (os_remove_fault w f)
      end;
    cbn [fs temp_files tasks trace snd];
    rewrite ?generate_calls_app; cbn [generate_calls];
    rewrite ?app_nil_r; reflexivity.
Qed.

Lemma transcribe_audio_async_no_generate : forall w audio_file s,
  generate_calls (trace (snd (AudioProcessor.transcribe_audio_async w audio_file s)))
  = generate_calls (trace s).
Proof.
  intros w audio_file s.
  destruct (transcribe_audio_async_run w audio_file s) as (evs & E & Shape).
  rewrite E. cbn [snd trace]. rewrite !generate_calls_app.
  destruct Shape as [-> | ->]; destruct (remove_guard w audio_file s);
    cbn [generate_calls]; now rewrite ?app_nil_r.
Qed.

(** ** C5: nothing valid was transcribed *)

(** C5: when recording has produced a file and transcription returns an empty
    or whitespace-only question, the pipeline returns with [success] false,
    the single error "No valid question transcribed", in the state
    transcription left; from its start to its end the trace gains no call to
    the language-model service. *)
Theorem C5_blank_question_aborts : forall w context d s0 file s1 q s2,
  AudioProcessor.record_audio_async w d None s0 = (Ret (Some file), s1) ->
  file <> [] ->
  AudioProcessor.transcribe_audio_async w file s1 = (Ret q, s2) ->
  strip q = [] ->
  let run := EchoLearnAssistant.process_question_async w context d s0 in
  fst run = EchoLearnAssistant.mkResult false q []
              ["recording"; "transcription"]%string
              [lit "No valid question transcribed"]
  /\ snd run = s2
  /\ generate_calls (trace (snd run)) = generate_calls (trace s0).
Proof.
  intros w context d s0 file s1 q s2 Rec NE Tr Blank run. subst run.
  rewrite (pipeline_after_transcription w context d s0 Rec NE Tr).
  rewrite Blank. cbn [length Nat.ltb Nat.leb]. rewrite orb_true_r.
  cbn [fst snd]. repeat split.
  pose proof (record_audio_async_no_generate w d None s0) as G1.
  pose proof (transcribe_audio_async_no_generate w file s1) as G2.
  rewrite Rec in G1. rewrite Tr in G2. cbn [snd] in G1, G2. congruence.
Qed.

Lemma C5_blank_question_aborts_witness :
  let run := EchoLearnAssistant.process_question_async
               (studio (lit "  ") always_timeout) (Some a_context) 5
               (init_state []) in
  fst run = EchoLearnAssistant.mkResult false [] []
              ["recording"; "transcription"]%string
              [lit "No valid question transcribed"]
  /\ snd run = transcribed (studio (lit "  ") always_timeout)
  /\ generate_calls (trace (snd run)) = generate_calls (trace (init_state [])).
Proof.
  apply (C5_blank_question_aborts (studio (lit "  ") always_timeout)
           (Some a_context) 5%Z (init_state []) (file := wav_path)
           (s1 := recorded (studio (lit "  ") always_timeout))).
  - vm_compute. reflexivity.
  - discriminate.
  - vm_compute. reflexivity.
  - reflexivity.
Defined.

(** ** C6: nothing to say *)

(** C6: for an empty or whitespace-only text [speak_async] returns [False]
    and leaves the state as it found it: no synthesis, no temp file, no
    playback, no cleanup task. *)
Theorem C6_blank_text_is_noop : forall w text cleanup_delay s,
  strip text = [] ->
  SpeechSynthesizer.speak_async w text cleanup_delay s = (Ret false, s).
Proof.
  intros w text cleanup_delay s Blank.
  unfold SpeechSynthesizer.speak_async. rewrite Blank. cbn [truthy negb].
  now rewrite orb_true_r.
Qed.

Lemma C6_blank_text_is_noop_witness :
  SpeechSynthesizer.speak_async (studio a_question always_timeout) [] 2
    (init_state []) = (Ret false, init_state [])
  /\ SpeechSynthesizer.speak_async (studio a_question always_timeout)
       (lit "   ") 2 (init_state []) = (Ret false, init_state []).
Proof.
  split; apply C6_blank_text_is_noop; reflexivity.
Defined.

(** ** What [speak_async] reports *)

Lemma str_eqb_refl : forall p, str_eqb p p = true.
Proof.
  intros p. unfold str_eqb. destruct (list_eq_dec N.eq_dec p p); congruence.
Qed.

Lemma speak_async_value : forall w text delay s,
  fst (SpeechSynthesizer.speak_async w text delay s) = Ret (speak_ok w text).
Proof.
  intros w text delay [files tf tk tr].
  unfold SpeechSynthesizer.speak_async, speak_ok.
  destruct (truthy text); cbn [negb orb andb]; [|reflexivity].
  destruct (truthy (strip text)); cbn [negb orb andb]; [|reflexivity].
  unfold SpeechSynthesizer._generate_audio_async,
    SpeechSynthesizer._play_audio_async, SpeechSynthesizer._play_audio_sync,
    SpeechSynthesizer._cleanup_temp_file, SpeechSynthesizer.temp_files_append,
    SpeechSynthesizer.temp_files_discard,
    named_temporary_file, run_in_executor, os_remove, lift_fault, create_task,
    try_except, bind, path_exists, emit, fs_add, fs_del, ret, raise.
  destruct (mp3_tempfile w text) as [path|e]; [|reflexivity].
  destruct (synth_fault w text);
    [destruct (executor_fault w); reflexivity|].
  destruct path as [|c path];
    [destruct (executor_fault w); reflexivity|].
  cbn -[str_eqb Z.eqb]. rewrite str_eqb_refl. cbn -[str_eqb Z.eqb].
  destruct (executor_fault w); cbn -[str_eqb Z.eqb];
    destruct (SpeechSynthesizer.positive delay); cbn -[str_eqb Z.eqb];
    rewrite ?str_eqb_refl; cbn -[str_eqb Z.eqb];
    repeat match goal with
      | |- context [match os_remove_fault ?w ?f with _ => _ end] =>
          destruct (os_remove_fault w f); cbn -[str_eqb Z.eqb]
      | |- context [if ?b then _ else _] => destruct b; cbn -[str_eqb Z.eqb]
      end;
    reflexivity.
Qed.

(** ** C8: failures of the external libraries stay inside the operation *)

(** C8: in every world, [transcribe_audio_async], [ask_question_async] and
    [speak_async] return a value and never raise.  When the recognizer raises
    or the executor refuses the job, transcription returns the empty string;
    when every attempt of the service fails, [ask_question_async] returns the
    message built from the last failure (under a timeout of 0 or less no
    attempt reaches the service and the message is that of a timeout); when
    the temp file, the synthesis or the executor fails, [speak_async] returns
    [False]. *)
Theorem C8_operations_convert_failures : forall w,
  (forall audio_file s,
     exists text s',
       AudioProcessor.transcribe_audio_async w audio_file s = (Ret text, s')
       /\ (executor_fault w <> None \/ (exists e, whisper w audio_file = Raise e)
           -> text = []))
  /\
  (forall question context timeout cb s,
     exists a s',
       GemmaClient.ask_question_async (service w) question context timeout cb s
       = (Ret a, s')
       /\ ((0 < timeout)%Z ->
           forall err,
             (forall k, k < 3 ->
                ending (service w k (GemmaClient._build_prompt question context)
                          timeout) = Some (err k)) ->
             a = match err 2 with
                 | TimeoutError =>
                     lit "I'm sorry, the request timed out. Please try again."
                 | Exception msg =>
                     lit "I'm sorry, I encountered an error: " ++ msg
                 end)
       /\ ((timeout <= 0)%Z ->
           a = lit "I'm sorry, the request timed out. Please try again."))
  /\
  (forall text cleanup_delay s,
     exists ok s',
       SpeechSynthesizer.speak_async w text cleanup_delay s = (Ret ok, s')
       /\ ((exists e, mp3_tempfile w text = Raise e)
           \/ synth_fault w text <> None \/ executor_fault w <> None
           -> ok = false)).
Proof.
  intros w. split; [|split].
  - intros audio_file s.
    destruct (transcribe_audio_async_run w audio_file s) as (evs & E & _).
    eexists _, _. split; [exact E|].
    unfold heard_text. intros [F | [e F]].
    + destruct (existsb _ _); [|reflexivity].
      destruct (executor_fault w); [reflexivity | contradiction].
    + rewrite F. destruct (existsb _ _); [|reflexivity].
      destruct (executor_fault w); reflexivity.
  - intros question context timeout cb s.
    destruct (retry_loop_returns (service w) GemmaClient.max_retries 0
                (GemmaClient._build_prompt question context) timeout cb s)
      as (a & s' & E).
    exists a, s'. split; [exact E|split].
    + intros Pos err H.
      destruct (ask_all_failures (service w) question context cb s err Pos H)
        as (c0 & c1 & c2 & E' & _).
      unfold GemmaClient.ask_question_async in E'. rewrite E in E'.
      injection E' as -> _. reflexivity.
    + intros Exp.
      pose proof (ask_expired (service w) question context cb s Exp) as E'.
      unfold GemmaClient.ask_question_async in E'. rewrite E in E'.
      injection E' as -> _. reflexivity.
  - intros text cleanup_delay s.
    destruct (speak_async_returns w text cleanup_delay s) as (ok & s' & E).
    exists ok, s'. split; [exact E|].
    pose proof (speak_async_value w text cleanup_delay s) as V.
    rewrite E in V. cbn [fst] in V. injection V as ->.
    unfold speak_ok. intros [[e F] | [F | F]].
    + rewrite F. apply andb_false_r.
    + destruct (mp3_tempfile w text); [|apply andb_false_r].
      destruct (synth_fault w text); [apply andb_false_r | contradiction].
    + destruct (mp3_tempfile w text); [|apply andb_false_r].
      destruct (synth_fault w text); [apply andb_false_r|].
      destruct (executor_fault w); [apply andb_false_r | contradiction].
Qed.

Lemma C8_operations_convert_failures_witness :
  (exists text s',
     AudioProcessor.transcribe_audio_async broken wav_path (init_state [wav_path])
     = (Ret text, s') /\ text = [])
  /\ (exists a s',
        GemmaClient.ask_question_async (service broken) (lit "What is light?")
          a_context 30 true (init_state [])
        = (Ret a, s')
        /\ a = lit "I'm sorry, I encountered an error: connection refused")
  /\ (exists ok s',
        SpeechSynthesizer.speak_async broken (lit "Hi.") 2 (init_state [])
        = (Ret ok, s') /\ ok = false).
Proof.
  destruct (C8_operations_convert_failures broken) as (T & A & S).
  split; [|split].
  - destruct (T wav_path (init_state [wav_path])) as (text & s' & E & F).
    exists text, s'. split; [exact E|].
    apply F. right. exists refused. reflexivity.
  - destruct (A (lit "What is light?") a_context 30%Z true (init_state []))
      as (a & s' & E & F & _).
    exists a, s'. split; [exact E|].
    apply (F eq_refl (fun _ => refused)). intros k Lk. reflexivity.
  - destruct (S (lit "Hi.") 2%Q (init_state [])) as (ok & s' & E & F).
    exists ok, s'. split; [exact E|].
    apply F. right. left. discriminate.
Defined.

(** ** C9: the legacy variant on repeated text *)

(** C9: there is a token stream with repeated text, ["Yes."], [" Yes."], on
    which the legacy [ask_gemma] speaks "Yes." and then the empty string and
    returns "Yes.", which differs from the generated answer "Yes. Yes."
    even with whitespace set aside, while the optimized client hands "Yes."
    twice to its callback: the two are not equivalent. *)
Theorem C9_legacy_loses_repeated_text :
  exists cs : list chunk,
    let legacy := Legacy.ask_gemma (fun _ => mkReply cs None)
                    (lit "Sure?") a_context (init_state []) in
    let optimized := GemmaClient._generate_response
                       (fun _ _ _ => mkReply cs None) 0 a_prompt 30 true
                       (init_state []) in
    tokens_of cs = lit "Yes. Yes."
    /\ fst legacy = Ret (lit "Yes.")
    /\ spoken_texts (trace (snd legacy)) = [lit "Yes."; []]
    /\ squeeze (concat (spoken_texts (trace (snd legacy)))) <> squeeze (tokens_of cs)
    /\ fst optimized = Ret (lit "Yes. Yes.")
    /\ callbacks (trace (snd optimized)) = [lit "Yes."; lit "Yes."]
    /\ squeeze (concat (callbacks (trace (snd optimized)))) = squeeze (tokens_of cs)
    /\ spoken_texts (trace (snd legacy)) <> callbacks (trace (snd optimized)).
Proof.
  exists yes_yes. vm_compute. repeat split; discriminate.
Qed.

(** ** C7: narration from the queue *)

Lemma poll_once_continue : forall w p s,
  p <> PollItem None ->
  Streaming.poll_once w p s = (Ret Continue, narrate_one w s p).
Proof.
  intros w p s NS. unfold Streaming.poll_once, try_except_timeout, narrate_one.
  erewrite bind_run by apply emit_run.
  destruct p as [|[c|]]; [reflexivity | | contradiction].
  destruct (truthy (strip c)); [|reflexivity].
  destruct (speak_async_returns w c Streaming.chunk_cleanup_delay
              (add_events [EvPoll Streaming.poll_timeout] s)) as (ok & s' & E).
  change (SpeechSynthesizer.speak_async w c 1 (add_events [EvPoll 1] s))
    with (SpeechSynthesizer.speak_async w c Streaming.chunk_cleanup_delay
            (add_events [EvPoll Streaming.poll_timeout] s)).
  unfold bind. rewrite E. reflexivity.
Qed.

Lemma poll_once_break : forall w s,
  Streaming.poll_once w (PollItem None) s
  = (Ret Break, add_events [EvPoll 1] s).
Proof. reflexivity. Qed.

Lemma stream_loop_run : forall w pre s,
  ~ In (PollItem None) pre ->
  Streaming.stream_loop w pre s = (Ret Waiting, narrate_in_order w pre s)
  /\ forall post,
       Streaming.stream_loop w (pre ++ PollItem None :: post) s
       = (Ret Stopped, add_events [EvPoll 1] (narrate_in_order w pre s)).
Proof.
  intros w. induction pre as [|p pre IH]; intros s NS.
  - split; [reflexivity|]. intros post. cbn [app Streaming.stream_loop].
    erewrite bind_run by apply poll_once_break. reflexivity.
  - assert (NP : p <> PollItem None) by (intros ->; apply NS; now left).
    assert (NS' : ~ In (PollItem None) pre) by (intros I; apply NS; now right).
    destruct (IH (narrate_one w s p) NS') as [W St].
    split; [|intros post]; cbn [app Streaming.stream_loop];
      erewrite bind_run by (apply poll_once_continue; exact NP); cbv iota beta.
    + exact W.
    + apply St.
Qed.

Lemma speak_async_trace : forall w text delay s,
  trace (snd (SpeechSynthesizer.speak_async w text delay s))
  = trace s ++ speak_events w text delay.
Proof.
  intros w text delay [files tf tk tr].
  unfold SpeechSynthesizer.speak_async, speak_events.
  destruct (truthy text); cbn [negb orb andb trace snd];
    [|now rewrite app_nil_r].
  destruct (truthy (strip text)); cbn [negb orb andb trace snd];
    [|now rewrite app_nil_r].
  unfold SpeechSynthesizer._generate_audio_async,
    SpeechSynthesizer._play_audio_async, SpeechSynthesizer._play_audio_sync,
    SpeechSynthesizer._cleanup_temp_file, SpeechSynthesizer.temp_files_append,
    SpeechSynthesizer.temp_files_discard,
    named_temporary_file, run_in_executor, os_remove, lift_fault, create_task,
    try_except, bind, path_exists, emit, fs_add, fs_del, ret, raise.
  change (SpeechSynthesizer.positive 0) with false.
  destruct (mp3_tempfile w text) as [path|e]; cbn [trace snd];
    [|now rewrite app_nil_r].
  destruct (synth_fault w text);
    [cbn -[str_eqb Z.eqb]; now rewrite <- app_assoc|].
  destruct path as [|c path];
    [cbn -[str_eqb Z.eqb]; now rewrite <- app_assoc|].
  cbn -[str_eqb Z.eqb SpeechSynthesizer.positive].
  rewrite str_eqb_refl. cbn -[str_eqb Z.eqb SpeechSynthesizer.positive].
  destruct (executor_fault w);
    cbn -[str_eqb Z.eqb SpeechSynthesizer.positive];
    destruct (SpeechSynthesizer.positive delay);
    cbn -[str_eqb Z.eqb SpeechSynthesizer.positive];
    rewrite ?str_eqb_refl; cbn -[str_eqb Z.eqb SpeechSynthesizer.positive];
    repeat match goal with
      | |- context [match os_remove_fault ?w ?f with _ => _ end] =>
          destruct (os_remove_fault w f);
          cbn -[str_eqb Z.eqb SpeechSynthesizer.positive]
      | |- context [if ?b then _ else _] =>
          destruct b; cbn -[str_eqb Z.eqb SpeechSynthesizer.positive]
      end;
    rewrite <- ?app_assoc; reflexivity.
Qed.

Lemma narrate_one_trace : forall w s p,
  trace (narrate_one w s p) = trace s ++ turn_events w p.
Proof.
  intros w s p. unfold narrate_one, turn_events.
  destruct p as [|[c|]]; try reflexivity.
  destruct (truthy (strip c)); [|reflexivity].
  rewrite speak_async_trace. cbn [add_events trace].
  now rewrite <- app_assoc.
Qed.

Lemma narrate_in_order_trace : forall w polls s,
  trace (narrate_in_order w polls s) = trace s ++ flat_map (turn_events w) polls.
Proof.
  intros w. unfold narrate_in_order.
  induction polls as [|p polls IH]; intros s; cbn [fold_left flat_map].
  - now rewrite app_nil_r.
  - rewrite IH, narrate_one_trace. now rewrite <- app_assoc.
Qed.

Lemma synth_texts_app : forall a b,
  synth_texts (a ++ b) = synth_texts a ++ synth_texts b.
Proof.
  induction a as [|e a IH]; intros b; [reflexivity|].
  destruct e; simpl; rewrite ?IH; reflexivity.
Qed.

Lemma synth_texts_turns : forall w polls,
  synth_texts (flat_map (turn_events w) polls)
  = filter (fun c => truthy (strip c) && tempfile_ok w c) (queued_chunks polls).
Proof.
  intros w. induction polls as [|p polls IH]; [reflexivity|].
  cbn [flat_map]. rewrite synth_texts_app, IH.
  destruct p as [|[c|]]; try reflexivity.
  cbn [queued_chunks filter]. unfold turn_events, speak_events, tempfile_ok.
  destruct (truthy (strip c)) eqn:NB; cbn [andb]; [|reflexivity].
  assert (T : truthy c = true).
  { destruct c; [discriminate NB | reflexivity]. }
  rewrite T. cbn [andb].
  destruct (mp3_tempfile w c) as [path|e]; [|reflexivity].
  cbn [app synth_texts].
  destruct (synth_fault w c); [reflexivity|].
  destruct (truthy path); [|reflexivity].
  destruct (executor_fault w); reflexivity.
Qed.

(** C7: [speak_streaming_async] polls the queue with a 1.0s timeout, goes on
    after a timeout, and leaves the loop at the first end signal, reading
    nothing behind it; until then each turn's events (the poll, then the
    synthesis and the playback of the chunk it dequeued, if non-blank) are
    complete before the next poll, so chunks reach synthesis in queue order,
    none twice, none interleaved.  Without an end signal the loop is still
    polling when the polls run out. *)
Theorem C7_streaming_narration_in_order : forall w pre post s,
  ~ In (PollItem None) pre ->
  (exists s',
     Streaming.speak_streaming_async w (pre ++ PollItem None :: post) s
     = (Ret Stopped, s')
     /\ trace s' = trace s ++ flat_map (turn_events w) pre ++ [EvPoll 1])
  /\ (exists s',
        Streaming.speak_streaming_async w pre s = (Ret Waiting, s')
        /\ trace s' = trace s ++ flat_map (turn_events w) pre)
  /\ synth_texts (flat_map (turn_events w) pre)
     = filter (fun c => truthy (strip c) && tempfile_ok w c) (queued_chunks pre).
Proof.
  intros w pre post s NS.
  destruct (stream_loop_run w pre s NS) as [W St].
  split; [|split].
  - exists (add_events [EvPoll 1] (narrate_in_order w pre s)). split.
    + unfold Streaming.speak_streaming_async, try_except. now rewrite St.
    + cbn [add_events trace]. now rewrite narrate_in_order_trace, <- app_assoc.
  - exists (narrate_in_order w pre s). split.
    + unfold Streaming.speak_streaming_async, try_except. now rewrite W.
    + apply narrate_in_order_trace.
  - apply synth_texts_turns.
Qed.

Lemma C7_streaming_narration_in_order_witness :
  (exists s',
     Streaming.speak_streaming_async (studio a_question always_timeout)
       (three_polls ++ PollItem None :: [PollItem (Some (lit "Late."))])
       (init_state [])
     = (Ret Stopped, s')
     /\ trace s'
        = trace (init_state [])
          ++ flat_map (turn_events (studio a_question always_timeout)) three_polls
          ++ [EvPoll 1])
  /\ (exists s',
        Streaming.speak_streaming_async (studio a_question always_timeout)
          three_polls (init_state [])
        = (Ret Waiting, s')
        /\ trace s'
           = trace (init_state [])
             ++ flat_map (turn_events (studio a_question always_timeout))
                  three_polls)
  /\ synth_texts
       (flat_map (turn_events (studio a_question always_timeout)) three_polls)
     = filter (fun c => truthy (strip c)
                        && tempfile_ok (studio a_question always_timeout) c)
         (queued_chunks three_polls).
Proof.
  apply C7_streaming_narration_in_order.
  intros [H | [H | [H | []]]]; discriminate H.
Defined.

(** The same run, spelled out: two chunks around a timeout, the end signal,
    and a chunk behind it that is never read. *)
Example streaming_trace :
  trace (snd (Streaming.speak_streaming_async (studio a_question always_timeout)
                (three_polls ++ PollItem None :: [PollItem (Some (lit "Late."))])
                (init_state [])))
  = [EvPoll 1; EvTempFile mp3_path; EvSynth (lit "Hi.") mp3_path; EvPlay mp3_path;
     EvPoll 1;
     EvPoll 1; EvTempFile mp3_path; EvSynth (lit "Bye.") mp3_path; EvPlay mp3_path;
     EvPoll 1].
Proof. vm_compute. reflexivity. Qed.

(** ** Further observations on the code *)

(** When the recording yields no data, [record_audio_async] returns [None]
    and the temp file it created stays; when writing the recording fails, the
    [except] branch removes the file. *)
Example record_without_data_keeps_temp_file :
  let lost := AudioProcessor.record_audio_async no_microphone 5 None (init_state []) in
  let failed := AudioProcessor.record_audio_async disk_full 5 None (init_state []) in
  fst lost = Ret None
  /\ fs (snd lost) = [wav_path]
  /\ trace (snd lost) = [EvTempFile wav_path; EvRecord 5]
  /\ fst failed = Ret None
  /\ fs (snd failed) = []
  /\ trace (snd failed)
     = [EvTempFile wav_path; EvRecord 5; EvWriteWav wav_path; EvRemove wav_path].
Proof. vm_compute. repeat split. Qed.

(** Without a context ([self.context] is [None]) the pipeline never reaches
    the service: [len(context)] raises in [_build_prompt] and the pipeline
    records the unexpected error. *)
Example missing_context_is_an_unexpected_error :
  let run := EchoLearnAssistant.process_question_async
               (studio a_question always_timeout) None 5 (init_state []) in
  fst run
  = EchoLearnAssistant.mkResult false (lit "What is light?") []
      ["recording"; "transcription"]%string
      [lit "Unexpected error: object of type 'NoneType' has no len()"]
  /\ generate_calls (trace (snd run)) = [].
Proof. vm_compute. split; reflexivity. Qed.

(** * Further properties of the code *)

(** ** [strip] and the sentence terminators *)

Lemma lstrip_head : forall s c r, lstrip s = c :: r -> isspace c = false.
Proof.
  induction s as [|a s IH]; intros c r H; simpl in H; [discriminate|].
  destruct (isspace a) eqn:E; [eauto|]. now injection H as <- _.
Qed.

Lemma lstrip_snoc : forall l c,
  isspace c = false -> lstrip (l ++ [c]) = lstrip l ++ [c].
Proof.
  induction l as [|a l IH]; intros c H; simpl.
  - now rewrite H.
  - destruct (isspace a); [now apply IH | reflexivity].
Qed.

Lemma lstrip_fixed : forall s,
  (forall c r, s = c :: r -> isspace c = false) -> lstrip s = s.
Proof.
  intros [|c r] H; [reflexivity|]. simpl. now rewrite (H c r eq_refl).
Qed.

Lemma rstrip_cons : forall c r,
  isspace c = false -> rstrip (c :: r) = c :: rstrip r.
Proof.
  intros c r H. unfold rstrip. simpl.
  rewrite (@lstrip_snoc (rev r) c H), rev_app_distr. reflexivity.
Qed.

Lemma strip_head : forall s c r, strip s = c :: r -> isspace c = false.
Proof.
  intros s c r H. unfold strip in H.
  destruct (lstrip s) as [|a y] eqn:L; [discriminate H|].
  pose proof (@lstrip_head s a y L) as Ha.
  rewrite (@rstrip_cons a y Ha) in H. now injection H as <- _.
Qed.

Lemma rstrip_fixed : forall s,
  (forall c r, rev s = c :: r -> isspace c = false) -> rstrip s = s.
Proof.
  intros s H. unfold rstrip. rewrite (@lstrip_fixed (rev s) H). apply rev_involutive.
Qed.

Lemma rstrip_idempotent : forall s, rstrip (rstrip s) = rstrip s.
Proof.
  intros s. apply rstrip_fixed. intros c r H. unfold rstrip in H.
  rewrite rev_involutive in H. exact (@lstrip_head _ c r H).
Qed.

Lemma strip_idempotent : forall s, strip (strip s) = strip s.
Proof.
  intros s. unfold strip at 1.
  rewrite (@lstrip_fixed (strip s)) by (intros c r H; exact (@strip_head s c r H)).
  unfold strip. apply rstrip_idempotent.
Qed.

Lemma startswith_single : forall p s,
  startswith s [p] = match s with c :: _ => N.eqb p c | [] => false end.
Proof.
  intros p [|c s]; [reflexivity|]. simpl.
  destruct s; now rewrite ?andb_true_r.
Qed.

Lemma str_in_single : forall p s, str_in [p] s = existsb (N.eqb p) s.
Proof.
  induction s as [|c s IH]; [reflexivity|].
  cbn [str_in existsb]. now rewrite startswith_single, IH.
Qed.

Lemma has_terminator_chars : forall b,
  has_terminator b = existsb is_terminator b.
Proof.
  intros b. unfold has_terminator. cbn [lit existsb list_ascii_of_string map].
  rewrite !str_in_single, orb_false_r.
  induction b as [|c b IH]; [reflexivity|].
  cbn [existsb]. rewrite <- IH. unfold is_terminator.
  change (N_of_ascii "."%char) with 46%N.
  change (N_of_ascii "!"%char) with 33%N.
  change (N_of_ascii "?"%char) with 63%N.
  rewrite (N.eqb_sym c 46), (N.eqb_sym c 33), (N.eqb_sym c 63).
  destruct (46 =? c)%N, (33 =? c)%N, (63 =? c)%N,
    (existsb (N.eqb 46) b), (existsb (N.eqb 33) b), (existsb (N.eqb 63) b);
    reflexivity.
Qed.

Lemma has_terminator_app : forall a b,
  has_terminator (a ++ b) = has_terminator a || has_terminator b.
Proof.
  intros a b. rewrite !has_terminator_chars. apply existsb_app.
Qed.

Lemma terminator_not_space : forall c, is_terminator c = true -> isspace c = false.
Proof.
  intros c H. unfold is_terminator in H.
  apply orb_true_iff in H as [H | H]; [apply orb_true_iff in H as [H | H]|];
    apply N.eqb_eq in H; subst c; reflexivity.
Qed.

Lemma existsb_squeeze : forall s,
  existsb is_terminator (squeeze s) = existsb is_terminator s.
Proof.
  induction s as [|c s IH]; [reflexivity|].
  unfold squeeze in *. cbn [filter existsb].
  destruct (isspace c) eqn:E; cbn [negb existsb]; rewrite IH.
  - destruct (is_terminator c) eqn:T; [|reflexivity].
    rewrite (@terminator_not_space c T) in E. discriminate.
  - reflexivity.
Qed.

Lemma has_terminator_strip : forall b, has_terminator (strip b) = has_terminator b.
Proof.
  intros b. rewrite !has_terminator_chars.
  now rewrite <- (existsb_squeeze (strip b)), squeeze_strip, existsb_squeeze.
Qed.

(** ** The shape of the chunks of [_generate_response] *)

Lemma consume_segments_shape : forall cs full buffer s,
  has_terminator buffer = false ->
  exists segs rest,
    GemmaClient.consume true cs full buffer s
    = (Ret (full ++ tokens_of cs, rest),
       add_events (map EvCallback (filter truthy (map strip segs))) s)
    /\ buffer ++ tokens_of cs = concat segs ++ rest
    /\ Forall (fun g => has_terminator g = true) segs
    /\ has_terminator rest = false.
Proof.
  induction cs as [|c cs IH]; intros full buffer s Clean.
  - exists [], buffer. simpl. unfold tokens_of, ret. simpl.
    rewrite !app_nil_r, add_events_nil. repeat split; auto.
  - simpl. unfold tokens_of. simpl. fold (tokens_of cs).
    destruct (chunk_get_response c) as [|t0 tk] eqn:T; simpl.
    + now apply IH.
    + destruct (has_terminator (buffer ++ t0 :: tk)) eqn:H.
      * destruct (IH ((full ++ t0 :: tk)) [] (add_events
          (map EvCallback (filter truthy [strip (buffer ++ t0 :: tk)])) s)
          eq_refl) as (segs & rest & E & P & F & R).
        exists ((buffer ++ t0 :: tk) :: segs), rest. repeat split.
        -- erewrite bind_run by apply flush_events.
           rewrite E, add_events_app, <- app_assoc. simpl.
           repeat f_equal.
           destruct (truthy (strip (buffer ++ t0 :: tk))); reflexivity.
        -- simpl in P. simpl. rewrite <- !app_assoc. simpl. now rewrite P.
        -- constructor; assumption.
        -- exact R.
      * destruct (IH (full ++ t0 :: tk) (buffer ++ t0 :: tk) s H)
          as (segs & rest & E & P & F & R).
        exists segs, rest. repeat split; trivial.
        -- rewrite E, <- app_assoc. reflexivity.
        -- rewrite <- P, <- app_assoc. reflexivity.
Qed.

Lemma flushed_chunks_shape : forall segs,
  Forall (fun g => has_terminator g = true) segs ->
  Forall (fun c => c <> [] /\ strip c = c /\ has_terminator c = true)
         (filter truthy (map strip segs)).
Proof.
  induction 1 as [|g segs Hg _ IH]; [constructor|].
  cbn [map filter]. destruct (strip g) as [|c0 r] eqn:E; cbn [truthy]; [exact IH|].
  constructor; [|exact IH]. rewrite <- E. repeat split.
  - rewrite E. discriminate.
  - apply strip_idempotent.
  - now rewrite has_terminator_strip.
Qed.

(** X1: every chunk the callback receives is non-empty and has no leading or
    trailing whitespace.  The chunks flushed while the stream runs each contain
    a sentence terminator; a stream consumed to its end may add one last chunk
    without any, and a stream cut by an exception or the deadline adds none:
    what was in the buffer then is never handed over. *)
Theorem X1_chunks_are_trimmed_sentences :
  forall (service : nat -> str -> Z -> service_reply) attempt prompt timeout s,
    exists flushed final,
      snd (GemmaClient._generate_response service attempt prompt timeout true s)
      = add_events (EvGenerate prompt :: map EvCallback (flushed ++ final)) s
      /\ Forall (fun c => c <> [] /\ strip c = c /\ has_terminator c = true) flushed
      /\ (final = []
          \/ exists c, final = [c] /\ c <> [] /\ strip c = c
                       /\ has_terminator c = false)
      /\ (ending (service attempt prompt timeout) <> None -> final = []).
Proof.
  intros service attempt prompt timeout s.
  destruct (consume_segments_shape (delivered (service attempt prompt timeout))
              [] [] (add_events [EvGenerate prompt] s) eq_refl)
    as (segs & rest & E & _ & F & R).
  unfold GemmaClient._generate_response.
  erewrite bind_run by apply emit_run.
  erewrite bind_run by exact E.
  destruct (ending (service attempt prompt timeout)) as [e|].
  - exists (filter truthy (map strip segs)), []. repeat split.
    + unfold raise. cbn [snd]. now rewrite add_events_app, app_nil_r.
    + now apply flushed_chunks_shape.
    + now left.
  - exists (filter truthy (map strip segs)), (filter truthy [strip rest]).
    repeat split.
    + cbn [fst snd andb]. erewrite bind_run by apply flush_events.
      unfold ret. cbn [snd]. rewrite !add_events_app, map_app. reflexivity.
    + now apply flushed_chunks_shape.
    + cbn [filter]. destruct (strip rest) as [|c0 r] eqn:S0; cbn [truthy];
        [now left | right].
      exists (c0 :: r). rewrite <- S0. repeat split.
      * rewrite S0. discriminate.
      * apply strip_idempotent.
      * now rewrite has_terminator_strip.
    + intros C. now contradiction C.
Qed.

(** ** Chunks without text *)

Lemma consume_skips_empty : forall cb cs full buffer s,
  GemmaClient.consume cb (without_empty_chunks cs) full buffer s
  = GemmaClient.consume cb cs full buffer s.
Proof.
  intros cb. induction cs as [|c cs IH]; intros full buffer s; [reflexivity|].
  cbn [without_empty_chunks filter]. fold (without_empty_chunks cs).
  destruct (truthy (chunk_get_response c)) eqn:T.
  - cbn [GemmaClient.consume]. rewrite T. cbn [negb].
    destruct (cb && has_terminator (buffer ++ chunk_get_response c)).
    + unfold bind.
      destruct ((if truthy (strip (buffer ++ chunk_get_response c))
                 then emit (EvCallback (strip (buffer ++ chunk_get_response c)))
                 else ret tt) s) as [[u|e] s1]; [apply IH | reflexivity].
    + apply IH.
  - cbn [GemmaClient.consume]. rewrite T. cbn [negb]. apply IH.
Qed.

(** X2: chunks of the stream that have no ["response"] key, or an empty one,
    change nothing: the run on the stream with them taken out returns the same
    answer and leaves the same state, callbacks included. *)
Theorem X2_empty_chunks_are_ignored :
  forall (service : nat -> str -> Z -> service_reply) attempt prompt timeout cb s,
    GemmaClient._generate_response
      (fun a p t => mkReply (without_empty_chunks (delivered (service a p t)))
                            (ending (service a p t)))
      attempt prompt timeout cb s
    = GemmaClient._generate_response service attempt prompt timeout cb s.
Proof.
  intros service attempt prompt timeout cb s.
  unfold GemmaClient._generate_response. cbn [delivered ending].
  unfold bind. destruct (emit (EvGenerate prompt) s) as [[u|e] s1]; [|reflexivity].
  now rewrite consume_skips_empty.
Qed.

(** ** The budget of the retry loop *)

Lemma sleeps_app : forall a b, sleeps (a ++ b) = sleeps a ++ sleeps b.
Proof.
  induction a as [|e a IH]; intros b; [reflexivity|].
  destruct e; simpl; rewrite ?IH; reflexivity.
Qed.

Lemma callbacks_app : forall a b, callbacks (a ++ b) = callbacks a ++ callbacks b.
Proof.
  induction a as [|e a IH]; intros b; [reflexivity|].
  destruct e; simpl; rewrite ?IH; reflexivity.
Qed.

Lemma callbacks_only : forall cs,
  callbacks (map EvCallback cs) = cs
  /\ generate_calls (map EvCallback cs) = []
  /\ sleeps (map EvCallback cs) = [].
Proof.
  induction cs as [|c cs (IH1 & IH2 & IH3)]; [repeat split|].
  simpl. rewrite IH1. repeat split; assumption.
Qed.

(** The measures of one pass of the loop. *)
Lemma attempt_once_measures :
  forall (service : nat -> str -> Z -> service_reply) attempt prompt timeout cb s,
    (0 < timeout)%Z ->
    exists evs,
      GemmaClient.attempt_once service attempt prompt timeout cb s
      = (Ret (fst (pass_verdict attempt (service attempt prompt timeout))),
         add_events evs s)
      /\ generate_calls evs = [prompt]
      /\ sleeps evs = sleeps (snd (pass_verdict attempt
                                     (service attempt prompt timeout)))
      /\ (cb = false -> callbacks evs = []).
Proof.
  intros service attempt prompt timeout cb s Pos.
  destruct (attempt_once_run service attempt prompt cb s Pos)
    as (chunks & E & N & _).
  destruct (callbacks_only chunks) as (C1 & C2 & C3).
  assert (V : generate_calls (snd (pass_verdict attempt
                (service attempt prompt timeout))) = []
              /\ callbacks (snd (pass_verdict attempt
                   (service attempt prompt timeout))) = []).
  { unfold pass_verdict.
    destruct (ending (service attempt prompt timeout));
      [destruct (attempt <? GemmaClient.max_retries - 1)|]; split; reflexivity. }
  destruct V as [V1 V2].
  eexists. split; [exact E|]. repeat split.
  - cbn [generate_calls]. now rewrite generate_calls_app, C2, V1.
  - cbn [sleeps]. now rewrite sleeps_app, C3.
  - intros F. cbn [callbacks]. rewrite callbacks_app, C1, V2, (N F). reflexivity.
Qed.





(** ** The first usable response ends the loop *)

Lemma retry_loop_first_success :
  forall (service : nat -> str -> Z -> service_reply) prompt timeout cb k,
    (0 < timeout)%Z ->
    k < GemmaClient.max_retries ->
    ending (service k prompt timeout) = None ->
    strip (tokens_of (delivered (service k prompt timeout))) <> [] ->
    forall remaining attempt s,
      attempt <= k -> k < attempt + remaining ->
      (forall i, attempt <= i < k ->
         ending (service i prompt timeout) <> None
         \/ strip (tokens_of (delivered (service i prompt timeout))) = []) ->
      exists evs,
        GemmaClient.retry_loop service remaining attempt prompt timeout cb s
        = (Ret (strip (tokens_of (delivered (service k prompt timeout)))),
           add_events evs s)
        /\ generate_calls evs = repeat prompt (S k - attempt).
Proof.
  intros service prompt timeout cb k Pos Lk End NonBlank.
  induction remaining as [|n IH]; intros attempt s Le Lt Before; [lia|].
  destruct (attempt_once_measures service attempt prompt cb s Pos)
    as (evs & E & G & _).
  cbn [GemmaClient.retry_loop]. erewrite bind_run by exact E.
  destruct (Nat.eq_dec attempt k) as [-> | Ne].
  - unfold pass_verdict. rewrite End. cbn [fst].
    destruct (strip (tokens_of (delivered (service k prompt timeout))))
      as [|c0 r] eqn:S0; [contradiction|]. cbn [truthy].
    exists evs. split; [reflexivity|].
    rewrite G. replace (S k - k) with 1 by lia. reflexivity.
  - assert (V : fst (pass_verdict attempt (service attempt prompt timeout)) = None).
    { unfold pass_verdict.
      destruct (Before attempt ltac:(lia)) as [Fail | Blank].
      - destruct (ending (service attempt prompt timeout)) as [e|];
          [|contradiction].
        destruct (Nat.ltb_spec attempt (GemmaClient.max_retries - 1));
          [reflexivity | unfold GemmaClient.max_retries in *; lia].
      - destruct (ending (service attempt prompt timeout)) as [e|].
        + destruct (Nat.ltb_spec attempt (GemmaClient.max_retries - 1));
            [reflexivity | unfold GemmaClient.max_retries in *; lia].
        + cbn [fst]. rewrite Blank. reflexivity. }
    rewrite V.
    destruct (IH (S attempt) (add_events evs s)) as (evs' & E' & G');
      [lia | lia | intros i Hi; apply Before; lia |].
    exists (evs ++ evs'). split.
    + rewrite E', add_events_app. reflexivity.
    + rewrite generate_calls_app, G, G'.
      replace (S k - attempt) with (S (S k - S attempt)) by lia. reflexivity.
Qed.

(** X4: if, under a positive timeout (under any other no attempt completes),
    the attempt numbered [k] (0, 1 or 2) is the first to complete with a
    non-blank response, every earlier one having failed or come back blank,
    [ask_question_async] returns that response stripped and has called the
    service exactly [k + 1] times. *)
Theorem X4_first_usable_response_wins :
  forall (service : nat -> str -> Z -> service_reply) question context timeout cb s k,
    let prompt := GemmaClient._build_prompt question context in
    (0 < timeout)%Z ->
    k < 3 ->
    ending (service k prompt timeout) = None ->
    strip (tokens_of (delivered (service k prompt timeout))) <> [] ->
    (forall i, i < k ->
       ending (service i prompt timeout) <> None
       \/ strip (tokens_of (delivered (service i prompt timeout))) = []) ->
    exists evs,
      GemmaClient.ask_question_async service question context timeout cb s
      = (Ret (strip (tokens_of (delivered (service k prompt timeout)))),
         add_events evs s)
      /\ generate_calls evs = repeat prompt (S k).
Proof.
  intros service question context timeout cb s k prompt Pos Lk End NonBlank Before.
  destruct (@retry_loop_first_success service prompt timeout cb k Pos Lk End
              NonBlank GemmaClient.max_retries 0 s) as (evs & E & G).
  - lia.
  - exact Lk.
  - intros i Hi. apply Before. lia.
  - exists evs. split; [exact E|]. rewrite G. now rewrite Nat.sub_0_r.
Qed.

Lemma X4_first_usable_response_wins_witness :
  exists evs,
    GemmaClient.ask_question_async third_time_lucky (lit "What is light?")
      a_context 30 true (init_state [])
    = (Ret (strip (tokens_of [Some (lit "Light.")])),
       add_events evs (init_state []))
    /\ generate_calls evs = repeat a_prompt 3.
Proof.
  apply (@X4_first_usable_response_wins third_time_lucky (lit "What is light?")
           a_context 30%Z true (init_state []) 2).
  - lia.
  - lia.
  - reflexivity.
  - vm_compute. discriminate.
  - intros i Hi. destruct i as [|[|i]].
    + left. discriminate.
    + right. reflexivity.
    + lia.
Defined.

(** ** What a retry does to the sentences already handed over *)

(** X5: when, under a positive timeout (under any other no attempt starts),
    the first attempt is cut by an exception or the deadline and the second
    completes with a non-blank response, the callback receives the
    sentences flushed from the first attempt, then, after the 1.0s sleep and
    the second call, every chunk of the second attempt; the answer returned is
    that of the second attempt alone.  Nothing handed over during the failed
    attempt is taken back. *)
Theorem X5_retry_repeats_flushed_sentences :
  forall (service : nat -> str -> Z -> service_reply) question context timeout s e,
    let prompt := GemmaClient._build_prompt question context in
    let first := service 0 prompt timeout in
    let second := service 1 prompt timeout in
    (0 < timeout)%Z ->
    ending first = Some e ->
    ending second = None ->
    strip (tokens_of (delivered second)) <> [] ->
    exists segs0 rest0 segs1,
      tokens_of (delivered first) = concat segs0 ++ rest0
      /\ has_terminator rest0 = false
      /\ concat segs1 = tokens_of (delivered second)
      /\ GemmaClient.ask_question_async service question context timeout true s
         = (Ret (strip (tokens_of (delivered second))),
            add_events
              (EvGenerate prompt
               :: map EvCallback (filter truthy (map strip segs0))
               ++ EvSleep 1
               :: EvGenerate prompt
               :: map EvCallback (filter truthy (map strip segs1))) s).
Proof.
  intros service question context timeout s e prompt first second
    Pos Cut Done NonBlank.
  destruct (consume_segments_shape (delivered first) [] []
              (add_events [EvGenerate prompt] s) eq_refl)
    as (segs0 & rest0 & E0 & P0 & _ & R0).
  set (s1 := add_events
               (EvGenerate prompt
                :: map EvCallback (filter truthy (map strip segs0))
                ++ [EvSleep 1]) s).
  destruct (generate_complete service 1 prompt timeout s1 Done)
    as (segs1 & Cut1 & Run1 & _).
  cbv zeta in Cut1, Run1. fold second in Cut1, Run1.
  exists segs0, rest0, segs1. repeat split; trivial.
  unfold GemmaClient.ask_question_async. fold prompt.
  cbn [GemmaClient.retry_loop GemmaClient.max_retries].
  assert (Once0 : GemmaClient.attempt_once service 0 prompt timeout true s
                  = (Ret None, s1)).
  { unfold GemmaClient.attempt_once, try_except.
    rewrite (wait_for_positive _ Pos).
    unfold GemmaClient._generate_response. fold first.
    erewrite bind_raise; [|
      erewrite bind_run by apply emit_run;
      erewrite bind_run by exact E0;
      rewrite Cut; reflexivity ].
    subst s1. destruct e; cbn [Nat.ltb Nat.leb GemmaClient.max_retries Nat.sub];
      unfold bind, emit, ret, raise, add_events; cbn [fs temp_files tasks trace];
      rewrite <- !app_assoc; reflexivity. }
  assert (Once1 : GemmaClient.attempt_once service 1 prompt timeout true s1
                  = (Ret (Some (strip (tokens_of (delivered second)))),
                     add_events
                       (EvGenerate prompt
                        :: map EvCallback (filter truthy (map strip segs1))) s1)).
  { unfold GemmaClient.attempt_once, try_except.
    rewrite (wait_for_positive _ Pos).
    erewrite bind_run by exact Run1.
    destruct (strip (tokens_of (delivered second))); [contradiction | reflexivity]. }
  erewrite bind_run by exact Once0. cbv beta iota.
  erewrite bind_run by exact Once1. cbv beta iota.
  unfold ret. subst s1. rewrite add_events_app.
  repeat (rewrite <- ?app_assoc; cbn [app]). reflexivity.
Qed.

Lemma X5_retry_repeats_flushed_sentences_witness :
  exists segs0 rest0 segs1,
    tokens_of [Some (lit "Waves."); Some (lit " And")] = concat segs0 ++ rest0
    /\ has_terminator rest0 = false
    /\ concat segs1 = tokens_of [Some (lit "Waves."); Some (lit " And light.")]
    /\ GemmaClient.ask_question_async cut_then_complete (lit "What is light?")
         a_context 30 true (init_state [])
       = (Ret (strip (tokens_of [Some (lit "Waves."); Some (lit " And light.")])),
          add_events
            (EvGenerate a_prompt
             :: map EvCallback (filter truthy (map strip segs0))
             ++ EvSleep 1
             :: EvGenerate a_prompt
             :: map EvCallback (filter truthy (map strip segs1)))
            (init_state [])).
Proof.
  apply (@X5_retry_repeats_flushed_sentences cut_then_complete
           (lit "What is light?") a_context 30%Z (init_state [])
           TimeoutError).
  - lia.
  - reflexivity.
  - reflexivity.
  - vm_compute. discriminate.
Defined.

(** The same retry, spelled out: "Waves." is handed over twice. *)
Example retry_trace :
  callbacks (trace (snd (GemmaClient.ask_question_async cut_then_complete
                           (lit "What is light?") a_context 30 true
                           (init_state []))))
  = [lit "Waves."; lit "Waves."; lit "And light."].
Proof. vm_compute. reflexivity. Qed.

(** ** The size of the prompt *)

(** X6: the prompt is 174 fixed characters, the question in full, and the
    context, which contributes its own length up to 4000 characters and 4003
    characters beyond that (so a context of 4001 or 4002 characters grows);
    two contexts over the budget that agree on their first 4000 characters
    give the same prompt. *)
Theorem X6_prompt_size_and_reach :
  (forall question context,
     length (GemmaClient._build_prompt question context)
     = 174 + length question
       + (if 4000 <? length context then 4003 else length context))
  /\ (forall question c1 c2,
        4000 < length c1 -> 4000 < length c2 ->
        firstn 4000 c1 = firstn 4000 c2 ->
        GemmaClient._build_prompt question c1
        = GemmaClient._build_prompt question c2).
Proof.
  split.
  - intros question context. unfold GemmaClient._build_prompt.
    unfold GemmaClient.max_context_length.
    rewrite !length_app.
    change (length GemmaClient.prompt_head) with 129.
    change (length GemmaClient.prompt_mid) with 12.
    change (length GemmaClient.prompt_tail) with 33.
    destruct (Nat.ltb_spec 4000 (length context)) as [Long|Short]; [|lia].
    rewrite length_app, firstn_length_le by lia.
    change (length (lit "...")) with 3. lia.
  - intros question c1 c2 L1 L2 Same. unfold GemmaClient._build_prompt.
    unfold GemmaClient.max_context_length.
    apply Nat.ltb_lt in L1, L2. rewrite L1, L2, Same. reflexivity.
Qed.

Lemma X6_prompt_size_and_reach_witness :
  GemmaClient._build_prompt (lit "Why?") long_context_a
  = GemmaClient._build_prompt (lit "Why?") long_context_b.
Proof.
  apply (proj2 X6_prompt_size_and_reach).
  - unfold long_context_a. rewrite length_app, repeat_length. simpl. lia.
  - unfold long_context_b. rewrite length_app, repeat_length. simpl. lia.
  - unfold long_context_a, long_context_b.
    rewrite !firstn_app, !repeat_length, Nat.sub_diag.
    reflexivity.
Defined.

(** ** The legacy [ask_gemma]: what is never spoken *)

Lemma legacy_consume_quiet : forall tail buffer spoken s,
  has_terminator (buffer ++ tokens_of tail) = false ->
  Legacy.consume tail buffer spoken s = (Ret spoken, s).
Proof.
  induction tail as [|c tail IH]; intros buffer spoken s H; [reflexivity|].
  cbn [Legacy.consume]. unfold tokens_of in H. cbn [map concat] in H.
  fold (tokens_of tail) in H. rewrite app_assoc in H.
  assert (Hb : has_terminator (buffer ++ chunk_get_response c) = false).
  { rewrite has_terminator_app in H. now apply orb_false_iff in H as [Hb _]. }
  rewrite Hb. now apply IH.
Qed.

Lemma legacy_consume_tail : forall cs tail buffer spoken s,
  has_terminator (tokens_of tail) = false ->
  has_terminator buffer = false ->
  Legacy.consume (cs ++ tail) buffer spoken s = Legacy.consume cs buffer spoken s.
Proof.
  induction cs as [|c cs IH]; intros tail buffer spoken s Ht Hb.
  - cbn [app Legacy.consume]. apply legacy_consume_quiet.
    now rewrite has_terminator_app, Hb, Ht.
  - cbn [app Legacy.consume].
    destruct (has_terminator (buffer ++ chunk_get_response c)) eqn:H.
    + unfold bind. cbn [emit]. now apply IH.
    + now apply IH.
Qed.

(** X7: the legacy [ask_gemma] never speaks or returns what follows the last
    flush: tokens at the end of the stream that hold no sentence terminator
    leave the run exactly as if they had not been sent.  In particular an
    answer without any terminator is answered by the empty string and
    silence. *)
Theorem X7_legacy_drops_unterminated_tail :
  forall cs tail question context s,
    has_terminator (tokens_of tail) = false ->
    Legacy.ask_gemma (fun _ => mkReply (cs ++ tail) None) question context s
    = Legacy.ask_gemma (fun _ => mkReply cs None) question context s.
Proof.
  intros cs tail question context s H.
  unfold Legacy.ask_gemma, try_except, bind. cbn [delivered ending emit].
  now rewrite legacy_consume_tail.
Qed.

Lemma X7_legacy_drops_unterminated_tail_witness :
  Legacy.ask_gemma
    (fun _ => mkReply ([Some (lit "Waves.")] ++ [Some (lit " And"); Some (lit " light")])
                      None)
    (lit "What is light?") a_context (init_state [])
  = Legacy.ask_gemma (fun _ => mkReply [Some (lit "Waves.")] None)
      (lit "What is light?") a_context (init_state []).
Proof.
  apply X7_legacy_drops_unterminated_tail. reflexivity.
Defined.

(** ** The legacy [ask_gemma]: a sentence that comes again *)

Lemma startswith_refl : forall t, startswith t t = true.
Proof.
  induction t as [|c t IH]; [reflexivity|]. simpl. now rewrite N.eqb_refl.
Qed.

Lemma replace_from_skipped : forall old new s skip,
  length s <= skip -> replace_from old new s skip = [].
Proof.
  intros old new. induction s as [|c s IH]; intros skip H; [reflexivity|].
  simpl in H. destruct skip as [|k]; [lia|]. simpl. apply IH. lia.
Qed.

Lemma replace_self : forall t, t <> [] -> replace t t [] = [].
Proof.
  intros [|c t] H; [contradiction|].
  unfold replace. cbn [replace_from]. rewrite startswith_refl.
  cbn [app length Nat.sub]. apply replace_from_skipped. lia.
Qed.

Lemma replace_nothing : forall t, replace t [] [] = t.
Proof.
  intros t. unfold replace. rewrite app_nil_r.
  induction t as [|c t IH]; [reflexivity|]. cbn [flat_map app]. now f_equal.
Qed.

Lemma legacy_consume_repeats : forall u cs s,
  u <> [] -> has_terminator u = true ->
  Forall (fun c => strip (chunk_get_response c) = u) cs ->
  Legacy.consume cs [] u s
  = (Ret u, add_events (repeat (EvSpeakThread []) (length cs)) s).
Proof.
  intros u cs s NE Term All. revert s.
  induction All as [|c cs Hc _ IH]; intros s.
  - cbn [Legacy.consume length repeat]. unfold ret. now rewrite add_events_nil.
  - cbn [Legacy.consume app].
    rewrite <- (has_terminator_strip (chunk_get_response c)), Hc, Term.
    rewrite (replace_self NE), app_nil_r.
    erewrite bind_run by apply emit_run.
    rewrite IH, add_events_app. reflexivity.
Qed.

(** X8: when every token of the stream is the same terminated sentence, up to
    surrounding whitespace, the legacy [ask_gemma] speaks it once, hands the
    empty string to the speech thread for each repetition, and returns the
    sentence once, however often it was generated. *)
Theorem X8_legacy_speaks_repeated_sentence_once :
  forall u c cs question context s,
    u <> [] -> has_terminator u = true ->
    Forall (fun c => strip (chunk_get_response c) = u) (c :: cs) ->
    let run := Legacy.ask_gemma (fun _ => mkReply (c :: cs) None)
                 question context s in
    fst run = Ret u
    /\ spoken_texts (trace (snd run))
       = spoken_texts (trace s) ++ u :: repeat [] (length cs).
Proof.
  intros u c cs question context s NE Term All run. subst run.
  inversion All as [|c' cs' Hc Hcs]; subst.
  unfold Legacy.ask_gemma, try_except. cbn [delivered ending].
  erewrite bind_run by apply emit_run.
  assert (E : Legacy.consume (c :: cs) [] []
                (add_events
                   [EvGenerate (Legacy.prompt_head ++ context ++ Legacy.prompt_mid
                                ++ question ++ Legacy.prompt_tail)] s)
              = (Ret (strip (chunk_get_response c)),
                 add_events
                   (EvGenerate (Legacy.prompt_head ++ context ++ Legacy.prompt_mid
                                ++ question ++ Legacy.prompt_tail)
                    :: EvSpeakThread (strip (chunk_get_response c))
                    :: repeat (EvSpeakThread []) (length cs)) s)).
  { cbn [Legacy.consume app].
    rewrite <- (has_terminator_strip (chunk_get_response c)), Term.
    rewrite replace_nothing. cbn [app].
    erewrite bind_run by apply emit_run.
    rewrite (legacy_consume_repeats _ NE Term Hcs), !add_events_app.
    reflexivity. }
  erewrite bind_run by exact E. unfold ret, add_events. cbn [fst snd trace]. split.
  - reflexivity.
  - assert (R : forall n, spoken_texts (repeat (EvSpeakThread []) n) = repeat [] n).
    { induction n as [|n IHn]; [reflexivity|]. simpl. now rewrite IHn. }
    assert (A : forall a b, spoken_texts (a ++ b) = spoken_texts a ++ spoken_texts b).
    { induction a as [|e a IHa]; intros b; [reflexivity|].
      destruct e; simpl; rewrite ?IHa; reflexivity. }
    rewrite A. cbn [spoken_texts]. now rewrite R.
Qed.

Lemma X8_legacy_speaks_repeated_sentence_once_witness :
  let run := Legacy.ask_gemma
               (fun _ => mkReply [Some (lit "Yes."); Some (lit " Yes.");
                                  Some (lit " Yes. ")] None)
               (lit "Sure?") a_context (init_state []) in
  fst run = Ret (lit "Yes.")
  /\ spoken_texts (trace (snd run))
     = spoken_texts (trace (init_state [])) ++ lit "Yes." :: repeat [] 2.
Proof.
  apply (@X8_legacy_speaks_repeated_sentence_once (lit "Yes.")).
  - discriminate.
  - reflexivity.
  - repeat constructor.
Defined.

(** ** Transcription: the text returned and the missing file *)

Lemma heard_text_trimmed : forall w audio_file present,
  strip (heard_text w audio_file present) = heard_text w audio_file present.
Proof.
  intros w audio_file present. unfold heard_text.
  destruct present; [|reflexivity].
  destruct (executor_fault w); [reflexivity|].
  destruct (whisper w audio_file) as [[|[t|]]|e]; try reflexivity.
  apply strip_idempotent.
Qed.

(** X9: whatever the recognizer returns, the text [transcribe_audio_async]
    hands back has no leading or trailing whitespace: stripping it again
    changes nothing. *)
Theorem X9_transcription_is_trimmed : forall w audio_file s,
  exists text s',
    AudioProcessor.transcribe_audio_async w audio_file s = (Ret text, s')
    /\ strip text = text.
Proof.
  intros w audio_file s.
  destruct (transcribe_audio_async_run w audio_file s) as (evs & E & _).
  eexists _, _. split; [exact E|]. apply heard_text_trimmed.
Qed.

(** X10: for a path that does not exist [transcribe_audio_async] returns the
    empty string and leaves the state untouched: the recognizer is not
    called and nothing is removed. *)
Theorem X10_missing_audio_file_is_noop : forall w audio_file s,
  existsb (str_eqb audio_file) (fs s) = false ->
  AudioProcessor.transcribe_audio_async w audio_file s = (Ret [], s).
Proof.
  intros w audio_file [files tf tk tr] Missing. cbn [fs] in Missing.
  unfold AudioProcessor.transcribe_audio_async, AudioProcessor.cleanup_audio_file,
    try_finally, try_except, bind, path_exists, ret.
  cbn [fs]. rewrite Missing. cbn [negb]. cbn [fs]. rewrite Missing. reflexivity.
Qed.

Lemma X10_missing_audio_file_is_noop_witness :
  AudioProcessor.transcribe_audio_async (studio a_question always_timeout)
    wav_path (init_state [mp3_path])
  = (Ret [], init_state [mp3_path]).
Proof.
  apply X10_missing_audio_file_is_noop. reflexivity.
Defined.

(** ** Recording: what happens to the temp file when it fails *)

(** X11: with a temp file created for the recording, [record_audio_async]
    returns [None] in both failure modes but treats the file differently.
    When the device yields no data the file is left in place; when writing
    the samples fails the [except] branch removes it. *)
Theorem X11_record_failure_and_the_temp_file : forall w d s path,
  wav_tempfile w = Ret path ->
  executor_fault w = None ->
  ((exists e, sd_rec w d = Raise e) ->
     AudioProcessor.record_audio_async w d None s
     = (Ret None,
        mkState (path :: fs s) (temp_files s) (tasks s)
                (trace s ++ [EvTempFile path; EvRecord d])))
  /\ ((exists a, sd_rec w d = Ret a) ->
      (exists e, wav_write_fault w path = Some e) ->
      os_remove_fault w path = None ->
      AudioProcessor.record_audio_async w d None s
      = (Ret None,
         mkState (filter (fun q => negb (str_eqb path q)) (fs s))
                 (temp_files s) (tasks s)
                 (trace s ++ [EvTempFile path; EvRecord d;
                              EvWriteWav path; EvRemove path]))).
Proof.
  intros w d [files tf tk tr] path Tmp Exec.
  unfold AudioProcessor.record_audio_async, AudioProcessor._record_audio_sync,
    named_temporary_file, run_in_executor, os_remove, lift_fault,
    try_except, bind, path_exists, emit, fs_add, fs_del, ret, raise.
  rewrite Tmp, Exec. split.
  - intros [e Rec]. rewrite Rec. cbn [fs temp_files tasks trace].
    now rewrite <- app_assoc.
  - intros [a Rec] [e Wr] Rm. rewrite Rec, Wr. cbn [fs temp_files tasks trace].
    cbn [existsb]. rewrite str_eqb_refl. cbn [orb].
    rewrite Rm. cbn [fs temp_files tasks trace filter].
    rewrite str_eqb_refl. cbn [negb].
    now rewrite <- !app_assoc.
Qed.

Lemma X11_record_failure_and_the_temp_file_witness :
  AudioProcessor.record_audio_async no_microphone 5 None (init_state [])
  = (Ret None,
     mkState [wav_path] [] [] ([] ++ [EvTempFile wav_path; EvRecord 5]))
  /\ AudioProcessor.record_audio_async disk_full 5 None (init_state [])
     = (Ret None,
        mkState [] [] []
                ([] ++ [EvTempFile wav_path; EvRecord 5;
                        EvWriteWav wav_path; EvRemove wav_path])).
Proof.
  split.
  - apply (proj1 (@X11_record_failure_and_the_temp_file no_microphone 5%Z
                    (init_state []) wav_path eq_refl eq_refl)).
    exists refused. reflexivity.
  - apply (proj2 (@X11_record_failure_and_the_temp_file disk_full 5%Z
                    (init_state []) wav_path eq_refl eq_refl)).
    + exists [0%Z]. reflexivity.
    + exists refused. reflexivity.
    + reflexivity.
Defined.

(** ** Recording and transcription together *)

Lemma filter_out_twice : forall (path : str) files,
  filter (fun q => negb (str_eqb path q)) (path :: path :: files)
  = filter (fun q => negb (str_eqb path q)) files.
Proof.
  intros path files. cbn [filter]. now rewrite str_eqb_refl.
Qed.

Lemma transcribe_present : forall w audio_file s,
  existsb (str_eqb audio_file) (fs s) = true ->
  executor_fault w = None ->
  AudioProcessor.transcribe_audio_async w audio_file s
  = (Ret (heard_text w audio_file true),
     mkState (if startswith audio_file (gettempdir w)
                 && remove_succeeds w audio_file
              then filter (fun q => negb (str_eqb audio_file q)) (fs s)
              else fs s)
             (temp_files s) (tasks s)
             (trace s ++ EvTranscribe audio_file
              :: if startswith audio_file (gettempdir w)
                 then [EvRemove audio_file] else [])).
Proof.
  intros w audio_file [files tf tk tr] Present Exec. cbn [fs] in Present.
  unfold AudioProcessor.transcribe_audio_async, AudioProcessor.cleanup_audio_file,
    AudioProcessor._transcribe_sync, run_in_executor, os_remove, lift_fault,
    try_finally, try_except, bind, path_exists, emit, fs_del, ret, raise,
    heard_text, remove_succeeds.
  cbn [fs temp_files tasks trace]. rewrite Present, Exec. cbn [negb].
  destruct (whisper w audio_file) as [[|[text|]]|e];
    cbn [fs temp_files tasks trace]; rewrite Present; cbn [andb];
    destruct (startswith audio_file (gettempdir w));
    try destruct (os_remove_fault w audio_file);
    cbn [fs temp_files tasks trace app andb];
    rewrite <- ?app_assoc; reflexivity.
Qed.

(** X12: when the temp file lies under the temp directory and recording,
    writing and [os.remove] all succeed, [_record_and_transcribe_async]
    returns what the recognizer heard, stripped, and ends with the recording
    removed again: five external calls, the last of them the removal. *)
Theorem X12_record_and_transcribe_removes_recording : forall w d s path c p a,
  wav_tempfile w = Ret path ->
  path = c :: p ->
  startswith path (gettempdir w) = true ->
  executor_fault w = None ->
  sd_rec w d = Ret a ->
  wav_write_fault w path = None ->
  os_remove_fault w path = None ->
  AudioWrappers._record_and_transcribe_async w d s
  = (Ret (heard_text w path true),
     mkState (filter (fun q => negb (str_eqb path q)) (fs s))
             (temp_files s) (tasks s)
             (trace s ++ [EvTempFile path; EvRecord d; EvWriteWav path;
                          EvTranscribe path; EvRemove path])).
Proof.
  intros w d [files tf tk tr] path c p a Tmp Shape Under Exec Rec Wr Rm.
  assert (R : AudioProcessor.record_audio_async w d None (mkState files tf tk tr)
              = (Ret (Some path),
                 mkState (path :: path :: files) tf tk
                         (tr ++ [EvTempFile path; EvRecord d; EvWriteWav path]))).
  { unfold AudioProcessor.record_audio_async, AudioProcessor._record_audio_sync,
      named_temporary_file, run_in_executor, lift_fault,
      try_except, bind, emit, fs_add, ret, raise.
    rewrite Tmp, Exec, Rec, Wr. cbn [fs temp_files tasks trace].
    now rewrite <- !app_assoc. }
  unfold AudioWrappers._record_and_transcribe_async.
  erewrite bind_run by exact R.
  assert (T : AudioProcessor.transcribe_audio_async w path
                (mkState (path :: path :: files) tf tk
                   (tr ++ [EvTempFile path; EvRecord d; EvWriteWav path]))
              = (Ret (heard_text w path true),
                 mkState (filter (fun q => negb (str_eqb path q)) files) tf tk
                   (tr ++ [EvTempFile path; EvRecord d; EvWriteWav path;
                           EvTranscribe path; EvRemove path]))).
  { rewrite transcribe_present;
      [| cbn [fs existsb]; now rewrite str_eqb_refl | exact Exec].
    unfold remove_succeeds. rewrite Under, Rm. cbn [andb fs temp_files tasks trace].
    rewrite filter_out_twice, <- app_assoc. reflexivity. }
  subst path. exact T.
Qed.

Lemma X12_record_and_transcribe_removes_recording_witness :
  AudioWrappers._record_and_transcribe_async padded_world 5 (init_state [])
  = (Ret (heard_text padded_world wav_path true),
     mkState (filter (fun q => negb (str_eqb wav_path q)) [])
             [] []
             ([] ++ [EvTempFile wav_path; EvRecord 5; EvWriteWav wav_path;
                     EvTranscribe wav_path; EvRemove wav_path])).
Proof.
  apply (@X12_record_and_transcribe_removes_recording padded_world 5%Z
           (init_state []) wav_path 47%N (lit "tmp/q.wav") [0%Z]);
    reflexivity.
Defined.

Example record_and_transcribe_hears_trimmed :
  fst (AudioWrappers._record_and_transcribe_async padded_world 5 (init_state []))
  = Ret (lit "Is light a wave?").
Proof. vm_compute. reflexivity. Qed.

(** ** The temp files of the synthesizer *)

Lemma filter_absent : forall (p : str) l,
  existsb (str_eqb p) l = false ->
  filter (fun q => negb (str_eqb p q)) l = l.
Proof.
  induction l as [|q l IH]; intros H; [reflexivity|].
  cbn [existsb] in H. apply orb_false_iff in H as [Hq Hl].
  cbn [filter]. rewrite Hq. cbn [negb]. now rewrite IH.
Qed.

Lemma remove_first_absent : forall (p : str) l,
  existsb (str_eqb p) l = false ->
  SpeechSynthesizer.list_remove_first p l = l.
Proof.
  induction l as [|q l IH]; intros H; [reflexivity|].
  cbn [existsb] in H. apply orb_false_iff in H as [Hq Hl].
  cbn [SpeechSynthesizer.list_remove_first]. rewrite Hq. now rewrite IH.
Qed.

Lemma remove_first_appended : forall (p : str) l,
  existsb (str_eqb p) l = false ->
  SpeechSynthesizer.list_remove_first p (l ++ [p]) = l.
Proof.
  induction l as [|q l IH]; intros H.
  - cbn. now rewrite str_eqb_refl.
  - cbn [existsb] in H. apply orb_false_iff in H as [Hq Hl].
    cbn [app SpeechSynthesizer.list_remove_first]. rewrite Hq. now rewrite IH.
Qed.

(** One [_cleanup_temp_file] whose [os.remove] does not fail. *)
Lemma cleanup_temp_file_run : forall w file_path delay s,
  os_remove_fault w file_path = None ->
  SpeechSynthesizer._cleanup_temp_file w file_path delay s
  = (Ret tt,
     mkState (filter (fun q => negb (str_eqb file_path q)) (fs s))
             (SpeechSynthesizer.list_remove_first file_path (temp_files s))
             (tasks s)
             (trace s
              ++ (if SpeechSynthesizer.positive delay then [EvSleep delay] else [])
              ++ (if existsb (str_eqb file_path) (fs s)
                  then [EvRemove file_path] else []))).
Proof.
  intros w file_path delay [files tf tk tr] Rm.
  unfold SpeechSynthesizer._cleanup_temp_file,
    SpeechSynthesizer.temp_files_discard, os_remove, lift_fault,
    try_except, bind, path_exists, emit, fs_del, ret, raise.
  rewrite Rm.
  destruct (SpeechSynthesizer.positive delay); cbn [fs temp_files tasks trace];
    destruct (existsb (str_eqb file_path) files) eqn:Ex;
    cbn [fs temp_files tasks trace];
    destruct (existsb (str_eqb file_path) tf) eqn:Tr;
    cbn [fs temp_files tasks trace app];
    rewrite ?(filter_absent _ _ Ex), ?(remove_first_absent _ _ Tr),
      <- ?app_assoc, ?app_nil_r;
    reflexivity.
Qed.

Lemma generate_audio_ok : forall w text path s,
  mp3_tempfile w text = Ret path ->
  synth_fault w text = None ->
  SpeechSynthesizer._generate_audio_async w text s
  = (Ret (Some path),
     mkState (path :: fs s) (temp_files s ++ [path]) (tasks s)
             (trace s ++ [EvTempFile path; EvSynth text path])).
Proof.
  intros w text path [files tf tk tr] Tmp Syn.
  unfold SpeechSynthesizer._generate_audio_async,
    SpeechSynthesizer.temp_files_append, named_temporary_file, lift_fault,
    try_except, bind, emit, fs_add, ret, raise.
  rewrite Tmp, Syn. cbn [fs temp_files tasks trace]. now rewrite <- app_assoc.
Qed.

Lemma generate_audio_fail : forall w text path e s,
  mp3_tempfile w text = Ret path ->
  synth_fault w text = Some e ->
  SpeechSynthesizer._generate_audio_async w text s
  = (Ret None,
     mkState (path :: fs s) (temp_files s ++ [path]) (tasks s)
             (trace s ++ [EvTempFile path; EvSynth text path])).
Proof.
  intros w text path e [files tf tk tr] Tmp Syn.
  unfold SpeechSynthesizer._generate_audio_async,
    SpeechSynthesizer.temp_files_append, named_temporary_file, lift_fault,
    try_except, bind, emit, fs_add, ret, raise.
  rewrite Tmp, Syn. cbn [fs temp_files tasks trace]. now rewrite <- app_assoc.
Qed.

Lemma play_audio_run : forall w path s,
  existsb (str_eqb path) (fs s) = true ->
  SpeechSynthesizer._play_audio_async w path s
  = (Ret (fst (played w path)), add_events (snd (played w path)) s).
Proof.
  intros w path s Ex.
  unfold SpeechSynthesizer._play_audio_async, SpeechSynthesizer._play_audio_sync,
    run_in_executor, lift_fault, try_except, bind, path_exists, emit, ret, raise,
    played.
  rewrite Ex. cbn [negb].
  destruct (executor_fault w); cbn [fst snd]; [now rewrite add_events_nil|].
  reflexivity.
Qed.

Lemma nonblank_is_truthy : forall text,
  truthy (strip text) = true -> truthy text = true.
Proof. intros [|c r] H; [discriminate H | reflexivity]. Qed.

(** X13: a [speak_async] without cleanup delay whose synthesis succeeds leaves
    no temp file behind: with a fresh temp path and a working [os.remove],
    the file system and the tracking list are on return what they were
    before, and no task is left for the event loop, whether or not the
    playback succeeded. *)
Theorem X13_speak_without_delay_leaves_nothing : forall w text s path c p,
  truthy (strip text) = true ->
  mp3_tempfile w text = Ret path ->
  path = c :: p ->
  synth_fault w text = None ->
  os_remove_fault w path = None ->
  existsb (str_eqb path) (fs s) = false ->
  existsb (str_eqb path) (temp_files s) = false ->
  SpeechSynthesizer.speak_async w text 0 s
  = (Ret (fst (played w path)),
     mkState (fs s) (temp_files s) (tasks s)
             (trace s ++ [EvTempFile path; EvSynth text path]
              ++ snd (played w path) ++ [EvRemove path])).
Proof.
  intros w text [files tf tk tr] path c p NB Tmp Shape Syn Rm FreshF FreshT.
  subst path. cbn [fs temp_files] in FreshF, FreshT.
  unfold SpeechSynthesizer.speak_async.
  rewrite NB, (nonblank_is_truthy text NB). cbn [negb orb].
  unfold try_except.
  erewrite bind_run by (apply generate_audio_ok; eassumption).
  cbn [truthy negb].
  erewrite bind_run
    by (apply play_audio_run; cbn [fs existsb]; now rewrite str_eqb_refl).
  change (SpeechSynthesizer.positive 0) with false. cbv iota.
  erewrite bind_run by (apply cleanup_temp_file_run; exact Rm).
  unfold ret, add_events. cbn [fs temp_files tasks trace existsb filter].
  rewrite str_eqb_refl. cbn [negb orb].
  change (SpeechSynthesizer.positive 0) with false. cbv iota.
  rewrite (filter_absent _ _ FreshF), (remove_first_appended _ _ FreshT).
  rewrite <- !app_assoc. reflexivity.
Qed.

Lemma X13_speak_without_delay_leaves_nothing_witness :
  SpeechSynthesizer.speak_async (studio a_question always_timeout)
    (lit "Hi.") 0 (init_state [wav_path])
  = (Ret (fst (played (studio a_question always_timeout) mp3_path)),
     mkState [wav_path] [] []
             ([] ++ [EvTempFile mp3_path; EvSynth (lit "Hi.") mp3_path]
              ++ snd (played (studio a_question always_timeout) mp3_path)
              ++ [EvRemove mp3_path])).
Proof.
  apply (@X13_speak_without_delay_leaves_nothing
           (studio a_question always_timeout) (lit "Hi.") (init_state [wav_path])
           mp3_path 47%N (lit "tmp/a.mp3"));
    reflexivity.
Defined.

(** X14: a [speak_async] with a positive cleanup delay whose synthesis succeeds
    returns with the temp file still in place and tracked, and with exactly
    one cleanup task for it handed to the event loop; when that task runs it
    sleeps the delay, removes the file and untracks it, so that the file
    system and the tracking list are what they were before the call. *)
Theorem X14_delayed_cleanup_removes_the_file : forall w text delay s path c p,
  SpeechSynthesizer.positive delay = true ->
  truthy (strip text) = true ->
  mp3_tempfile w text = Ret path ->
  path = c :: p ->
  synth_fault w text = None ->
  os_remove_fault w path = None ->
  existsb (str_eqb path) (fs s) = false ->
  existsb (str_eqb path) (temp_files s) = false ->
  let spoken := mkState (path :: fs s) (temp_files s ++ [path])
                        (tasks s ++ [CleanupTask path delay])
                        (trace s ++ [EvTempFile path; EvSynth text path]
                         ++ snd (played w path)) in
  SpeechSynthesizer.speak_async w text delay s = (Ret (fst (played w path)), spoken)
  /\ SpeechCleanup.run_task w (CleanupTask path delay) spoken
     = (Ret tt,
        mkState (fs s) (temp_files s) (tasks spoken)
                (trace spoken ++ [EvSleep delay; EvRemove path])).
Proof.
  intros w text delay [files tf tk tr] path c p Pos NB Tmp Shape Syn Rm
    FreshF FreshT spoken.
  subst path. cbn [fs temp_files] in FreshF, FreshT. split.
  - unfold SpeechSynthesizer.speak_async.
    rewrite NB, (nonblank_is_truthy text NB). cbn [negb orb].
    unfold try_except.
    erewrite bind_run by (apply generate_audio_ok; eassumption).
    cbn [truthy negb].
    erewrite bind_run
      by (apply play_audio_run; cbn [fs existsb]; now rewrite str_eqb_refl).
    rewrite Pos. unfold bind, create_task, ret, add_events.
    cbn [fs temp_files tasks trace]. subst spoken. cbn [fs temp_files tasks trace].
    rewrite <- !app_assoc. reflexivity.
  - cbn [SpeechCleanup.run_task].
    rewrite cleanup_temp_file_run by exact Rm.
    subst spoken. cbn [fs temp_files tasks trace existsb filter].
    rewrite str_eqb_refl, Pos. cbn [negb orb].
    rewrite (filter_absent _ _ FreshF), (remove_first_appended _ _ FreshT).
    reflexivity.
Qed.

Lemma X14_delayed_cleanup_removes_the_file_witness :
  let w := studio a_question always_timeout in
  let spoken := mkState [mp3_path; wav_path] ([] ++ [mp3_path])
                        ([] ++ [CleanupTask mp3_path 2])
                        ([] ++ [EvTempFile mp3_path; EvSynth (lit "Hi.") mp3_path]
                         ++ snd (played w mp3_path)) in
  SpeechSynthesizer.speak_async w (lit "Hi.") 2 (init_state [wav_path])
  = (Ret (fst (played w mp3_path)), spoken)
  /\ SpeechCleanup.run_task w (CleanupTask mp3_path 2) spoken
     = (Ret tt,
        mkState [wav_path] [] (tasks spoken)
                (trace spoken ++ [EvSleep 2; EvRemove mp3_path])).
Proof.
  apply (@X14_delayed_cleanup_removes_the_file
           (studio a_question always_timeout) (lit "Hi.") 2%Q
           (init_state [wav_path]) mp3_path 47%N (lit "tmp/a.mp3"));
    reflexivity.
Defined.

(** X15: when synthesis fails, [speak_async] returns [False] with the temp
    file it created still on disk and still tracked, and with no cleanup
    task: nothing plays, and nothing will remove the file before
    [SpeechSynthesizer.cleanup] runs. *)
Theorem X15_failed_synthesis_keeps_the_temp_file : forall w text delay s path e,
  truthy (strip text) = true ->
  mp3_tempfile w text = Ret path ->
  synth_fault w text = Some e ->
  SpeechSynthesizer.speak_async w text delay s
  = (Ret false,
     mkState (path :: fs s) (temp_files s ++ [path]) (tasks s)
             (trace s ++ [EvTempFile path; EvSynth text path])).
Proof.
  intros w text delay s path e NB Tmp Syn.
  unfold SpeechSynthesizer.speak_async.
  rewrite NB, (nonblank_is_truthy text NB). cbn [negb orb].
  unfold try_except.
  erewrite bind_run by (eapply generate_audio_fail; eassumption).
  reflexivity.
Qed.

Lemma X15_failed_synthesis_keeps_the_temp_file_witness :
  SpeechSynthesizer.speak_async mute (lit "Hi.") 2 (init_state [])
  = (Ret false,
     mkState [mp3_path] ([] ++ [mp3_path]) []
             ([] ++ [EvTempFile mp3_path; EvSynth (lit "Hi.") mp3_path])).
Proof.
  apply (@X15_failed_synthesis_keeps_the_temp_file mute (lit "Hi.") 2%Q
           (init_state []) mp3_path refused); reflexivity.
Defined.

Lemma untracked_cons : forall (p : str) tracked q,
  untracked (p :: tracked) q = negb (str_eqb p q) && untracked tracked q.
Proof.
  intros p tracked q. unfold untracked. cbn [existsb]. apply negb_orb.
Qed.

Lemma filter_untracked : forall (p : str) tracked files,
  filter (untracked tracked) (filter (fun q => negb (str_eqb p q)) files)
  = filter (untracked (p :: tracked)) files.
Proof.
  intros p tracked. induction files as [|q files IH]; [reflexivity|].
  cbn [filter]. rewrite untracked_cons.
  destruct (negb (str_eqb p q)); cbn [andb filter].
  - destruct (untracked tracked q); now rewrite IH.
  - exact IH.
Qed.

Lemma gather_cleanup_run : forall w paths s,
  (forall p, In p paths -> os_remove_fault w p = None) ->
  temp_files s = paths ->
  exists s',
    SpeechCleanup.gather_cleanup w paths s = (Ret tt, s')
    /\ temp_files s' = []
    /\ fs s' = filter (untracked paths) (fs s)
    /\ tasks s' = tasks s.
Proof.
  intros w. induction paths as [|p paths IH]; intros s Ok Tracked.
  - exists s. repeat split; trivial.
    cbn. induction (fs s) as [|q l IHl]; [reflexivity|]. cbn. now rewrite <- IHl.
  - cbn [SpeechCleanup.gather_cleanup].
    assert (Rm : os_remove_fault w p = None) by (apply Ok; now left).
    unfold bind, try_except.
    rewrite (@cleanup_temp_file_run w p 0%Q s Rm).
    match goal with |- context [SpeechCleanup.gather_cleanup w paths ?st] =>
      destruct (IH st) as (s' & E & T & F & K) end.
    + intros q Hq. apply Ok. now right.
    + cbn [temp_files]. rewrite Tracked.
      cbn [SpeechSynthesizer.list_remove_first]. now rewrite str_eqb_refl.
    + exists s'. rewrite E. repeat split; trivial.
      rewrite F. cbn [fs]. apply filter_untracked.
Qed.

(** X16: when [os.remove] works for the tracked files,
    [SpeechSynthesizer.cleanup] returns with the tracking list empty and with
    every tracked file gone from the file system; files it does not track are
    kept, and so are the tasks. *)
Theorem X16_cleanup_empties_the_tracking_list : forall w s,
  (forall p, In p (temp_files s) -> os_remove_fault w p = None) ->
  exists s',
    SpeechCleanup.cleanup w s = (Ret tt, s')
    /\ temp_files s' = []
    /\ fs s' = filter (untracked (temp_files s)) (fs s)
    /\ tasks s' = tasks s.
Proof.
  intros w s Ok.
  destruct (@gather_cleanup_run w (temp_files s) s Ok eq_refl)
    as (s' & E & T & F & K).
  exists s'. repeat split; trivial.
  unfold SpeechCleanup.cleanup, try_except, bind, SpeechCleanup.temp_files_copy.
  now rewrite E.
Qed.

Lemma X16_cleanup_empties_the_tracking_list_witness :
  exists s',
    SpeechCleanup.cleanup mute
      (snd (SpeechSynthesizer.speak_async mute (lit "Hi.") 2
              (init_state [wav_path])))
    = (Ret tt, s')
    /\ temp_files s' = []
    /\ fs s' = filter (untracked [mp3_path]) [mp3_path; wav_path]
    /\ tasks s' = [].
Proof.
  apply (@X16_cleanup_empties_the_tracking_list mute
           (snd (SpeechSynthesizer.speak_async mute (lit "Hi.") 2
                   (init_state [wav_path])))).
  intros p Hp. reflexivity.
Defined.

(** ** The result of the pipeline *)

Ltac failed_with n :=
  right; split;
  [reflexivity | split; [eexists; reflexivity | exists n; reflexivity]].

(** X17: every interaction ends in one of two shapes.  Either [success] is
    true, the error list is empty and all five timings are set; or [success]
    is false, the error list holds exactly one message and the timings are
    the first zero to three of recording, transcription and gemma, never
    speech or total. *)
Theorem X17_result_is_success_or_one_error : forall w context d s0,
  let r := fst (EchoLearnAssistant.process_question_async w context d s0) in
  (EchoLearnAssistant.success r = true
   /\ EchoLearnAssistant.errors r = []
   /\ EchoLearnAssistant.timing r
      = ["recording"; "transcription"; "gemma"; "speech"; "total"]%string)
  \/ (EchoLearnAssistant.success r = false
      /\ (exists e, EchoLearnAssistant.errors r = [e])
      /\ (exists n, EchoLearnAssistant.timing r = firstn n stage_keys)).
Proof.
  intros w context d s0 r. subst r.
  unfold EchoLearnAssistant.process_question_async.
  destruct (AudioProcessor.record_audio_async w d None s0) as [[[[|c f]|]|e] s1];
    cbn [fst];
    try solve [failed_with 1]; try solve [destruct e; failed_with 0].
  destruct (AudioProcessor.transcribe_audio_async w (c :: f) s1) as [[q|e] s2];
    cbn [fst]; try solve [destruct e; failed_with 1].
  destruct (negb (truthy q) || (length (strip q) <? 3)); cbn [fst];
    try solve [failed_with 2].
  destruct (EchoLearnAssistant.ask w context q s2) as [[a|e] s3]; cbn [fst];
    try solve [destruct e; failed_with 2].
  destruct (negb (truthy a)); cbn [fst]; try solve [failed_with 3].
  destruct (speak_async_returns w a 2 s3) as (ok & s4 & Sp). rewrite Sp.
  left. repeat split.
Qed.

(** X18: once the service has produced a non-empty answer the interaction is
    a success, with no error recorded, whatever [speak_async] returns: its
    result is dropped, so [success] does not say the answer was heard. *)
Theorem X18_success_ignores_speech_outcome :
  forall w context d s0 file s1 q s2 a s3,
    AudioProcessor.record_audio_async w d None s0 = (Ret (Some file), s1) ->
    file <> [] ->
    AudioProcessor.transcribe_audio_async w file s1 = (Ret q, s2) ->
    3 <= length (strip q) ->
    EchoLearnAssistant.ask w context q s2 = (Ret a, s3) ->
    a <> [] ->
    EchoLearnAssistant.process_question_async w context d s0
    = (EchoLearnAssistant.mkResult true q a
         ["recording"; "transcription"; "gemma"; "speech"; "total"]%string [],
       snd (SpeechSynthesizer.speak_async w a 2 s3))
    /\ fst (SpeechSynthesizer.speak_async w a 2 s3) = Ret (speak_ok w a).
Proof.
  intros w context d s0 file s1 q s2 a s3 Rec NE Tr Valid Ask NonEmpty.
  split; [|apply speak_async_value].
  rewrite (pipeline_after_transcription w context d s0 Rec NE Tr).
  rewrite (valid_question_passes q Valid), Ask. cbv zeta.
  destruct a as [|c0 a]; [contradiction|]. cbn [truthy negb].
  destruct (speak_async_returns w (c0 :: a) 2 s3) as (ok & s4 & Sp).
  rewrite Sp. reflexivity.
Qed.

Lemma X18_success_ignores_speech_outcome_witness :
  EchoLearnAssistant.process_question_async mute (Some a_context) 5
    (init_state [])
  = (EchoLearnAssistant.mkResult true (lit "What is light?")
       (lit "Light is a wave.")
       ["recording"; "transcription"; "gemma"; "speech"; "total"]%string [],
     snd (SpeechSynthesizer.speak_async mute (lit "Light is a wave.") 2
            (add_events [EvGenerate a_prompt] (transcribed mute))))
  /\ fst (SpeechSynthesizer.speak_async mute (lit "Light is a wave.") 2
            (add_events [EvGenerate a_prompt] (transcribed mute)))
     = Ret (speak_ok mute (lit "Light is a wave.")).
Proof.
  apply (@X18_success_ignores_speech_outcome mute (Some a_context) 5%Z
           (init_state []) wav_path (recorded mute) (lit "What is light?")
           (transcribed mute) (lit "Light is a wave.")
           (add_events [EvGenerate a_prompt] (transcribed mute))).
  - vm_compute. reflexivity.
  - discriminate.
  - vm_compute. reflexivity.
  - vm_compute. lia.
  - vm_compute. reflexivity.
  - discriminate.
Defined.

Example mute_world_reports_success :
  EchoLearnAssistant.success
    (fst (EchoLearnAssistant.process_question_async mute (Some a_context) 5
            (init_state []))) = true
  /\ speak_ok mute (lit "Light is a wave.") = false.
Proof. vm_compute. split; reflexivity. Qed.

(** ** What the pipeline narrates *)

Lemma retry_loop_quiet :
  forall (service : nat -> str -> Z -> service_reply) remaining attempt prompt
         timeout s,
    exists a evs,
      GemmaClient.retry_loop service remaining attempt prompt timeout false s
      = (Ret a, add_events evs s)
      /\ synth_texts evs = [] /\ callbacks evs = [].
Proof.
  intros service. induction remaining as [|n IH]; intros attempt prompt timeout s.
  - exists [], []. cbn [GemmaClient.retry_loop]. unfold ret.
    rewrite add_events_nil. repeat split.
  - destruct (Z.leb_spec timeout 0) as [Exp|Pos].
    { cbn [GemmaClient.retry_loop].
      erewrite bind_run by (apply attempt_once_expired; exact Exp).
      destruct (attempt <? GemmaClient.max_retries - 1).
      - match goal with |- context [GemmaClient.retry_loop _ _ _ _ _ _ ?st] =>
          destruct (IH (S attempt) prompt timeout st) as (a & evs & E' & S' & C')
        end.
        eexists a, _. rewrite E', add_events_app. split; [reflexivity|].
        rewrite synth_texts_app, callbacks_app. cbn [synth_texts callbacks].
        now rewrite S', C'.
      - eexists _, []. unfold ret. rewrite !add_events_nil.
        split; [reflexivity|]. split; reflexivity. }
    destruct (attempt_once_run service attempt prompt false s Pos)
      as (chunks & E & N & _).
    rewrite (N eq_refl) in E. cbn [map app] in E.
    cbn [GemmaClient.retry_loop]. erewrite bind_run by exact E.
    assert (Q : synth_texts (snd (pass_verdict attempt
                                    (service attempt prompt timeout))) = []
                /\ callbacks (snd (pass_verdict attempt
                                     (service attempt prompt timeout))) = []).
    { unfold pass_verdict.
      destruct (ending (service attempt prompt timeout));
        [destruct (attempt <? GemmaClient.max_retries - 1)|]; split; reflexivity. }
    destruct Q as [Q1 Q2].
    destruct (fst (pass_verdict attempt (service attempt prompt timeout)))
      as [ans|].
    + eexists ans, _. split; [reflexivity|]. cbn [synth_texts callbacks]. auto.
    + match goal with |- context [GemmaClient.retry_loop _ _ _ _ _ _ ?st] =>
        destruct (IH (S attempt) prompt timeout st) as (a & evs & E' & S' & C')
      end.
      eexists a, _. rewrite E', add_events_app. split; [reflexivity|].
      rewrite synth_texts_app, callbacks_app. cbn [synth_texts callbacks].
      now rewrite Q1, Q2, S', C'.
Qed.

Lemma record_audio_async_quiet : forall w d filename s,
  synth_texts (trace (snd (AudioProcessor.record_audio_async w d filename s)))
  = synth_texts (trace s)
  /\ callbacks (trace (snd (AudioProcessor.record_audio_async w d filename s)))
     = callbacks (trace s).
Proof.
  intros w d filename [files tf tk tr].
  unfold AudioProcessor.record_audio_async, AudioProcessor._record_audio_sync,
    named_temporary_file, run_in_executor, os_remove, lift_fault,
    try_except, bind, path_exists, emit, fs_add, fs_del, ret, raise.
  destruct filename as [f|]; [|destruct (wav_tempfile w) as [f|e]];
    cbn [fs temp_files tasks trace snd]; try (split; reflexivity);
    destruct (executor_fault w);
    try destruct (sd_rec w d);
    cbn [fs temp_files tasks trace snd];
    try destruct (wav_write_fault w f);
    cbn [fs temp_files tasks trace snd];
    repeat match goal with
      | |- context [if ?b then _ else _] => destruct b
      | |- context [match os_remove_fault ?w ?f with _ => _ end] =>
          destruct (os_remove_fault w f)
      end;
    cbn [fs temp_files tasks trace snd];
    rewrite ?synth_texts_app, ?callbacks_app; cbn [synth_texts callbacks];
    rewrite ?app_nil_r; split; reflexivity.
Qed.

Lemma transcribe_audio_async_quiet : forall w audio_file s,
  synth_texts (trace (snd (AudioProcessor.transcribe_audio_async w audio_file s)))
  = synth_texts (trace s)
  /\ callbacks (trace (snd (AudioProcessor.transcribe_audio_async w audio_file s)))
     = callbacks (trace s).
Proof.
  intros w audio_file s.
  destruct (transcribe_audio_async_run w audio_file s) as (evs & E & Shape).
  rewrite E. cbn [snd trace]. rewrite !synth_texts_app, !callbacks_app.
  destruct Shape as [-> | ->]; destruct (remove_guard w audio_file s);
    cbn [synth_texts callbacks]; now rewrite ?app_nil_r.
Qed.

Lemma speak_events_quiet : forall w text delay,
  callbacks (speak_events w text delay) = []
  /\ (synth_texts (speak_events w text delay) = []
      \/ synth_texts (speak_events w text delay) = [text]).
Proof.
  intros w text delay. unfold speak_events.
  destruct (truthy text && truthy (strip text)); [|auto].
  destruct (mp3_tempfile w text) as [path|e]; [|auto].
  cbn [app callbacks synth_texts].
  destruct (synth_fault w text); [auto|].
  destruct (truthy path); [|auto].
  destruct (executor_fault w), (SpeechSynthesizer.positive delay);
    cbn [app callbacks synth_texts]; auto.
Qed.

(** X19: the pipeline passes no stream callback, so no sentence is handed
    over while the answer is generated; and it narrates at most once: the
    texts sent to synthesis during an interaction are none, or the one
    complete answer it returns. *)
Theorem X19_pipeline_narrates_the_whole_answer_once : forall w context d s0,
  let run := EchoLearnAssistant.process_question_async w context d s0 in
  callbacks (trace (snd run)) = callbacks (trace s0)
  /\ (synth_texts (trace (snd run)) = synth_texts (trace s0)
      \/ synth_texts (trace (snd run))
         = synth_texts (trace s0) ++ [EchoLearnAssistant.answer (fst run)]).
Proof.
  intros w context d s0 run. subst run.
  unfold EchoLearnAssistant.process_question_async.
  destruct (record_audio_async_quiet w d None s0) as [S1 C1].
  destruct (AudioProcessor.record_audio_async w d None s0) as [[[[|c f]|]|e] s1];
    cbn [fst snd] in *; try (split; [exact C1 | left; exact S1]).
  destruct (transcribe_audio_async_quiet w (c :: f) s1) as [S2 C2].
  destruct (AudioProcessor.transcribe_audio_async w (c :: f) s1) as [[q|e] s2];
    cbn [fst snd] in *;
    try (split; [congruence | left; congruence]).
  destruct (negb (truthy q) || (length (strip q) <? 3)); cbn [fst snd];
    try (split; [congruence | left; congruence]).
  assert (A : exists r s3,
             EchoLearnAssistant.ask w context q s2 = (r, s3)
             /\ synth_texts (trace s3) = synth_texts (trace s2)
             /\ callbacks (trace s3) = callbacks (trace s2)).
  { destruct context as [ctx|]; cbn [EchoLearnAssistant.ask].
    - destruct (retry_loop_quiet (service w) GemmaClient.max_retries 0
                  (GemmaClient._build_prompt q ctx) 30 s2)
        as (a & evs & E & Sy & Cb).
      exists (Ret a), (add_events evs s2). split; [exact E|].
      cbn [add_events trace]. rewrite synth_texts_app, callbacks_app, Sy, Cb.
      now rewrite !app_nil_r.
    - eexists _, _. split; [reflexivity | split; reflexivity]. }
  destruct A as (r & s3 & Ask & S3 & C3). rewrite Ask.
  destruct r as [a|e]; cbn [fst snd];
    try (split; [congruence | left; congruence]).
  destruct (negb (truthy a)); cbn [fst snd];
    try (split; [congruence | left; congruence]).
  pose proof (speak_async_trace w a 2 s3) as T.
  destruct (speak_events_quiet w a 2) as [Cq Sq].
  destruct (SpeechSynthesizer.speak_async w a 2 s3) as [[ok|e] s4];
    cbn [fst snd] in *; [|destruct e];
    unfold EchoLearnAssistant.on_exception, EchoLearnAssistant.add_error,
      EchoLearnAssistant.add_timing, EchoLearnAssistant.set_success,
      EchoLearnAssistant.set_answer;
    cbn [EchoLearnAssistant.answer];
    rewrite T, synth_texts_app, callbacks_app, Cq, app_nil_r;
    (split; [congruence|]);
    (destruct Sq as [-> | ->]; [left; rewrite app_nil_r | right]; congruence).
Qed.

(** ** Edge cases of the pipeline *)

(** X20: an assistant built without a context ([self.context] is [None])
    answers no question: for every valid question the interaction fails with
    the one error "Unexpected error: object of type 'NoneType' has no len()"
    and ends in the state transcription left, the language-model service
    never called. *)
Theorem X20_no_context_fails_every_question :
  forall w d s0 file s1 q s2,
    AudioProcessor.record_audio_async w d None s0 = (Ret (Some file), s1) ->
    file <> [] ->
    AudioProcessor.transcribe_audio_async w file s1 = (Ret q, s2) ->
    3 <= length (strip q) ->
    EchoLearnAssistant.process_question_async w None d s0
    = (EchoLearnAssistant.mkResult false q []
         ["recording"; "transcription"]%string
         [lit "Unexpected error: object of type 'NoneType' has no len()"],
       s2).
Proof.
  intros w d s0 file s1 q s2 Rec NE Tr Valid.
  rewrite (pipeline_after_transcription w None d s0 Rec NE Tr).
  rewrite (valid_question_passes q Valid). reflexivity.
Qed.

Lemma X20_no_context_fails_every_question_witness :
  EchoLearnAssistant.process_question_async
    (studio a_question always_timeout) None 5 (init_state [])
  = (EchoLearnAssistant.mkResult false (lit "What is light?") []
       ["recording"; "transcription"]%string
       [lit "Unexpected error: object of type 'NoneType' has no len()"],
     transcribed (studio a_question always_timeout)).
Proof.
  apply (@X20_no_context_fails_every_question
           (studio a_question always_timeout) 5%Z (init_state []) wav_path
           (recorded (studio a_question always_timeout))).
  - vm_compute. reflexivity.
  - discriminate.
  - vm_compute. reflexivity.
  - vm_compute. lia.
Defined.

(** X21: a transcription of fewer than three characters after stripping, for
    instance a single "No", is rejected like an empty one: the interaction
    fails with "No valid question transcribed" in the state transcription
    left, before the service is called. *)
Theorem X21_short_question_is_rejected :
  forall w context d s0 file s1 q s2,
    AudioProcessor.record_audio_async w d None s0 = (Ret (Some file), s1) ->
    file <> [] ->
    AudioProcessor.transcribe_audio_async w file s1 = (Ret q, s2) ->
    length (strip q) < 3 ->
    EchoLearnAssistant.process_question_async w context d s0
    = (EchoLearnAssistant.mkResult false q []
         ["recording"; "transcription"]%string
         [lit "No valid question transcribed"],
       s2).
Proof.
  intros w context d s0 file s1 q s2 Rec NE Tr Short.
  rewrite (pipeline_after_transcription w context d s0 Rec NE Tr).
  apply Nat.ltb_lt in Short. rewrite Short, orb_true_r. reflexivity.
Qed.

Lemma X21_short_question_is_rejected_witness :
  EchoLearnAssistant.process_question_async terse_world (Some a_context) 5
    (init_state [])
  = (EchoLearnAssistant.mkResult false (lit "No") []
       ["recording"; "transcription"]%string
       [lit "No valid question transcribed"],
     transcribed terse_world).
Proof.
  apply (@X21_short_question_is_rejected terse_world (Some a_context) 5%Z
           (init_state []) wav_path (recorded terse_world)).
  - vm_compute. reflexivity.
  - discriminate.
  - vm_compute. reflexivity.
  - vm_compute. lia.
Defined.

(** ** The recording and the pipeline *)

Lemma record_success_file_exists : forall w d s path s1,
  AudioProcessor.record_audio_async w d None s = (Ret (Some path), s1) ->
  existsb (str_eqb path) (fs s1) = true /\ wav_tempfile w = Ret path.
Proof.
  intros w d [files tf tk tr] path s1.
  unfold AudioProcessor.record_audio_async, AudioProcessor._record_audio_sync,
    named_temporary_file, run_in_executor, os_remove, lift_fault,
    try_except, bind, path_exists, emit, fs_add, fs_del, ret, raise.
  destruct (wav_tempfile w) as [f|e]; cbn [fs temp_files tasks trace];
    [|discriminate].
  destruct (executor_fault w); [|destruct (sd_rec w d)];
    cbn [fs temp_files tasks trace];
    try destruct (wav_write_fault w f);
    cbn [fs temp_files tasks trace];
    repeat match goal with
      | |- context [if ?b then _ else _] => destruct b
      | |- context [match os_remove_fault ?w ?f with _ => _ end] =>
          destruct (os_remove_fault w f)
      end;
    cbn [fs temp_files tasks trace];
    intros H; try discriminate H.
  injection H as <- <-. cbn [fs existsb]. now rewrite str_eqb_refl.
Qed.

Lemma pipeline_trace_extends : forall w context d s0 file s1 q s2,
  AudioProcessor.record_audio_async w d None s0 = (Ret (Some file), s1) ->
  file <> [] ->
  AudioProcessor.transcribe_audio_async w file s1 = (Ret q, s2) ->
  exists more,
    trace (snd (EchoLearnAssistant.process_question_async w context d s0))
    = trace s2 ++ more.
Proof.
  intros w context d s0 file s1 q s2 Rec NE Tr.
  rewrite (pipeline_after_transcription w context d s0 Rec NE Tr).
  destruct (negb (truthy q) || (length (strip q) <? 3));
    [exists []; cbn [snd]; now rewrite app_nil_r|].
  assert (A : exists r s3 evs,
             EchoLearnAssistant.ask w context q s2 = (r, s3)
             /\ trace s3 = trace s2 ++ evs).
  { destruct context as [ctx|]; cbn [EchoLearnAssistant.ask].
    - destruct (retry_loop_quiet (service w) GemmaClient.max_retries 0
                  (GemmaClient._build_prompt q ctx) 30 s2)
        as (a & evs & E & _).
      exists (Ret a), (add_events evs s2), evs. split; [exact E | reflexivity].
    - exists (Raise (Exception EchoLearnAssistant.no_len_message)), s2, [].
      split; [reflexivity | now rewrite app_nil_r]. }
  destruct A as (r & s3 & evs & Ask & T3). rewrite Ask.
  destruct r as [a|e]; [|exists evs; exact T3].
  cbv zeta. destruct (negb (truthy a)); [exists evs; exact T3|].
  pose proof (speak_async_trace w a 2 s3) as T4.
  destruct (SpeechSynthesizer.speak_async w a 2 s3) as [[ok|e] s4];
    cbn [snd] in *; exists (evs ++ speak_events w a 2);
    now rewrite T4, T3, app_assoc.
Qed.

(** X22: whenever the recording succeeds on a temp file under the temp
    directory, the interaction calls [os.remove] on that file, however its
    later stages end: the removal follows the transcription and is in the
    trace the pipeline returns with. *)
Theorem X22_pipeline_removes_the_recording :
  forall w context d s0 path s1,
    AudioProcessor.record_audio_async w d None s0 = (Ret (Some path), s1) ->
    path <> [] ->
    startswith path (gettempdir w) = true ->
    In (EvRemove path)
       (trace (snd (EchoLearnAssistant.process_question_async w context d s0))).
Proof.
  intros w context d s0 path s1 Rec NE Under.
  destruct (record_success_file_exists w d s0 Rec) as [Ex _].
  destruct (transcribe_audio_async_run w path s1) as (evs & Tr & _).
  destruct (pipeline_trace_extends w context d s0 Rec NE Tr) as (more & T).
  rewrite T. cbn [trace]. unfold remove_guard. rewrite Ex, Under. cbn [andb].
  apply in_or_app. left. apply in_or_app. right. apply in_or_app. right.
  now left.
Qed.

Lemma X22_pipeline_removes_the_recording_witness :
  In (EvRemove wav_path)
     (trace (snd (EchoLearnAssistant.process_question_async
                    (studio a_question always_timeout) (Some a_context) 5
                    (init_state [])))).
Proof.
  apply (@X22_pipeline_removes_the_recording (studio a_question always_timeout)
           (Some a_context) 5%Z (init_state []) wav_path
           (recorded (studio a_question always_timeout))).
  - vm_compute. reflexivity.
  - discriminate.
  - reflexivity.
Defined.

(** ** The PDF cache *)

Lemma dict_get_set : forall d k v, dict_get (dict_set d k v) k = Some v.
Proof.
  induction d as [|[k' v'] d IH]; intros k v; cbn [dict_set dict_get].
  - now rewrite str_eqb_refl.
  - destruct (str_eqb k k') eqn:E; cbn [dict_get]; rewrite ?str_eqb_refl, ?E;
      [reflexivity | apply IH].
Qed.

Lemma extract_caches_text : forall w pdf_path key st text st1,
  resolve w pdf_path = Ret key ->
  PDFProcessor.extract_text_async w pdf_path st = (Ret text, st1) ->
  text <> [] ->
  dict_get (cache st1) key = Some text.
Proof.
  intros w pdf_path key st text st1 Res Run NE.
  unfold PDFProcessor.extract_text_async in Run. rewrite Res in Run.
  destruct (dict_get (cache st) key) as [hit|] eqn:Hit.
  - injection Run as <- <-. exact Hit.
  - destruct (negb (pdf_exists w key)); [injection Run as <- _; contradiction|].
    destruct (pdf_executor_fault w); [injection Run as <- _; contradiction|].
    destruct (PDFProcessor._extract_text_sync w key st) as [t st'].
    destruct (truthy t); [|injection Run as <- _; contradiction].
    injection Run as <- <-. cbn [cache]. apply dict_get_set.
Qed.

(** X23: a text that [extract_text_async] has returned non-empty is served
    from the cache from then on: a later call for a path that resolves to the
    same file returns the same text and leaves the processor as it is, opening
    nothing, even if the file has changed or is gone by then. *)
Theorem X23_extracted_text_is_served_from_cache :
  forall w1 w2 p1 p2 key st text st1,
    resolve w1 p1 = Ret key ->
    resolve w2 p2 = Ret key ->
    PDFProcessor.extract_text_async w1 p1 st = (Ret text, st1) ->
    text <> [] ->
    PDFProcessor.extract_text_async w2 p2 st1 = (Ret text, st1).
Proof.
  intros w1 w2 p1 p2 key st text st1 R1 R2 Run NE.
  unfold PDFProcessor.extract_text_async. rewrite R2.
  now rewrite (extract_caches_text w1 p1 st R1 Run NE).
Qed.

Lemma X23_extracted_text_is_served_from_cache_witness :
  let first := PDFProcessor.extract_text_async library (lit "notes.pdf")
                 (mkPdf [] []) in
  PDFProcessor.extract_text_async library_emptied (lit "./notes.pdf") (snd first)
  = (Ret (lit "Light is a wave." ++ NL ++ lit "It is also a particle."),
     snd first).
Proof.
  apply (@X23_extracted_text_is_served_from_cache library library_emptied
           (lit "notes.pdf") (lit "./notes.pdf") notes_path (mkPdf [] [])).
  - reflexivity.
  - reflexivity.
  - vm_compute. reflexivity.
  - discriminate.
Defined.

Lemma dict_set_nonempty : forall d k v,
  values_nonempty d -> v <> [] -> values_nonempty (dict_set d k v).
Proof.
  unfold values_nonempty.
  induction d as [|[k' v'] d IH]; intros k v H NE; cbn [dict_set].
  - constructor; [exact NE | constructor].
  - inversion H as [|x l Hx Hl]; subst.
    destruct (str_eqb k k'); constructor; auto.
Qed.

(** X24: [extract_text_async] never caches an empty text.  A call that
    returns the empty string leaves the cache as it was, so a failed
    extraction is tried again by the next call; a cache whose texts are all
    non-empty stays so; and a call opens at most one document, the resolved
    path, and only when that path is not cached. *)
Theorem X24_empty_text_is_never_cached : forall w pdf_path st,
  let run := PDFProcessor.extract_text_async w pdf_path st in
  (fst run = Ret [] -> cache (snd run) = cache st)
  /\ (values_nonempty (cache st) -> values_nonempty (cache (snd run)))
  /\ (opened (snd run) = opened st
      \/ exists key, resolve w pdf_path = Ret key
                     /\ dict_get (cache st) key = None
                     /\ opened (snd run) = opened st ++ [key]).
Proof.
  intros w pdf_path st run. subst run.
  unfold PDFProcessor.extract_text_async.
  destruct (resolve w pdf_path) as [key|e]; cbn [fst snd]; [|auto].
  destruct (dict_get (cache st) key) as [hit|] eqn:Hit; cbn [fst snd]; [auto|].
  destruct (negb (pdf_exists w key)); cbn [fst snd]; [auto|].
  destruct (pdf_executor_fault w); cbn [fst snd]; [auto|].
  unfold PDFProcessor._extract_text_sync.
  destruct (fitz_open w key) as [doc|e]; cbn [truthy fst snd cache opened];
    [|repeat split; auto; right; exists key; auto].
  destruct (doc_close_fault w key); cbn [truthy fst snd cache opened];
    [repeat split; auto; right; exists key; auto|].
  destruct (join NL (PDFProcessor.text_parts doc)) as [|c0 t] eqn:J;
    cbn [truthy fst snd cache opened].
  - repeat split; auto. right. exists key. auto.
  - repeat split.
    + discriminate.
    + intros V. apply dict_set_nonempty; [exact V | discriminate].
    + right. exists key. auto.
Qed.

(** ** What is extracted from a document *)

Lemma page_texts_readable : forall ts,
  LegacyPdf.page_texts (map Ret ts) = Ret ts.
Proof.
  induction ts as [|t ts IH]; [reflexivity|]. cbn. now rewrite IH.
Qed.

Lemma page_texts_unreadable : forall pages e,
  In (Raise e) pages -> exists e', LegacyPdf.page_texts pages = Raise e'.
Proof.
  induction pages as [|[t|e0] pages IH]; intros e H; [contradiction | |].
  - destruct H as [H | H]; [discriminate H|].
    destruct (IH e H) as (e' & E). exists e'. cbn. now rewrite E.
  - exists e0. reflexivity.
Qed.

Lemma text_parts_clean : forall ts,
  Forall (fun t => truthy (strip t) = true) ts ->
  PDFProcessor.text_parts (map Ret ts) = ts.
Proof.
  induction 1 as [|t ts Ht _ IH]; [reflexivity|].
  cbn [map PDFProcessor.text_parts]. now rewrite Ht, IH.
Qed.

(** X25: on a document that opens and closes without error, the optimized
    [_extract_text_sync] returns what the legacy [extract_text_from_pdf] would
    return for the document with its unreadable and blank pages taken out;
    when every page is readable and non-blank the two return the same
    text. *)
Theorem X25_extraction_skips_blank_and_unreadable_pages :
  forall w pdf_path st doc,
    fitz_open w pdf_path = Ret doc ->
    doc_close_fault w pdf_path = None ->
    fst (PDFProcessor._extract_text_sync w pdf_path st)
    = LegacyPdf.extract_text_from_pdf
        (Ret (map Ret (PDFProcessor.text_parts doc)))
    /\ (forall ts, doc = map Ret ts ->
          Forall (fun t => truthy (strip t) = true) ts ->
          fst (PDFProcessor._extract_text_sync w pdf_path st)
          = LegacyPdf.extract_text_from_pdf (fitz_open w pdf_path)).
Proof.
  intros w pdf_path st doc Open Close.
  unfold PDFProcessor._extract_text_sync. rewrite Open, Close. cbn [fst].
  split.
  - unfold LegacyPdf.extract_text_from_pdf. now rewrite page_texts_readable.
  - intros ts -> Clean. unfold LegacyPdf.extract_text_from_pdf.
    now rewrite page_texts_readable, text_parts_clean.
Qed.

Lemma X25_extraction_skips_blank_and_unreadable_pages_witness :
  fst (PDFProcessor._extract_text_sync library notes_path (mkPdf [] []))
  = LegacyPdf.extract_text_from_pdf
      (Ret (map Ret (PDFProcessor.text_parts sample_doc)))
  /\ (forall ts, sample_doc = map Ret ts ->
        Forall (fun t => truthy (strip t) = true) ts ->
        fst (PDFProcessor._extract_text_sync library notes_path (mkPdf [] []))
        = LegacyPdf.extract_text_from_pdf (fitz_open library notes_path)).
Proof.
  apply (@X25_extraction_skips_blank_and_unreadable_pages library notes_path
           (mkPdf [] []) sample_doc); reflexivity.
Defined.

(** X26: one page whose text cannot be read makes the legacy
    [extract_text_from_pdf] return the empty string for the whole document,
    while the optimized [_extract_text_sync] still returns the other pages'
    text. *)
Theorem X26_unreadable_page_empties_legacy_extraction :
  forall w pdf_path st doc e,
    fitz_open w pdf_path = Ret doc ->
    doc_close_fault w pdf_path = None ->
    In (Raise e) doc ->
    LegacyPdf.extract_text_from_pdf (fitz_open w pdf_path) = []
    /\ fst (PDFProcessor._extract_text_sync w pdf_path st)
       = join NL (PDFProcessor.text_parts doc).
Proof.
  intros w pdf_path st doc e Open Close Bad. split.
  - rewrite Open. unfold LegacyPdf.extract_text_from_pdf.
    destruct (page_texts_unreadable doc e Bad) as (e' & E). now rewrite E.
  - unfold PDFProcessor._extract_text_sync. now rewrite Open, Close.
Qed.

Lemma X26_unreadable_page_empties_legacy_extraction_witness :
  LegacyPdf.extract_text_from_pdf (fitz_open library notes_path) = []
  /\ fst (PDFProcessor._extract_text_sync library notes_path (mkPdf [] []))
     = join NL (PDFProcessor.text_parts sample_doc).
Proof.
  apply (@X26_unreadable_page_empties_legacy_extraction library notes_path
           (mkPdf [] []) sample_doc refused).
  - reflexivity.
  - reflexivity.
  - right. right. left. reflexivity.
Defined.

(** ** The context the assistant starts with *)

(** X27: [main] never gives the assistant a context.  When the PDF file is
    missing the assistant is built with context [None], not the empty string.
    When the file exists the constructor calls [extract_text], whose
    [asyncio.run] raises [RuntimeError] inside the event loop [main] runs in:
    no assistant is built and no session starts, and the PDF is neither opened
    nor cached.  Called outside an event loop with a non-empty path, the same
    constructor takes for context what [extract_text_async] returns, unless
    resolving the path raises, which it lets through. *)
Theorem X27_main_never_loads_the_pdf : forall w st,
  (pdf_exists w Startup.pdf_file = false ->
     Startup.main w st = (Startup.Session None, st))
  /\ (pdf_exists w Startup.pdf_file = true ->
      Startup.main w st
      = (Startup.FailedToStart (Exception PDFProcessor.running_loop_message), st))
  /\ (forall p, truthy p = true ->
        (exists text st',
           PDFProcessor.extract_text_async w p st = (Ret text, st')
           /\ Startup.init_context w false (Some p) None st
              = (Ret (Some text), st'))
        \/ (exists e, resolve w p = Raise e
                      /\ Startup.init_context w false (Some p) None st
                         = (Raise e, st))).
Proof.
  intros w st. unfold Startup.main, Startup.main_context. split; [|split].
  - intros Ex. rewrite Ex. reflexivity.
  - intros Ex. rewrite Ex. cbn [negb]. unfold Startup.init_context.
    change (truthy Startup.pdf_file) with true. reflexivity.
  - intros p Tp. unfold Startup.init_context. rewrite Tp. cbn [andb].
    unfold PDFProcessor.extract_text.
    destruct (PDFProcessor.extract_text_async w p st)
      as [[text|e] st'] eqn:Run.
    + left. now exists text, st'.
    + right. exists e.
      unfold PDFProcessor.extract_text_async in Run.
      destruct (resolve w p) as [key|e0].
      * destruct (dict_get (cache st) key); [discriminate Run|].
        destruct (negb (pdf_exists w key)); [discriminate Run|].
        destruct (pdf_executor_fault w); [discriminate Run|].
        destruct (PDFProcessor._extract_text_sync w key st) as [t st2].
        destruct (truthy t); discriminate Run.
      * injection Run as <- <-. split; reflexivity.
Qed.

Lemma X27_main_never_loads_the_pdf_witness :
  Startup.main library_emptied (mkPdf [] []) = (Startup.Session None, mkPdf [] [])
  /\ Startup.main library (mkPdf [] [])
     = (Startup.FailedToStart (Exception PDFProcessor.running_loop_message),
        mkPdf [] [])
  /\ ((exists text st',
         PDFProcessor.extract_text_async library notes_path (mkPdf [] [])
         = (Ret text, st')
         /\ Startup.init_context library false (Some notes_path) None (mkPdf [] [])
            = (Ret (Some text), st'))
      \/ (exists e, resolve library notes_path = Raise e
                    /\ Startup.init_context library false (Some notes_path) None
                         (mkPdf [] [])
                       = (Raise e, mkPdf [] []))).
Proof.
  destruct (X27_main_never_loads_the_pdf library_emptied (mkPdf [] []))
    as (Missing & _ & _).
  destruct (X27_main_never_loads_the_pdf library (mkPdf [] []))
    as (_ & Present & Outside).
  split; [|split].
  - apply Missing. reflexivity.
  - apply Present. reflexivity.
  - apply Outside. reflexivity.
Defined.

(** With the PDF in place the constructor would have had a context to take,
    had it been called outside the event loop. *)
Example context_outside_the_loop :
  fst (Startup.init_context library false (Some Startup.pdf_file) None
         (mkPdf [] []))
  = Ret (Some (join NL (PDFProcessor.text_parts sample_doc)))
  /\ fst (Startup.main library (mkPdf [] []))
     = Startup.FailedToStart (Exception PDFProcessor.running_loop_message).
Proof. vm_compute. split; reflexivity. Qed.

(** ** extract_from_pdf.py: what is lost at the end of the stream *)

Lemma monolith_consume_shape : forall cs buffer spoken s,
  Monolith.ready_to_speak buffer = false ->
  exists segs rest,
    Monolith.consume cs buffer spoken s
    = (Ret (snd (speak_segments segs spoken)),
       add_events (map EvSpeakThread (fst (speak_segments segs spoken))) s)
    /\ buffer ++ tokens_of cs = concat segs ++ rest
    /\ Forall (fun g => Monolith.ready_to_speak g = true) segs
    /\ Monolith.ready_to_speak rest = false.
Proof.
  induction cs as [|c cs IH]; intros buffer spoken s Idle.
  - exists [], buffer. cbn [Monolith.consume speak_segments fst snd map].
    unfold ret, tokens_of. cbn [map concat app].
    rewrite add_events_nil, app_nil_r. repeat split; auto.
  - cbn [Monolith.consume]. unfold tokens_of. cbn [map concat].
    fold (tokens_of cs). rewrite app_assoc.
    destruct (Monolith.ready_to_speak (buffer ++ chunk_get_response c)) eqn:R.
    + erewrite bind_run by apply emit_run.
      match goal with |- context [Monolith.consume cs [] ?sp ?st] =>
        destruct (IH [] sp st eq_refl) as (segs & rest & E & P & F & Q) end.
      exists ((buffer ++ chunk_get_response c) :: segs), rest.
      cbn [speak_segments].
      destruct (speak_segments segs
                  (spoken ++ replace (strip (buffer ++ chunk_get_response c))
                               spoken [])) as [texts final] eqn:SS.
      cbn [fst snd map] in *. repeat split; auto.
      * rewrite E, add_events_app. reflexivity.
      * cbn [concat]. cbn [app] in P. rewrite P, <- !app_assoc. reflexivity.
    + destruct (IH (buffer ++ chunk_get_response c) spoken s R)
        as (segs & rest & E & P & F & Q).
      exists segs, rest. repeat split; auto.
Qed.

Lemma not_ready_is_short : forall b,
  Monolith.ready_to_speak b = false ->
  length b <= 30 /\ has_terminator b = false.
Proof.
  intros b H. unfold Monolith.ready_to_speak in H.
  apply orb_false_iff in H as [L T]. apply Nat.ltb_ge in L. auto.
Qed.

(** X28: the [ask_gemma] of extract_from_pdf.py cuts a completed stream into
    buffers that it speaks, each longer than 30 characters or holding a
    sentence terminator, and a remainder of at most 30 characters without
    terminator.  What it speaks and what it returns are computed from the
    spoken buffers alone: the remainder is neither spoken nor returned. *)
Theorem X28_monolith_loses_at_most_thirty_characters :
  forall (service : str -> service_reply) context question s,
    let prompt := Monolith.prompt_head ++ context ++ Monolith.prompt_mid
                  ++ question ++ Monolith.prompt_tail in
    ending (service prompt) = None ->
    exists segs rest,
      tokens_of (delivered (service prompt)) = concat segs ++ rest
      /\ length rest <= 30
      /\ has_terminator rest = false
      /\ Forall (fun g => Monolith.ready_to_speak g = true) segs
      /\ Monolith.ask_gemma service context question s
         = (Ret (snd (speak_segments segs [])),
            add_events (EvGenerate prompt
                        :: map EvSpeakThread (fst (speak_segments segs []))) s).
Proof.
  intros service context question s prompt Done.
  destruct (monolith_consume_shape (delivered (service prompt)) [] []
              (add_events [EvGenerate prompt] s) eq_refl)
    as (segs & rest & E & P & F & Q).
  destruct (not_ready_is_short rest Q) as [Short NoTerm].
  exists segs, rest. cbn [app] in P. repeat split; auto.
  unfold Monolith.ask_gemma, try_except. fold prompt.
  erewrite bind_run by apply emit_run.
  erewrite bind_run by exact E.
  rewrite Done. unfold ret. now rewrite add_events_app.
Qed.

Lemma X28_monolith_loses_at_most_thirty_characters_witness :
  exists segs rest,
    tokens_of rambling = concat segs ++ rest
    /\ length rest <= 30
    /\ has_terminator rest = false
    /\ Forall (fun g => Monolith.ready_to_speak g = true) segs
    /\ Monolith.ask_gemma (fun _ => mkReply rambling None) a_context
         (lit "What is light?") (init_state [])
       = (Ret (snd (speak_segments segs [])),
          add_events
            (EvGenerate (Monolith.prompt_head ++ a_context ++ Monolith.prompt_mid
                         ++ lit "What is light?" ++ Monolith.prompt_tail)
             :: map EvSpeakThread (fst (speak_segments segs [])))
            (init_state [])).
Proof.
  apply (@X28_monolith_loses_at_most_thirty_characters
           (fun _ => mkReply rambling None) a_context (lit "What is light?")
           (init_state [])).
  reflexivity.
Defined.

(** The same stream, spelled out: the first two tokens are spoken once they
    pass 30 characters, the last four are lost. *)
Example monolith_rambling :
  let run := Monolith.ask_gemma (fun _ => mkReply rambling None) a_context
               (lit "What is light?") (init_state []) in
  fst run = Ret (lit "Light travels in straight lines")
  /\ spoken_texts (trace (snd run)) = [lit "Light travels in straight lines"].
Proof. vm_compute. split; reflexivity. Qed.

(** ** The compatibility [ask_gemma] against the legacy one *)

Lemma retry_loop_service_events :
  forall (service : nat -> str -> Z -> service_reply) remaining attempt prompt
         timeout s,
    exists a evs,
      GemmaClient.retry_loop service remaining attempt prompt timeout false s
      = (Ret a, add_events evs s)
      /\ forallb service_event evs = true.
Proof.
  intros service. induction remaining as [|n IH]; intros attempt prompt timeout s.
  - exists [], []. cbn [GemmaClient.retry_loop]. unfold ret.
    now rewrite add_events_nil.
  - destruct (Z.leb_spec timeout 0) as [Exp|Pos].
    { cbn [GemmaClient.retry_loop].
      erewrite bind_run by (apply attempt_once_expired; exact Exp).
      destruct (attempt <? GemmaClient.max_retries - 1).
      - match goal with |- context [GemmaClient.retry_loop _ _ _ _ _ _ ?st] =>
          destruct (IH (S attempt) prompt timeout st) as (a & evs & E' & F')
        end.
        eexists a, _. rewrite E', add_events_app. split; [reflexivity|].
        rewrite forallb_app. cbn [forallb service_event]. now rewrite F'.
      - eexists _, []. unfold ret. rewrite !add_events_nil.
        split; reflexivity. }
    destruct (attempt_once_run service attempt prompt false s Pos)
      as (chunks & E & N & _).
    rewrite (N eq_refl) in E. cbn [map app] in E.
    cbn [GemmaClient.retry_loop]. erewrite bind_run by exact E.
    assert (Q : forallb service_event
                  (snd (pass_verdict attempt (service attempt prompt timeout)))
                = true).
    { unfold pass_verdict.
      destruct (ending (service attempt prompt timeout));
        [destruct (attempt <? GemmaClient.max_retries - 1)|]; reflexivity. }
    destruct (fst (pass_verdict attempt (service attempt prompt timeout)))
      as [ans|].
    + eexists ans, _. split; [reflexivity|]. cbn [forallb service_event].
      exact Q.
    + match goal with |- context [GemmaClient.retry_loop _ _ _ _ _ _ ?st] =>
        destruct (IH (S attempt) prompt timeout st) as (a & evs & E' & F')
      end.
      eexists a, _. rewrite E', add_events_app. split; [reflexivity|].
      rewrite forallb_app. cbn [forallb service_event]. now rewrite Q, F'.
Qed.

Lemma spoken_texts_app : forall a b,
  spoken_texts (a ++ b) = spoken_texts a ++ spoken_texts b.
Proof.
  induction a as [|e a IH]; intros b; [reflexivity|].
  destruct e; simpl; rewrite ?IH; reflexivity.
Qed.

Lemma legacy_consume_extends : forall cs buffer spoken s,
  exists final more,
    Legacy.consume cs buffer spoken s
    = (Ret final, add_events (map EvSpeakThread more) s).
Proof.
  induction cs as [|c cs IH]; intros buffer spoken s.
  - exists spoken, []. cbn. unfold ret. now rewrite add_events_nil.
  - cbn [Legacy.consume].
    destruct (has_terminator (buffer ++ chunk_get_response c)); [|apply IH].
    erewrite bind_run by apply emit_run.
    match goal with |- context [Legacy.consume cs ?b ?sp ?st] =>
      destruct (IH b sp st) as (final & more & E) end.
    exists final,
      (replace (strip (buffer ++ chunk_get_response c)) spoken [] :: more).
    rewrite E, add_events_app. reflexivity.
Qed.

Lemma legacy_consume_speaks : forall cs buffer spoken s,
  has_terminator buffer = false ->
  has_terminator (buffer ++ tokens_of cs) = true ->
  exists final text more,
    Legacy.consume cs buffer spoken s
    = (Ret final, add_events (map EvSpeakThread (text :: more)) s).
Proof.
  induction cs as [|c cs IH]; intros buffer spoken s Clean Term.
  - unfold tokens_of in Term. cbn [map concat] in Term.
    rewrite app_nil_r in Term. congruence.
  - cbn [Legacy.consume]. unfold tokens_of in Term. cbn [map concat] in Term.
    fold (tokens_of cs) in Term. rewrite app_assoc in Term.
    destruct (has_terminator (buffer ++ chunk_get_response c)) eqn:H.
    + erewrite bind_run by apply emit_run.
      match goal with |- context [Legacy.consume cs ?b ?sp ?st] =>
        destruct (legacy_consume_extends cs b sp st) as (final & more & E) end.
      exists final,
        (replace (strip (buffer ++ chunk_get_response c)) spoken []), more.
      rewrite E, add_events_app. reflexivity.
    + now apply IH.
Qed.

(** X29: the [ask_gemma] kept in gemma_optimized.py for backward
    compatibility is silent where the legacy [ask_gemma] of gemma.py speaks.
    For any service its only external calls are calls to the service and
    sleeps; the legacy function, on a completed stream that holds a sentence
    terminator, starts at least one speech thread. *)
Theorem X29_compat_ask_gemma_never_speaks :
  (forall (service : nat -> str -> Z -> service_reply) question context s,
     exists a evs,
       GemmaCompat.ask_gemma service question context s
       = (Ret a, add_events evs s)
       /\ forallb service_event evs = true)
  /\ (forall cs question context s,
        has_terminator (tokens_of cs) = true ->
        exists spoken text more,
          Legacy.ask_gemma (fun _ => mkReply cs None) question context s
          = (Ret spoken,
             add_events
               (EvGenerate (Legacy.prompt_head ++ context ++ Legacy.prompt_mid
                            ++ question ++ Legacy.prompt_tail)
                :: map EvSpeakThread (text :: more)) s)).
Proof.
  split.
  - intros service question context s.
    unfold GemmaCompat.ask_gemma, GemmaClient.ask_question_async.
    apply retry_loop_service_events.
  - intros cs question context s Term.
    match goal with |- context [EvGenerate ?p] => set (prompt := p) end.
    destruct (legacy_consume_speaks cs [] []
                (add_events [EvGenerate prompt] s) eq_refl Term)
      as (final & text & more & E).
    exists final, text, more.
    unfold Legacy.ask_gemma, try_except. fold prompt. cbn [delivered ending].
    erewrite bind_run by apply emit_run.
    erewrite bind_run by exact E.
    unfold ret. now rewrite add_events_app.
Qed.

Lemma X29_compat_ask_gemma_never_speaks_witness :
  exists spoken text more,
    Legacy.ask_gemma (fun _ => mkReply yes_yes None) (lit "Sure?") a_context
      (init_state [])
    = (Ret spoken,
       add_events
         (EvGenerate (Legacy.prompt_head ++ a_context ++ Legacy.prompt_mid
                      ++ lit "Sure?" ++ Legacy.prompt_tail)
          :: map EvSpeakThread (text :: more)) (init_state [])).
Proof.
  apply (proj2 X29_compat_ask_gemma_never_speaks yes_yes (lit "Sure?")
           a_context (init_state [])).
  reflexivity.
Defined.
